(** * The supervisory core of the trading bot

    A shallow embedding of [src/core/trading_bot.py]: the lifecycle state
    machine, the five periodic control loops, the drawdown circuit breaker,
    the reconnection logic and the shutdown / persistence protocol.

    The bot object becomes a record, its collaborators (exchange, market
    feed, risk engine, market data, scanner, pair manager, file system and
    clock) an abstract world with fallible operations, and every method a
    computation in a small state-and-exception monad that also records the
    trace of collaborator calls, log lines and sleeps. *)

From Stdlib Require Import Floats ZArith Lia.
From stdpp Require Import gmap strings list sorting.

Set Warnings "-inexact-float".
Local Open Scope Z_scope.

(** ** Python values *)

(** [x > y] on Python floats is the IEEE-754 comparison. *)
Definition float_gt (x y : float) : bool := PrimFloat.ltb y x.
Arguments float_gt : simpl never.

(** Truth value of a Python float: everything but [0.0] and [-0.0]. *)
Definition float_truthy (x : float) : bool := negb (PrimFloat.eqb x 0%float).

(** The slice [l[-n:]]: the last [n] items, or all of [l] when it is
    shorter. *)
Definition slice_last {A} (n : nat) (l : list A) : list A :=
  drop (length l - n) l.

(** A naive [datetime] is a count of microseconds of local time; [.date()]
    is the calendar day it falls in, and dates compare by their ordinal. *)
Definition datetime := Z.
Definition us_per_day : Z := 86400000000.
Definition date (t : datetime) : Z := t `div` us_per_day.

(** ** Data model *)

Inductive BotState :=
  | INITIALIZING | RUNNING | PAUSED | STOPPING | STOPPED | ERROR.

(** [BotState.value] *)
Definition state_value (s : BotState) : string :=
  match s with
  | INITIALIZING => "initializing"
  | RUNNING => "running"
  | PAUSED => "paused"
  | STOPPING => "stopping"
  | STOPPED => "stopped"
  | ERROR => "error"
  end.

Definition BotState_eqb (a b : BotState) : bool :=
  match a, b with
  | INITIALIZING, INITIALIZING | RUNNING, RUNNING | PAUSED, PAUSED
  | STOPPING, STOPPING | STOPPED, STOPPED | ERROR, ERROR => true
  | _, _ => false
  end.

Record BotStatus := mkStatus {
  state : BotState;
  start_time : datetime;
  last_update : datetime;
  total_trades : Z;
  open_positions : Z;
  total_pnl : float;
  daily_pnl : float;
  errors : list string;
  metrics : gmap string Z;
}.

(** The configuration entries the orchestrator reads after start-up, each
    with the default its [.get] gives; [initial_balance] is read with a
    plain subscript and is [None] when the key is missing. *)
Record Config := mkConfig {
  exchange_name : string;
  testnet : bool;
  api_key : string;
  api_secret : string;
  pairs : list string;
  initial_balance : option float;
  scan_interval : Z;
  strategy_interval : Z;
  save_state : bool;
  close_on_pause : bool;
}.

(** The bot object. A collaborator attribute is [true] once it holds an
    object and [false] while it is [None]; [_last_daily_reset] is [None]
    while the attribute does not exist. *)
Record Bot := mkBot {
  config : Config;
  paper_trading : bool;
  status : BotStatus;
  exchange : bool;
  websocket_feed : bool;
  watchlist_scanner : bool;
  risk_manager : bool;
  market_data : bool;
  pair_manager : bool;
  _main_task : bool;
  _shutdown_event : bool;
  _last_daily_reset : option datetime;
}.

Inductive DataType := TICKER | TRADES | ORDERBOOK.

(** [RiskMetrics] as the risk monitor reads it. *)
Record RiskMetrics := mkRisk {
  current_drawdown : float;
  rm_daily_pnl : float;
}.

(** [WebSocketMarketFeed.get_metrics()] *)
Record FeedMetrics := mkFeedMetrics {
  connected : bool;
  avg_latency_ms : float;
}.

(** [MultiPairManager.get_performance_summary()] *)
Record PerfSummary := mkPerf {
  ps_total_trades : Z;
  ps_total_pnl : float;
  ps_win_rate : float;
}.

(** One value of [MultiPairManager.performance]. *)
Record PerfEntry := mkPerfEntry {
  last_trade : option datetime;
  pnl : float;
}.

(** A ticker is a dict from field names to prices. *)
Definition Ticker := list (string * float).

Fixpoint ticker_get (k : string) (t : Ticker) : option float :=
  match t with
  | [] => None
  | (k', v) :: t' => if String.eqb k k' then Some v else ticker_get k t'
  end.

(** The outcome of a call: a value, or an exception of class [Exception]
    carrying [str(e)]. *)
Inductive Res (A : Type) :=
  | Ok (a : A)
  | Raise (e : string).
Arguments Ok {A} a.
Arguments Raise {A} e.

(** The way an awaited coroutine ends inside a task: by itself, with a value
    or an exception of class [Exception], or cancelled, with the
    [asyncio.CancelledError] that the event loop throws into it and that no
    [except Exception] catches. *)
Inductive Ending (A : Type) :=
  | Ended (r : Res A)
  | CancelledError.
Arguments Ended {A} r.
Arguments CancelledError {A}.

Inductive Level := LDebug | LInfo | LWarning | LError.

Definition Level_eqb (a b : Level) : bool :=
  match a, b with
  | LDebug, LDebug | LInfo, LInfo | LWarning, LWarning | LError, LError => true
  | _, _ => false
  end.

(** ** Status register updates *)

Definition set_state (s : BotState) (b : Bot) : Bot :=
  let st := status b in
  mkBot (config b) (paper_trading b)
    (mkStatus s (start_time st) (last_update st) (total_trades st)
       (open_positions st) (total_pnl st) (daily_pnl st) (errors st) (metrics st))
    (exchange b) (websocket_feed b) (watchlist_scanner b) (risk_manager b)
    (market_data b) (pair_manager b) (_main_task b) (_shutdown_event b)
    (_last_daily_reset b).

Definition set_status (st : BotStatus) (b : Bot) : Bot :=
  mkBot (config b) (paper_trading b) st
    (exchange b) (websocket_feed b) (watchlist_scanner b) (risk_manager b)
    (market_data b) (pair_manager b) (_main_task b) (_shutdown_event b)
    (_last_daily_reset b).

Definition set_start_time (t : datetime) (b : Bot) : Bot :=
  let st := status b in
  set_status (mkStatus (state st) t (last_update st) (total_trades st)
       (open_positions st) (total_pnl st) (daily_pnl st) (errors st) (metrics st)) b.

Definition set_last_update (t : datetime) (b : Bot) : Bot :=
  let st := status b in
  set_status (mkStatus (state st) (start_time st) t (total_trades st)
       (open_positions st) (total_pnl st) (daily_pnl st) (errors st) (metrics st)) b.

Definition set_total_trades (n : Z) (b : Bot) : Bot :=
  let st := status b in
  set_status (mkStatus (state st) (start_time st) (last_update st) n
       (open_positions st) (total_pnl st) (daily_pnl st) (errors st) (metrics st)) b.

Definition set_open_positions (n : Z) (b : Bot) : Bot :=
  let st := status b in
  set_status (mkStatus (state st) (start_time st) (last_update st) (total_trades st)
       n (total_pnl st) (daily_pnl st) (errors st) (metrics st)) b.

Definition set_total_pnl (x : float) (b : Bot) : Bot :=
  let st := status b in
  set_status (mkStatus (state st) (start_time st) (last_update st) (total_trades st)
       (open_positions st) x (daily_pnl st) (errors st) (metrics st)) b.

Definition set_daily_pnl (x : float) (b : Bot) : Bot :=
  let st := status b in
  set_status (mkStatus (state st) (start_time st) (last_update st) (total_trades st)
       (open_positions st) (total_pnl st) x (errors st) (metrics st)) b.

Definition set_errors (l : list string) (b : Bot) : Bot :=
  let st := status b in
  set_status (mkStatus (state st) (start_time st) (last_update st) (total_trades st)
       (open_positions st) (total_pnl st) (daily_pnl st) l (metrics st)) b.

Definition set_metrics (m : gmap string Z) (b : Bot) : Bot :=
  let st := status b in
  set_status (mkStatus (state st) (start_time st) (last_update st) (total_trades st)
       (open_positions st) (total_pnl st) (daily_pnl st) (errors st) m) b.

Definition set_main_task (v : bool) (b : Bot) : Bot :=
  mkBot (config b) (paper_trading b) (status b)
    (exchange b) (websocket_feed b) (watchlist_scanner b) (risk_manager b)
    (market_data b) (pair_manager b) v (_shutdown_event b)
    (_last_daily_reset b).

Definition set_shutdown_event (v : bool) (b : Bot) : Bot :=
  mkBot (config b) (paper_trading b) (status b)
    (exchange b) (websocket_feed b) (watchlist_scanner b) (risk_manager b)
    (market_data b) (pair_manager b) (_main_task b) v
    (_last_daily_reset b).

Definition set_last_daily_reset (t : datetime) (b : Bot) : Bot :=
  mkBot (config b) (paper_trading b) (status b)
    (exchange b) (websocket_feed b) (watchlist_scanner b) (risk_manager b)
    (market_data b) (pair_manager b) (_main_task b) (_shutdown_event b)
    (Some t).

(** The collaborator attributes, assigned one by one in [initialize]. *)
Inductive Component :=
  | CExchange | CFeed | CScanner | CRisk | CMarketData | CPairManager.

Definition has (c : Component) (b : Bot) : bool :=
  match c with
  | CExchange => exchange b
  | CFeed => websocket_feed b
  | CScanner => watchlist_scanner b
  | CRisk => risk_manager b
  | CMarketData => market_data b
  | CPairManager => pair_manager b
  end.

Definition assign (c : Component) (b : Bot) : Bot :=
  let on (c' : Component) (old : bool) :=
    match c, c' with
    | CExchange, CExchange | CFeed, CFeed | CScanner, CScanner
    | CRisk, CRisk | CMarketData, CMarketData | CPairManager, CPairManager => true
    | _, _ => old
    end in
  mkBot (config b) (paper_trading b) (status b)
    (on CExchange (exchange b)) (on CFeed (websocket_feed b))
    (on CScanner (watchlist_scanner b)) (on CRisk (risk_manager b))
    (on CMarketData (market_data b)) (on CPairManager (pair_manager b))
    (_main_task b) (_shutdown_event b) (_last_daily_reset b).

(** [MarketUpdate], over the type of its opaque payload. *)
Record MarketUpdate (P : Type) := mkUpdate {
  symbol : string;
  data_type : DataType;
  data : P;
  latency_ms : float;
}.
Arguments mkUpdate {P}.
Arguments symbol {P}.
Arguments data_type {P}.
Arguments data {P}.
Arguments latency_ms {P}.

(** The dict [_save_state] writes to [data/bot_state.json], over the type
    of the pair manager's opaque positions dump. *)
Record PersistedSnapshot (D : Type) := mkSnapshot {
  snap_timestamp : datetime;
  snap_state : string;
  snap_total_trades : Z;
  snap_open_positions : Z;
  snap_total_pnl : float;
  snap_daily_pnl : float;
  snap_positions : D;
  snap_errors : list string;
}.
Arguments mkSnapshot {D}.
Arguments snap_state {D}.
Arguments snap_errors {D}.

(** ** The collaborators

    None of the collaborators' code is part of the orchestrator: each
    operation it calls is taken as a transition of an abstract world that
    either returns or raises. Objects that live inside a collaborator (the
    positions, the ticker cache) stay in the world and are referred to by
    their key, so that a mutation made through one reference is seen through
    every other one. *)

Class Collaborators := {
  World : Type;
  (** [MarketUpdate.data] and [pair_manager.get_positions()], both opaque *)
  Payload : Type;
  Signal : Type;
  PositionsDump : Type;
  (** [datetime.now()] *)
  clock : World -> datetime * World;
  (** [ExchangeConnector] *)
  exchange_new : World -> Res unit * World;
  exchange_connect : option (string * string) -> World -> Res bool * World;
  exchange_connected : World -> bool;
  exchange_close : World -> Res unit * World;
  (** [WebSocketMarketFeed] *)
  feed_new : World -> Res unit * World;
  feed_connect : World -> Res bool * World;
  feed_disconnect : World -> Res unit * World;
  feed_subscribe : string -> list DataType -> World -> Res unit * World;
  feed_get_ticker : string -> World -> Res (option Ticker) * World;
  feed_get_metrics : World -> Res FeedMetrics * World;
  (** [RiskManager]; a position is passed by reference, here by its key *)
  risk_new : World -> Res unit * World;
  get_risk_metrics : float -> World -> Res RiskMetrics * World;
  update_trailing_stop : string -> float -> World -> Res (option float) * World;
  reset_daily_counters : World -> Res unit * World;
  (** [MarketData] *)
  market_data_new : World -> Res unit * World;
  market_data_initialize : list string -> World -> Res unit * World;
  update_all : World -> Res unit * World;
  ticker_cache_set : string -> Payload -> World -> World;
  _update_orderbook : string -> Payload -> World -> Res unit * World;
  (** [WatchlistScanner] *)
  scanner_new : World -> Res unit * World;
  update_watchlist : World -> Res unit * World;
  (** [MultiPairManager] *)
  pair_manager_new : World -> Res unit * World;
  update_market_data : World -> Res unit * World;
  check_signals : World -> Res (list Signal) * World;
  execute_signals : list Signal -> World -> Res unit * World;
  positions : World -> list string;
  set_stop_loss : string -> float -> World -> World;
  performance : World -> list (string * PerfEntry);
  get_performance_summary : World -> Res PerfSummary * World;
  get_positions : World -> Res PositionsDump * World;
  close_all_positions : string -> World -> Res unit * World;
  (** the file system under [data/] *)
  mkdir_data : World -> Res unit * World;
  write_state_file : PersistedSnapshot PositionsDump -> World -> Res unit * World;
}.

Declare Scope bot_scope.
Delimit Scope bot_scope with bot.

Section Orchestrator.

Context {C : Collaborators}.

(** ** Traces *)

(** The collaborator methods the orchestrator calls. *)
Inductive Method :=
  | ExchangeNew | ExchangeConnect | ExchangeConnected | ExchangeClose
  | FeedNew | FeedConnect | FeedDisconnect
  | FeedSubscribe (sym : string) | FeedGetTicker (sym : string) | FeedGetMetrics
  | RiskNew | GetRiskMetrics | UpdateTrailingStop (sym : string)
  | ResetDailyCounters
  | MarketDataNew | MarketDataInitialize | UpdateAll
  | TickerCacheSet (sym : string) | UpdateOrderbook (sym : string)
  | ScannerNew | UpdateWatchlist
  | PairManagerNew | UpdateMarketData | CheckSignals | ExecuteSignals
  | Positions | SetStopLoss (sym : string) | Performance_
  | GetPerformanceSummary | GetPositions
  | CloseAllPositions (reason : string)
  | Mkdir | WriteStateFile (snap : PersistedSnapshot PositionsDump).

(** What a call answered, as far as the orchestrator looks at it. *)
Inductive Answer :=
  | AUnit
  | ABool (b : bool)
  | AFeedMetrics (m : FeedMetrics)
  | ARisk (r : RiskMetrics)
  | AOpaque.

(** The log lines, one constructor per call site of [log_*]. *)
Inductive Msg :=
  | MsgInitializing | MsgInitialized | MsgInitError (e : string)
  | MsgSubscribed (n : nat)
  | MsgHighLatency (latency : float) (sym : string)
  | MsgUpdateError (sym : string) (e : string)
  | MsgCannotStart (s : BotState)
  | MsgStarting
  | MsgMainLoopStarted | MsgMainLoopError (e : string) | MsgMainLoopDone
  | MsgTaskCancelled (name : string)
  | MsgTaskError (name : string) (e : string)
  | MsgScanning | MsgScannerError (e : string)
  | MsgSignals (n : nat) | MsgStrategyError (e : string)
  | MsgHighDrawdown (dd : float) | MsgCriticalDrawdown
  | MsgDailyLoss (x : float)
  | MsgTrailingStop (sym : string) (stop : float)
  | MsgRiskMonitorError (e : string)
  | MsgPerformance (p : PerfSummary) (daily : float)
  | MsgPerformanceError (e : string)
  | MsgWsDisconnected | MsgHighAvgLatency (latency : float)
  | MsgExchangeDisconnected
  | MsgHealthError (e : string)
  | MsgTradingPaused
  | MsgDailyReset
  | MsgStateSaved | MsgSaveError (e : string)
  | MsgStopping | MsgStopped | MsgShutdownError (e : string).

Inductive Event :=
  | Log (l : Level) (m : Msg)
  | Call (m : Method) (r : Res Answer)
  | Now (t : datetime)
  | Sleep (secs : Z)
  | CreateTask (name : string).

(** ** The monad *)

Record St := mkSt {
  bot : Bot;
  world : World;
  trace : list Event;
}.

Definition M (A : Type) : Type := St -> Res A * St.

Definition ret {A} (a : A) : M A := fun s => (Ok a, s).

Definition bind {A B} (c : M A) (k : A -> M B) : M B :=
  fun s =>
    match c s with
    | (Ok a, s') => k a s'
    | (Raise e, s') => (Raise e, s')
    end.

Definition raise {A} (e : string) : M A := fun s => (Raise e, s).

(** [try: body / except Exception as e: handler e] *)
Definition try_except {A} (body : M A) (handler : string -> M A) : M A :=
  fun s =>
    match body s with
    | (Ok a, s') => (Ok a, s')
    | (Raise e, s') => handler e s'
    end.

(** [try: body / finally: fin] *)
Definition try_finally {A} (body : M A) (fin : M unit) : M A :=
  fun s =>
    let '(r, s') := body s in
    match fin s' with
    | (Ok _, s'') => (r, s'')
    | (Raise e, s'') => (Raise e, s'')
    end.

Definition get : M Bot := fun s => (Ok (bot s), s).

Definition modify (f : Bot -> Bot) : M unit :=
  fun s => (Ok tt, mkSt (f (bot s)) (world s) (trace s)).

Definition emit (e : Event) : M unit :=
  fun s => (Ok tt, mkSt (bot s) (world s) (trace s ++ [e])).

Definition log (l : Level) (m : Msg) : M unit := emit (Log l m).

(** [await asyncio.sleep(secs)] *)
Definition sleep (secs : Z) : M unit := emit (Sleep secs).

Definition when (c : bool) (body : M unit) : M unit :=
  if c then body else ret tt.

Definition answered {A} (ans : A -> Answer) (r : Res A) : Res Answer :=
  match r with
  | Ok a => Ok (ans a)
  | Raise e => Raise e
  end.

(** A call that needs no collaborator attribute: constructors, the file
    system. *)
Definition sys_call {A} (m : Method) (ans : A -> Answer)
    (op : World -> Res A * World) : M A :=
  fun s =>
    let '(r, w') := op (world s) in
    (r, mkSt (bot s) w' (trace s ++ [Call m (answered ans r)])).

(** The attribute a call looks up on its collaborator; a constructor or a
    file system call looks up none and is named by what it calls. *)
Definition attribute_of (m : Method) : string :=
  match m with
  | ExchangeNew => "ExchangeConnector"
  | ExchangeConnect => "connect"
  | ExchangeConnected => "connected"
  | ExchangeClose => "close"
  | FeedNew => "WebSocketMarketFeed"
  | FeedConnect => "connect"
  | FeedDisconnect => "disconnect"
  | FeedSubscribe _ => "subscribe"
  | FeedGetTicker _ => "get_ticker"
  | FeedGetMetrics => "get_metrics"
  | RiskNew => "RiskManager"
  | GetRiskMetrics => "get_risk_metrics"
  | UpdateTrailingStop _ => "update_trailing_stop"
  | ResetDailyCounters => "reset_daily_counters"
  | MarketDataNew => "MarketData"
  | MarketDataInitialize => "initialize"
  | UpdateAll => "update_all"
  | TickerCacheSet _ => "ticker_cache"
  | UpdateOrderbook _ => "_update_orderbook"
  | ScannerNew => "WatchlistScanner"
  | UpdateWatchlist => "update_watchlist"
  | PairManagerNew => "MultiPairManager"
  | UpdateMarketData => "update_market_data"
  | CheckSignals => "check_signals"
  | ExecuteSignals => "execute_signals"
  | Positions => "positions"
  | SetStopLoss _ => "positions"
  | Performance_ => "performance"
  | GetPerformanceSummary => "get_performance_summary"
  | GetPositions => "get_positions"
  | CloseAllPositions _ => "close_all_positions"
  | Mkdir => "mkdir"
  | WriteStateFile _ => "dump"
  end.

(** [str(e)] of the [AttributeError] that the lookup of the method's
    attribute on [None] raises. *)
Definition missing_attribute (m : Method) : string :=
  "'NoneType' object has no attribute '" +:+ attribute_of m +:+ "'".

(** A method call on a collaborator attribute: on [None] the attribute
    lookup raises [AttributeError] and nothing is called. *)
Definition call {A} (c : Component) (m : Method) (ans : A -> Answer)
    (op : World -> Res A * World) : M A :=
  fun s =>
    if has c (bot s) then sys_call m ans op s
    else (Raise (missing_attribute m), s).

(** [datetime.now()] *)
Definition now_ : M datetime :=
  fun s =>
    let '(t, w') := clock (world s) in
    (Ok t, mkSt (bot s) w' (trace s ++ [Now t])).

Notation "'let*' x ':=' c 'in' k" := (bind c (fun x => k))
  (at level 10, x name, c at level 100, k at level 200) : bot_scope.
Notation "c1 >> c2" := (bind c1 (fun _ => c2))
  (at level 60, right associativity) : bot_scope.
Local Open Scope bot_scope.

Fixpoint for_each {A} (l : list A) (body : A -> M unit) : M unit :=
  match l with
  | [] => ret tt
  | x :: l' => body x >> for_each l' body
  end.

Definition call_ {A} (c : Component) (m : Method) (ans : A -> Answer)
    (op : World -> Res A * World) : M unit :=
  let* _ := call c m ans op in ret tt.

Definition a_unit : unit -> Answer := fun _ => AUnit.

Definition append_error (e : string) (b : Bot) : Bot :=
  set_errors (errors (status b) ++ [e]) b.

(** ** Start-up *)

(** [__init__], after the configuration is loaded and validated. *)
Definition init_bot (cfg : Config) (paper : bool) (now : datetime) : Bot :=
  mkBot cfg paper
    (mkStatus INITIALIZING now now 0 0 0%float 0%float [] ∅)
    false false false false false false false false None.

Definition _setup_websocket_subscriptions (symbols : list string) : M unit :=
  for_each symbols (fun sym =>
    call CFeed (FeedSubscribe sym) a_unit
      (feed_subscribe sym [TICKER; TRADES; ORDERBOOK])) >>
  log LInfo (MsgSubscribed (length symbols)).

Definition initialize : M bool :=
  try_except
    (log LInfo MsgInitializing >>
     let* b := get in
     let cfg := config b in
     sys_call ExchangeNew a_unit exchange_new >>
     modify (assign CExchange) >>
     let* ok := call CExchange ExchangeConnect ABool
                  (exchange_connect (Some (api_key cfg, api_secret cfg))) in
     (if ok : bool then ret tt else raise "Échec de connexion à l'exchange") >>
     sys_call FeedNew a_unit feed_new >>
     modify (assign CFeed) >>
     let* ok := call CFeed FeedConnect ABool feed_connect in
     (if ok : bool then ret tt else raise "Échec de connexion WebSocket") >>
     sys_call RiskNew a_unit risk_new >>
     modify (assign CRisk) >>
     sys_call MarketDataNew a_unit market_data_new >>
     modify (assign CMarketData) >>
     sys_call ScannerNew a_unit scanner_new >>
     modify (assign CScanner) >>
     sys_call PairManagerNew a_unit pair_manager_new >>
     modify (assign CPairManager) >>
     call CMarketData MarketDataInitialize a_unit
       (market_data_initialize (pairs cfg)) >>
     _setup_websocket_subscriptions (pairs cfg) >>
     modify (set_state STOPPED) >>
     log LInfo MsgInitialized >>
     ret true)
    (fun e =>
       log LError (MsgInitError e) >>
       modify (set_state ERROR) >>
       modify (append_error e) >>
       ret false).

(** ** The market update handler *)

(** The cached data an update refreshes: the ticker cache for a ticker,
    the order book for an order book, nothing for trades. *)
Definition cache_update (update : MarketUpdate Payload) : M unit :=
  match data_type update with
  | TICKER =>
      call CMarketData (TickerCacheSet (symbol update)) a_unit
        (fun w => (Ok tt, ticker_cache_set (symbol update) (data update) w))
  | ORDERBOOK =>
      call CMarketData (UpdateOrderbook (symbol update)) a_unit
        (_update_orderbook (symbol update) (data update))
  | TRADES => ret tt
  end.

Definition _handle_market_update (update : MarketUpdate Payload) : M unit :=
  try_except
    (cache_update update >>
     when (float_gt (latency_ms update) 200)
       (log LWarning (MsgHighLatency (latency_ms update) (symbol update))) >>
     modify (fun b =>
       let m := metrics (status b) in
       set_metrics (<["ws_updates" := default 0 (m !! "ws_updates") + 1]> m) b))
    (fun e => log LError (MsgUpdateError (symbol update) e)).

(** ** [start]

    Everything up to the final [await self._shutdown_event.wait()], which
    only parks the caller until [shutdown] has run. *)
Definition start : M unit :=
  let* b := get in
  match state (status b) with
  | STOPPED | ERROR =>
      log LInfo MsgStarting >>
      modify (set_state RUNNING) >>
      (let* t := now_ in modify (set_start_time t)) >>
      emit (CreateTask "main_loop") >>
      modify (set_main_task true)
  | s => log LWarning (MsgCannotStart s)
  end.

(** ** The task supervisor *)

(** A coroutine awaited in a task, which the event loop may cancel. *)
Definition Awaited (A : Type) : Type := St -> Ending A * St.

(** A computation that is left to run to its end. *)
Definition uncancelled {A} (c : M A) : Awaited A :=
  fun s => let '(r, s') := c s in (Ended r, s').

(** The wrapper [monitored] of [_create_monitored_task]: a cancellation of
    the wrapped coroutine is logged and raised again; any other exception
    is logged and recorded, never re-raised. *)
Definition monitored (name : string) (coro : Awaited unit) : Awaited unit :=
  fun s =>
    match coro s with
    | (Ended (Ok a), s') => (Ended (Ok a), s')
    | (CancelledError, s') =>
        (CancelledError, snd (log LInfo (MsgTaskCancelled name) s'))
    | (Ended (Raise e), s') =>
        uncancelled
          (log LError (MsgTaskError name e) >>
           modify (append_error (name +:+ ": " +:+ e))) s'
    end.

Inductive Loop := Scanner | Strategy | RiskMonitor | Performance | HealthCheck.

(** The names [_main_loop] gives its five tasks. *)
Definition loop_name (l : Loop) : string :=
  match l with
  | Scanner => "Scanner"
  | Strategy => "Strategy"
  | RiskMonitor => "Risk Monitor"
  | Performance => "Performance"
  | HealthCheck => "Health Check"
  end.

Definition all_loops : list Loop :=
  [Scanner; Strategy; RiskMonitor; Performance; HealthCheck].

(** [_main_loop] up to its [gather]: the five loops are created as tasks;
    from there on they run interleaved, each by [run_loop] below. *)
Definition _main_loop : M unit :=
  log LInfo MsgMainLoopStarted >>
  for_each all_loops (fun l => emit (CreateTask (loop_name l))).

(** ** Market scanner and strategy loops *)

Definition market_scanner_cycle : M unit :=
  try_except
    (log LDebug MsgScanning >>
     call CScanner UpdateWatchlist a_unit update_watchlist >>
     call CMarketData UpdateAll a_unit update_all >>
     let* b := get in
     sleep (scan_interval (config b)))
    (fun e => log LError (MsgScannerError e) >> sleep 60).

Definition strategy_cycle : M unit :=
  try_except
    (call CPairManager UpdateMarketData a_unit update_market_data >>
     let* signals := call CPairManager CheckSignals (fun _ => AOpaque) check_signals in
     (match signals with
      | [] => ret tt
      | _ =>
          log LInfo (MsgSignals (length signals)) >>
          call CPairManager ExecuteSignals a_unit (execute_signals signals)
      end) >>
     let* ps := call CPairManager Positions (fun _ => AOpaque)
                  (fun w => (Ok (positions w), w)) in
     modify (set_open_positions (Z.of_nat (length ps))) >>
     (let* t := now_ in modify (set_last_update t)) >>
     let* b := get in
     sleep (strategy_interval (config b)))
    (fun e => log LError (MsgStrategyError e) >> sleep 10).

(** ** Risk monitor *)

Definition _pause_trading : M unit :=
  modify (set_state PAUSED) >>
  log LWarning MsgTradingPaused >>
  let* b := get in
  when (close_on_pause (config b))
    (call CPairManager (CloseAllPositions "Protection drawdown") a_unit
       (close_all_positions "Protection drawdown")).

(** The drawdown limits of the risk monitor. *)
Definition drawdown_check (risk_metrics : RiskMetrics) : M unit :=
  when (float_gt (current_drawdown risk_metrics) 0.15)
    (log LWarning (MsgHighDrawdown (current_drawdown risk_metrics)) >>
     when (float_gt (current_drawdown risk_metrics) 0.20)
       (log LError MsgCriticalDrawdown >>
        _pause_trading)).

(** The daily loss limit of the risk monitor. *)
Definition daily_loss_check (risk_metrics : RiskMetrics) : M unit :=
  when (float_gt (rm_daily_pnl risk_metrics) 0.05)
    (log LWarning (MsgDailyLoss (rm_daily_pnl risk_metrics))).

(** The trailing-stop pass over [pair_manager.positions.items()]. *)
Definition trailing_stops : M unit :=
  let* syms := call CPairManager Positions (fun _ => AOpaque)
                 (fun w => (Ok (positions w), w)) in
  for_each syms (fun sym =>
    let* ticker := call CFeed (FeedGetTicker sym) (fun _ => AOpaque)
                     (feed_get_ticker sym) in
    match ticker with
    | None | Some [] => ret tt
    | Some t =>
        let* last := match ticker_get "last" t with
                     | Some p => ret p
                     | None => raise "'last'"
                     end in
        let* new_stop := call CRisk (UpdateTrailingStop sym) (fun _ => AOpaque)
                           (update_trailing_stop sym last) in
        match new_stop with
        | Some stop =>
            when (float_truthy stop)
              (call CPairManager (SetStopLoss sym) a_unit
                 (fun w => (Ok tt, set_stop_loss sym stop w)) >>
               log LDebug (MsgTrailingStop sym stop))
        | None => ret tt
        end
    end).

Definition risk_monitor_cycle : M unit :=
  try_except
    (let* b := get in
     let* capital := match initial_balance (config b) with
                     | Some c => ret c
                     | None => raise "'initial_balance'"
                     end in
     let* risk_metrics := call CRisk GetRiskMetrics ARisk (get_risk_metrics capital) in
     drawdown_check risk_metrics >>
     daily_loss_check risk_metrics >>
     trailing_stops >>
     sleep 30)
    (fun e => log LError (MsgRiskMonitorError e) >> sleep 60).

(** ** Performance tracker and persistence *)

Fixpoint daily_pnl_sum (perf : list (string * PerfEntry)) (acc : float) : M float :=
  match perf with
  | [] => ret acc
  | (_, entry) :: perf' =>
      match last_trade entry with
      | Some t =>
          let* now := now_ in
          if now - t <? us_per_day
          then daily_pnl_sum perf' (acc + pnl entry * 0.1)%float
          else daily_pnl_sum perf' acc
      | None => daily_pnl_sum perf' acc
      end
  end.

Definition _calculate_daily_pnl : M float :=
  let* perf := call CPairManager Performance_ (fun _ => AOpaque)
                 (fun w => (Ok (performance w), w)) in
  daily_pnl_sum perf 0%float.

Definition _save_state : M unit :=
  try_except
    (let* b := get in
     if negb (pair_manager b) then ret tt
     else
       let* now := now_ in
       let* dump := call CPairManager GetPositions (fun _ => AOpaque) get_positions in
       let st := status b in
       let snap :=
         mkSnapshot now (state_value (state st)) (total_trades st)
           (open_positions st) (total_pnl st) (daily_pnl st) dump
           (slice_last 10 (errors st)) in
       sys_call Mkdir a_unit mkdir_data >>
       sys_call (WriteStateFile snap) a_unit (write_state_file snap) >>
       log LDebug MsgStateSaved)
    (fun e => log LError (MsgSaveError e)).

Definition performance_tracker_cycle : M unit :=
  try_except
    (let* perf := call CPairManager GetPerformanceSummary (fun _ => AOpaque)
                    get_performance_summary in
     modify (set_total_trades (ps_total_trades perf)) >>
     modify (set_total_pnl (ps_total_pnl perf)) >>
     let* daily := _calculate_daily_pnl in
     modify (set_daily_pnl daily) >>
     when (0 <? ps_total_trades perf) (log LInfo (MsgPerformance perf daily)) >>
     let* b := get in
     when (save_state (config b)) _save_state >>
     sleep 300)
    (fun e => log LError (MsgPerformanceError e) >> sleep 300).

(** ** Health check *)

(** Liveness of the feed and of the exchange, with their reconnects. *)
Definition reconnect_check : M unit :=
  let* ws_metrics := call CFeed FeedGetMetrics AFeedMetrics feed_get_metrics in
  when (negb (connected ws_metrics))
    (log LError MsgWsDisconnected >>
     call_ CFeed FeedConnect ABool feed_connect) >>
  when (float_gt (avg_latency_ms ws_metrics) 200)
    (log LWarning (MsgHighAvgLatency (avg_latency_ms ws_metrics))) >>
  let* up := call CExchange ExchangeConnected ABool
               (fun w => (Ok (exchange_connected w), w)) in
  when (negb up)
    (log LError MsgExchangeDisconnected >>
     call_ CExchange ExchangeConnect ABool (exchange_connect None)).

(** The clean-up of old errors. *)
Definition trim_errors : M unit :=
  modify (fun b =>
    if (100 <? length (errors (status b)))%nat
    then set_errors (slice_last 50 (errors (status b))) b
    else b).

Definition _check_daily_reset : M unit :=
  let* now := now_ in
  let* b := get in
  match _last_daily_reset b with
  | Some last =>
      when (date last <? date now)
        (log LInfo MsgDailyReset >>
         call CRisk ResetDailyCounters a_unit reset_daily_counters >>
         modify (set_last_daily_reset now))
  | None => modify (set_last_daily_reset now)
  end.

Definition health_check_cycle : M unit :=
  try_except
    (reconnect_check >>
     trim_errors >>
     _check_daily_reset >>
     sleep 60)
    (fun e => log LError (MsgHealthError e) >> sleep 60).

(** ** The five loops *)

(** The [while] condition of each loop. *)
Definition alive (l : Loop) (b : Bot) : bool :=
  match l with
  | Scanner => negb (_shutdown_event b)
  | Strategy | RiskMonitor | Performance | HealthCheck =>
      BotState_eqb (state (status b)) RUNNING
  end.

(** The body of each loop: one cycle. *)
Definition cycle (l : Loop) : M unit :=
  match l with
  | Scanner => market_scanner_cycle
  | Strategy => strategy_cycle
  | RiskMonitor => risk_monitor_cycle
  | Performance => performance_tracker_cycle
  | HealthCheck => health_check_cycle
  end.

(** One turn of a loop: [None] when its condition is false and the loop
    returns, otherwise the outcome of the cycle it runs. *)
Definition loop_step (l : Loop) (s : St) : option (Res unit * St) :=
  if alive l (bot s) then Some (cycle l s) else None.

(** A loop run on its own for at most [fuel] turns: [Some] with the
    outcome once the loop has returned or raised, [None] while it would
    still be running. *)
Fixpoint run_loop (fuel : nat) (l : Loop) (s : St) : option (Res unit * St) :=
  match fuel with
  | O => None
  | S fuel' =>
      match loop_step l s with
      | None => Some (Ok tt, s)
      | Some (Ok _, s') => run_loop fuel' l s'
      | Some (Raise e, s') => Some (Raise e, s')
      end
  end.

(** A loop as [_main_loop] runs it: wrapped by [_create_monitored_task],
    and left to run to its end. *)
Definition run_task (fuel : nat) (l : Loop) (s : St) : option (Ending unit * St) :=
  match run_loop fuel l s with
  | None => None
  | Some (r, s') => Some (monitored (loop_name l) (fun s0 => (Ended r, s0)) s')
  end.

(** The same task cancelled while its loop is at [s]. *)
Definition cancel_task (l : Loop) (s : St) : Ending unit * St :=
  monitored (loop_name l) (fun s0 => (CancelledError, s0)) s.

(** ** Shutdown *)

Definition shutdown : M unit :=
  try_finally
    (try_except
       (log LInfo MsgStopping >>
        modify (set_state STOPPING) >>
        _save_state >>
        (let* b := get in
         when (websocket_feed b) (call CFeed FeedDisconnect a_unit feed_disconnect)) >>
        (let* b := get in
         when (exchange b) (call CExchange ExchangeClose a_unit exchange_close)) >>
        modify (set_state STOPPED) >>
        log LInfo MsgStopped)
       (fun e =>
          log LError (MsgShutdownError e) >>
          modify (set_state ERROR)))
    (modify (set_shutdown_event true)).

(** ** Concurrent shutdowns

    [shutdown] is started as a task by the signal handler, so several
    invocations can be in flight at once. Under asyncio's cooperative
    scheduling a coroutine runs undisturbed up to an [await] that really
    waits: here the feed's [disconnect] and the exchange's [close]
    ([_save_state] contains no [await] of its own). An invocation is
    therefore a little machine with four control points, and a run of
    several invocations is an interleaving of their steps. *)

Inductive ShutdownPc := AtEntry | AwaitDisconnect | AwaitClose | Finished.

Definition ShutdownPc_eqb (a b : ShutdownPc) : bool :=
  match a, b with
  | AtEntry, AtEntry | AwaitDisconnect, AwaitDisconnect
  | AwaitClose, AwaitClose | Finished, Finished => true
  | _, _ => false
  end.

(** The tail of the [try] block, then [finally]. *)
Definition shutdown_succeed : M unit :=
  modify (set_state STOPPED) >>
  log LInfo MsgStopped >>
  modify (set_shutdown_event true).

(** The [except] block, then [finally]. *)
Definition shutdown_fail (e : string) : M unit :=
  log LError (MsgShutdownError e) >>
  modify (set_state ERROR) >>
  modify (set_shutdown_event true).

(** From the exchange test onwards. *)
Definition shutdown_from_exchange (s : St) : ShutdownPc * St :=
  if exchange (bot s) then (AwaitClose, s)
  else (Finished, snd (shutdown_succeed s)).

(** From the feed test onwards. *)
Definition shutdown_from_feed (s : St) : ShutdownPc * St :=
  if websocket_feed (bot s) then (AwaitDisconnect, s)
  else shutdown_from_exchange s.

(** One step of an invocation: from its control point to the next point
    where it waits, or to its end. The awaited collaborator call takes
    effect when the invocation is resumed. *)
Definition shutdown_step (pc : ShutdownPc) (s : St) : ShutdownPc * St :=
  match pc with
  | AtEntry =>
      match (log LInfo MsgStopping >> modify (set_state STOPPING) >> _save_state) s with
      | (Ok _, s1) => shutdown_from_feed s1
      | (Raise e, s1) => (Finished, snd (shutdown_fail e s1))
      end
  | AwaitDisconnect =>
      match sys_call FeedDisconnect a_unit feed_disconnect s with
      | (Ok _, s1) => shutdown_from_exchange s1
      | (Raise e, s1) => (Finished, snd (shutdown_fail e s1))
      end
  | AwaitClose =>
      match sys_call ExchangeClose a_unit exchange_close s with
      | (Ok _, s1) => (Finished, snd (shutdown_succeed s1))
      | (Raise e, s1) => (Finished, snd (shutdown_fail e s1))
      end
  | Finished => (Finished, s)
  end.

(** The shared bot, world and trace, and the control point of every
    invocation in flight. *)
Record Sys := mkSys {
  sys_st : St;
  sys_pcs : list ShutdownPc;
}.

(** The scheduler resumes invocation [i]. *)
Definition sched_step (i : nat) (c : Sys) : Sys :=
  match sys_pcs c !! i with
  | Some pc =>
      let '(pc', s') := shutdown_step pc (sys_st c) in
      mkSys s' (<[i := pc']> (sys_pcs c))
  | None => c
  end.

Definition run_schedule (schedule : list nat) (c : Sys) : Sys :=
  foldl (fun c i => sched_step i c) c schedule.

(** [n] invocations, none of which has started to run. *)
Definition shutdowns (n : nat) (s : St) : Sys := mkSys s (replicate n AtEntry).

Definition all_finished (c : Sys) : bool :=
  forallb (ShutdownPc_eqb Finished) (sys_pcs c).

(** How often the scheduler resumes invocation [i] in a schedule. *)
Definition turns (i : nat) (schedule : list nat) : nat :=
  length (List.filter (Nat.eqb i) schedule).

(** The steps an invocation has left at most. *)
Definition steps_left (pc : ShutdownPc) : nat :=
  match pc with
  | AtEntry => 3
  | AwaitDisconnect => 2
  | AwaitClose => 1
  | Finished => 0
  end.

Definition stopped_or_error (s : St) : Prop :=
  state (status (bot s)) = STOPPED \/ state (status (bot s)) = ERROR.

(** ** Reading traces *)

Definition count (p : Event -> bool) (tr : list Event) : nat :=
  length (List.filter p tr).

Definition is_call (p : Method -> bool) (e : Event) : bool :=
  match e with
  | Call m _ => p m
  | _ => false
  end.

Definition is_feed_connect (m : Method) : bool :=
  match m with FeedConnect => true | _ => false end.

Definition is_exchange_connect (m : Method) : bool :=
  match m with ExchangeConnect => true | _ => false end.

Definition is_feed_metrics (m : Method) : bool :=
  match m with FeedGetMetrics => true | _ => false end.

Definition is_exchange_connected (m : Method) : bool :=
  match m with ExchangeConnected => true | _ => false end.

Definition is_reset (m : Method) : bool :=
  match m with ResetDailyCounters => true | _ => false end.

Definition is_close_all (m : Method) : bool :=
  match m with CloseAllPositions _ => true | _ => false end.

Definition is_close_all_for (reason : string) (m : Method) : bool :=
  match m with CloseAllPositions r => String.eqb r reason | _ => false end.

Definition is_log (l : Level) (e : Event) : bool :=
  match e with
  | Log l' _ => Level_eqb l l'
  | _ => false
  end.

Definition is_high_latency_warning (e : Event) : bool :=
  match e with
  | Log LWarning (MsgHighLatency _ _) => true
  | _ => false
  end.

Definition is_daily_loss_warning (e : Event) : bool :=
  match e with
  | Log LWarning (MsgDailyLoss _) => true
  | _ => false
  end.

(** The events a computation adds to the trace when run from [s]. *)
Definition events_of {A} (c : M A) (s : St) : list Event :=
  drop (length (trace s)) (trace (snd (c s))).

(** The events of the liveness checks and reconnects. *)
Definition reconnect_event (e : Event) : bool :=
  is_call (fun m => is_feed_metrics m || is_feed_connect m
                    || is_exchange_connected m || is_exchange_connect m) e.

(** Clock readings and daily resets. *)
Definition reset_event (e : Event) : bool :=
  match e with
  | Now _ => true
  | Call ResetDailyCounters _ => true
  | _ => false
  end.

(** A call of a method in [p] that raised. *)
Definition raised (p : Method -> bool) (e : Event) : bool :=
  match e with
  | Call m (Raise _) => p m
  | _ => false
  end.

(** The feed-side calls of the health check. *)
Definition feed_side (m : Method) : bool := is_feed_metrics m || is_feed_connect m.

(** The feed reported [up] when asked for its metrics. *)
Definition feed_reported (up : bool) (e : Event) : bool :=
  match e with
  | Call FeedGetMetrics (Ok (AFeedMetrics m)) => Bool.eqb (connected m) up
  | _ => false
  end.

(** The exchange reported [up] when its [connected] flag was read. *)
Definition exchange_reported (up : bool) (e : Event) : bool :=
  match e with
  | Call ExchangeConnected (Ok (ABool b)) => Bool.eqb b up
  | _ => false
  end.

(** The calendar dates on which the daily reset was invoked: the date of
    the latest clock reading before each call. *)
Fixpoint reset_dates_from (today : option Z) (tr : list Event) : list Z :=
  match tr with
  | [] => []
  | Now t :: tr' => reset_dates_from (Some (date t)) tr'
  | Call ResetDailyCounters _ :: tr' =>
      match today with
      | Some d => d :: reset_dates_from today tr'
      | None => reset_dates_from today tr'
      end
  | _ :: tr' => reset_dates_from today tr'
  end.

Definition reset_dates (tr : list Event) : list Z := reset_dates_from None tr.

(** The error line of the risk monitor's [except] branch. *)
Definition is_risk_monitor_error (e : Event) : bool :=
  match e with
  | Log LError (MsgRiskMonitorError _) => true
  | _ => false
  end.

(** The error line of the update handler's [except] branch. *)
Definition is_update_error (e : Event) : bool :=
  match e with
  | Log LError (MsgUpdateError _ _) => true
  | _ => false
  end.

Definition any_method (m : Method) : bool := true.

(** The calls [_save_state] makes to build and write the snapshot, and the
    error line of its [except] branch. *)
Definition is_persistence (m : Method) : bool :=
  match m with
  | GetPositions | Mkdir | WriteStateFile _ => true
  | _ => false
  end.

Definition is_save_error (e : Event) : bool :=
  match e with
  | Log LError (MsgSaveError _) => true
  | _ => false
  end.

(** The two connections a shutdown tears down. *)
Definition is_teardown (m : Method) : bool :=
  match m with
  | FeedDisconnect | ExchangeClose => true
  | _ => false
  end.

(** ** Runs of the health check

    The health check loop runs a cycle, sleeps, and runs the next one;
    while it sleeps the other tasks and the outside world move on. They
    may change anything but the date of the last daily reset, which only
    [_check_daily_reset] writes, and the past. *)
Inductive health_run : St -> St -> Prop :=
  | run_start s : health_run s s
  | run_cycle s0 s :
      health_run s0 s -> health_run s0 (snd (health_check_cycle s))
  | run_env s0 s b w :
      health_run s0 s ->
      _last_daily_reset b = _last_daily_reset (bot s) ->
      health_run s0 (mkSt b w (trace s)).

(** The three external steps of a shutdown. *)
Inductive ShutdownPhase := PhSnapshot | PhDisconnect | PhClose.

Definition shutdown_phase (e : Event) : option ShutdownPhase :=
  match e with
  | Call (WriteStateFile _) _ => Some PhSnapshot
  | Call FeedDisconnect _ => Some PhDisconnect
  | Call ExchangeClose _ => Some PhClose
  | _ => None
  end.

Definition shutdown_phases (tr : list Event) : list ShutdownPhase :=
  omap shutdown_phase tr.

(** The lifecycle state recorded by every snapshot written in [tr]. *)
Definition snapshot_states (tr : list Event) : list string :=
  omap (fun e => match e with
                 | Call (WriteStateFile snap) _ => Some (snap_state snap)
                 | _ => None
                 end) tr.

End Orchestrator.

Arguments St {C}.
Arguments M {C} A.
Arguments Event {C}.
Arguments Method {C}.

(** ** A test double for the collaborators

    Concrete runs need concrete collaborators. The double keeps a clock
    reading, the two connection flags, the open positions and the risk
    snapshot it hands out, counts the resets and the snapshots written, and
    raises in exactly the operations listed in [tw_faults]. *)

Inductive Fault :=
  | FailFeedConnect | FailFeedDisconnect | FailExchangeConnect
  | FailExchangeClose | FailReset | FailOrderbook | FailCloseAll
  | FailGetPositions | FailWrite.

Definition Fault_eqb (a b : Fault) : bool :=
  match a, b with
  | FailFeedConnect, FailFeedConnect
  | FailFeedDisconnect, FailFeedDisconnect
  | FailExchangeConnect, FailExchangeConnect
  | FailExchangeClose, FailExchangeClose
  | FailReset, FailReset
  | FailOrderbook, FailOrderbook
  | FailCloseAll, FailCloseAll
  | FailGetPositions, FailGetPositions
  | FailWrite, FailWrite => true
  | _, _ => false
  end.

Record TestWorld := mkTW {
  tw_now : datetime;
  tw_feed_up : bool;
  tw_exchange_up : bool;
  tw_open : list string;
  tw_risk : RiskMetrics;
  tw_faults : list Fault;
  tw_resets : nat;
  tw_files : nat;
}.

Definition faulty (f : Fault) (w : TestWorld) : bool :=
  existsb (Fault_eqb f) (tw_faults w).

Definition tw_set_feed (up : bool) (w : TestWorld) : TestWorld :=
  mkTW (tw_now w) up (tw_exchange_up w) (tw_open w) (tw_risk w)
    (tw_faults w) (tw_resets w) (tw_files w).

Definition tw_set_exchange (up : bool) (w : TestWorld) : TestWorld :=
  mkTW (tw_now w) (tw_feed_up w) up (tw_open w) (tw_risk w)
    (tw_faults w) (tw_resets w) (tw_files w).

Definition tw_set_open (l : list string) (w : TestWorld) : TestWorld :=
  mkTW (tw_now w) (tw_feed_up w) (tw_exchange_up w) l (tw_risk w)
    (tw_faults w) (tw_resets w) (tw_files w).

Definition tw_set_now (t : datetime) (w : TestWorld) : TestWorld :=
  mkTW t (tw_feed_up w) (tw_exchange_up w) (tw_open w) (tw_risk w)
    (tw_faults w) (tw_resets w) (tw_files w).

Definition tw_count_reset (w : TestWorld) : TestWorld :=
  mkTW (tw_now w) (tw_feed_up w) (tw_exchange_up w) (tw_open w) (tw_risk w)
    (tw_faults w) (S (tw_resets w)) (tw_files w).

Definition tw_count_file (w : TestWorld) : TestWorld :=
  mkTW (tw_now w) (tw_feed_up w) (tw_exchange_up w) (tw_open w) (tw_risk w)
    (tw_faults w) (tw_resets w) (S (tw_files w)).

(** An operation of the double: it raises when its fault is listed and
    otherwise answers [a] and moves the world by [f]. *)
Definition tw_op {A} (f : option Fault) (e : string) (a : A)
    (step : TestWorld -> TestWorld) (w : TestWorld) : Res A * TestWorld :=
  match f with
  | Some flt => if faulty flt w then (Raise e, w) else (Ok a, step w)
  | None => (Ok a, step w)
  end.

#[local] Instance test_double : Collaborators := {|
  World := TestWorld;
  Payload := unit;
  Signal := unit;
  PositionsDump := list string;
  clock := fun w => (tw_now w, w);
  exchange_new := tw_op None "" tt id;
  exchange_connect := fun _ =>
    tw_op (Some FailExchangeConnect) "exchange unreachable" true (tw_set_exchange true);
  exchange_connected := tw_exchange_up;
  exchange_close :=
    tw_op (Some FailExchangeClose) "close failed" tt (tw_set_exchange false);
  feed_new := tw_op None "" tt id;
  feed_connect :=
    tw_op (Some FailFeedConnect) "feed unreachable" true (tw_set_feed true);
  feed_disconnect :=
    tw_op (Some FailFeedDisconnect) "disconnect failed" tt (tw_set_feed false);
  feed_subscribe := fun _ _ => tw_op None "" tt id;
  feed_get_ticker := fun _ => tw_op None "" None id;
  feed_get_metrics := fun w =>
    (Ok (mkFeedMetrics (tw_feed_up w) 12.5), w);
  risk_new := tw_op None "" tt id;
  get_risk_metrics := fun _ w => (Ok (tw_risk w), w);
  update_trailing_stop := fun _ _ => tw_op None "" None id;
  reset_daily_counters :=
    tw_op (Some FailReset) "reset failed" tt tw_count_reset;
  market_data_new := tw_op None "" tt id;
  market_data_initialize := fun _ => tw_op None "" tt id;
  update_all := tw_op None "" tt id;
  ticker_cache_set := fun _ _ w => w;
  _update_orderbook := fun _ _ =>
    tw_op (Some FailOrderbook) "malformed order book" tt id;
  scanner_new := tw_op None "" tt id;
  update_watchlist := tw_op None "" tt id;
  pair_manager_new := tw_op None "" tt id;
  update_market_data := tw_op None "" tt id;
  check_signals := tw_op None "" [] id;
  execute_signals := fun _ => tw_op None "" tt id;
  positions := tw_open;
  set_stop_loss := fun _ _ w => w;
  performance := fun _ => [];
  get_performance_summary := tw_op None "" (mkPerf 0 0 0) id;
  get_positions := fun w =>
    tw_op (Some FailGetPositions) "positions unavailable" (tw_open w) id w;
  close_all_positions := fun _ =>
    tw_op (Some FailCloseAll) "close_all failed" tt (tw_set_open []);
  mkdir_data := tw_op None "" tt id;
  write_state_file := fun _ =>
    tw_op (Some FailWrite) "No space left on device" tt tw_count_file;
|}.

Definition test_config (close : bool) : Config :=
  mkConfig "binance" true "key" "secret" ["BTC/USDT"; "ETH/USDT"]
    (Some 10000%float) 300 60 true close.

Definition test_world (dd daily : float) (faults : list Fault) : TestWorld :=
  mkTW 0 true true ["BTC/USDT"] (mkRisk dd daily) faults 0 0.

(** The double's bot once constructed, and a run of [initialize] then
    [start] on it. *)
Definition fresh (close : bool) (w : TestWorld) : St (C := test_double) :=
  mkSt (init_bot (test_config close) true 0) w [].

(** The environment moves the world under the bot. *)
Definition in_world {C : Collaborators} (w : World) (s : St) : St :=
  mkSt (bot s) w (trace s).

Definition started (close : bool) (w : TestWorld) : St (C := test_double) :=
  snd (start (snd (initialize (fresh close w)))).

(** ** Concrete runs *)

Definition day (n : Z) : datetime := n * us_per_day.

(** The bot running normally, with the clock at noon of day 0. *)
Definition calm_world : TestWorld := tw_set_now (day 0 + 43200000000) (test_world 0.05 0.01 []).

(** A drawdown of 21% with close-on-pause set: the bot before and after the
    risk monitor cycle that sees it. *)
Definition breach_example : St (C := test_double) :=
  started true (test_world 0.21 0.06 []).

Definition paused_example : St (C := test_double) :=
  snd (risk_monitor_cycle breach_example).

(** A drawdown of 16% and a daily ratio of 6%. *)
Definition warning_example : St (C := test_double) :=
  started true (test_world 0.16 0.06 []).

(** The same drawdown and daily ratio when the liquidation fails. *)
Definition liquidation_fails : St (C := test_double) :=
  started true (test_world 0.21 0.06 [FailCloseAll]).

(** The disk is full when the bot shuts down. *)
Definition full_disk : St (C := test_double) :=
  in_world (test_world 0 0 [FailWrite]) (started false calm_world).

(** A hundred errors are on record when one more task fails. *)
Definition crowded : St (C := test_double) :=
  let s := started false calm_world in
  mkSt (set_errors (replicate 100 "Scanner: timeout") (bot s)) (world s) (trace s).

(** The network is down: feed and exchange are both disconnected and the
    feed's connect raises. *)
Definition network_down : St (C := test_double) :=
  in_world (mkTW (day 0) false false [] (mkRisk 0 0) [FailFeedConnect] 0 0)
    (started false calm_world).

(** Health checks on day 0, then twice on day 1. *)
Definition first_check : St (C := test_double) :=
  snd (health_check_cycle (started false calm_world)).

Definition next_day (faults : list Fault) : TestWorld :=
  mkTW (day 1 + 60000000) true true [] (mkRisk 0 0) faults 0 0.

Definition two_checks_next_day (faults : list Fault) : St (C := test_double) :=
  snd (health_check_cycle (snd (health_check_cycle (in_world (next_day faults) first_check)))).

(** An order book update that the market data manager rejects, 250 ms
    late. *)
Definition orderbook_rejected : St (C := test_double) :=
  in_world (test_world 0 0 [FailOrderbook]) (started false calm_world).

Definition late_orderbook : MarketUpdate unit := mkUpdate "BTC/USDT" ORDERBOOK tt 250.

(** * The loops as a whole *)

Section Pacing.

Context {C : Collaborators}.

Notation "'let*' x ':=' c 'in' k" := (bind c (fun x => k))
  (at level 10, x name, c at level 100, k at level 200) : bot_scope.
Notation "c1 >> c2" := (bind c1 (fun _ => c2))
  (at level 60, right associativity) : bot_scope.
Local Open Scope bot_scope.

(** The pause at the end of a cycle that went through: the argument of the
    [asyncio.sleep] that closes each loop's [try] block. *)
Definition regular_interval (l : Loop) (b : Bot) : Z :=
  match l with
  | Scanner => scan_interval (config b)
  | Strategy => strategy_interval (config b)
  | RiskMonitor => 30
  | Performance => 300
  | HealthCheck => 60
  end.

(** The pause after a cycle that raised: the [asyncio.sleep] of each loop's
    [except] block. *)
Definition backoff (l : Loop) : Z :=
  match l with
  | Scanner => 60
  | Strategy => 10
  | RiskMonitor => 60
  | Performance => 300
  | HealthCheck => 60
  end.

(** The line each loop's [except] block logs. *)
Definition cycle_error (l : Loop) (e : string) : Msg :=
  match l with
  | Scanner => MsgScannerError e
  | Strategy => MsgStrategyError e
  | RiskMonitor => MsgRiskMonitorError e
  | Performance => MsgPerformanceError e
  | HealthCheck => MsgHealthError e
  end.

Definition is_cycle_error (e : Event) : bool :=
  match e with
  | Log LError (MsgScannerError _ | MsgStrategyError _ | MsgRiskMonitorError _
               | MsgPerformanceError _ | MsgHealthError _) => true
  | _ => false
  end.

(** What paces a loop: its sleeps and the error lines of its cycles. *)
Definition pacing (e : Event) : bool :=
  match e with
  | Sleep _ => true
  | _ => is_cycle_error e
  end.

(** The [try] block of each loop's cycle. *)
Definition cycle_body (l : Loop) : M unit :=
  match l with
  | Scanner =>
      log LDebug MsgScanning >>
      call CScanner UpdateWatchlist a_unit update_watchlist >>
      call CMarketData UpdateAll a_unit update_all >>
      let* b := get in
      sleep (scan_interval (config b))
  | Strategy =>
      call CPairManager UpdateMarketData a_unit update_market_data >>
      let* signals := call CPairManager CheckSignals (fun _ => AOpaque) check_signals in
      (match signals with
       | [] => ret tt
       | _ =>
           log LInfo (MsgSignals (length signals)) >>
           call CPairManager ExecuteSignals a_unit (execute_signals signals)
       end) >>
      let* ps := call CPairManager Positions (fun _ => AOpaque)
                   (fun w => (Ok (positions w), w)) in
      modify (set_open_positions (Z.of_nat (length ps))) >>
      (let* t := now_ in modify (set_last_update t)) >>
      let* b := get in
      sleep (strategy_interval (config b))
  | RiskMonitor =>
      let* b := get in
      let* capital := match initial_balance (config b) with
                      | Some c => ret c
                      | None => raise "'initial_balance'"
                      end in
      let* risk_metrics := call CRisk GetRiskMetrics ARisk (get_risk_metrics capital) in
      drawdown_check risk_metrics >>
      daily_loss_check risk_metrics >>
      trailing_stops >>
      sleep 30
  | Performance =>
      let* perf := call CPairManager GetPerformanceSummary (fun _ => AOpaque)
                     get_performance_summary in
      modify (set_total_trades (ps_total_trades perf)) >>
      modify (set_total_pnl (ps_total_pnl perf)) >>
      let* daily := _calculate_daily_pnl in
      modify (set_daily_pnl daily) >>
      when (0 <? ps_total_trades perf) (log LInfo (MsgPerformance perf daily)) >>
      let* b := get in
      when (save_state (config b)) _save_state >>
      sleep 300
  | HealthCheck =>
      reconnect_check >>
      trim_errors >>
      _check_daily_reset >>
      sleep 60
  end.

(** The [except] block of each loop's cycle. *)
Definition cycle_handler (l : Loop) (e : string) : M unit :=
  log LError (cycle_error l e) >> sleep (backoff l).

(** [await asyncio.gather] over the tasks, given the way each task ends, in
    the order in which they end: it returns once all of them have returned,
    and raises the first exception a task ends with, the [CancelledError]
    of a cancelled task included. *)
Fixpoint gather (outcomes : list (Ending unit)) : Awaited unit :=
  match outcomes with
  | [] => uncancelled (ret tt)
  | Ended (Ok _) :: rest => gather rest
  | Ended (Raise e) :: _ => uncancelled (raise e)
  | CancelledError :: _ => fun s => (CancelledError, s)
  end.

(** The end of [_main_loop]: the [try] around [gather]. [except Exception]
    does not catch a cancellation; [finally] logs in every case. *)
Definition _main_loop_join (outcomes : list (Ending unit)) : Awaited unit :=
  fun s =>
    let '(r, s1) :=
      match gather outcomes s with
      | (Ended (Ok a), s') => (Ended (Ok a), s')
      | (Ended (Raise e), s') =>
          uncancelled
            (log LError (MsgMainLoopError e) >>
             modify (set_state ERROR)) s'
      | (CancelledError, s') => (CancelledError, s')
      end in
    (r, snd (log LInfo MsgMainLoopDone s1)).

(** A task that returned. *)
Definition returned (o : Ending unit) : Prop := o = Ended (Ok tt).

(** What a loop may do to the lifecycle state: leave it, or pause. *)
Definition kept_or_paused (s s' : St) : Prop :=
  state (status (bot s')) = state (status (bot s)) \/
  state (status (bot s')) = PAUSED.

(** What a loop may do to the errors list: leave it, or trim it. *)
Definition kept_or_trimmed (s s' : St) : Prop :=
  errors (status (bot s')) `suffix_of` errors (status (bot s)).

(** The collaborator attributes, all six at once. *)
Definition components (b : Bot) : list bool :=
  [exchange b; websocket_feed b; watchlist_scanner b; risk_manager b;
   market_data b; pair_manager b].

(** The line the task supervisor logs for a task that raised. *)
Definition is_task_error (e : Event) : bool :=
  match e with
  | Log LError (MsgTaskError _ _) => true
  | _ => false
  end.

Definition is_raise {A} (r : Res A) : bool :=
  match r with
  | Raise _ => true
  | Ok _ => false
  end.

End Pacing.

(** * Start-up, seen from outside *)

Section StartUp.

Context {C : Collaborators}.

(** The order in which [initialize] builds the collaborators. *)
Definition construction_rank (c : Component) : nat :=
  match c with
  | CExchange => 0
  | CFeed => 1
  | CRisk => 2
  | CMarketData => 3
  | CScanner => 4
  | CPairManager => 5
  end.

(** The symbols whose subscription the feed accepted, in order. *)
Definition subscribed (tr : list Event) : list string :=
  omap (fun e => match e with
                 | Call (FeedSubscribe sym) (Ok _) => Some sym
                 | _ => None
                 end) tr.

Definition is_init_error (e : Event) : bool :=
  match e with
  | Log LError (MsgInitError _) => true
  | _ => false
  end.

(** A [connect] that answered [False]. *)
Definition exchange_refused (e : Event) : bool :=
  match e with
  | Call ExchangeConnect (Ok (ABool false)) => true
  | _ => false
  end.

Definition feed_refused (e : Event) : bool :=
  match e with
  | Call FeedConnect (Ok (ABool false)) => true
  | _ => false
  end.

Definition is_constructor (m : Method) : bool :=
  match m with
  | ExchangeNew | FeedNew | RiskNew | MarketDataNew | ScannerNew | PairManagerNew => true
  | _ => false
  end.

(** A call of a method in [p] that returned. *)
Definition succeeded (p : Method -> bool) (e : Event) : bool :=
  is_call p e && negb (raised any_method e).

(** A step of [initialize] that failed, with the message of its exception:
    a call that raised, or a [connect] that answered [False]. *)
Definition failure_of (e : Event) : option string :=
  match e with
  | Call _ (Raise msg) => Some msg
  | Call ExchangeConnect (Ok (ABool false)) => Some "Échec de connexion à l'exchange"
  | Call FeedConnect (Ok (ABool false)) => Some "Échec de connexion WebSocket"
  | _ => None
  end.

(** The first failed step of a trace, with the events that came after it. *)
Fixpoint first_failure (tr : list Event) : option (string * list Event) :=
  match tr with
  | [] => None
  | e :: tr' =>
      match failure_of e with
      | Some msg => Some (msg, tr')
      | None => first_failure tr'
      end
  end.

End StartUp.

(** * The cycles, seen from outside *)

Section Cycles.

Context {C : Collaborators}.

Definition is_execute (m : Method) : bool :=
  match m with ExecuteSignals => true | _ => false end.

Definition is_signals_log (e : Event) : bool :=
  match e with
  | Log LInfo (MsgSignals _) => true
  | _ => false
  end.

Definition is_high_drawdown_warning (e : Event) : bool :=
  match e with
  | Log LWarning (MsgHighDrawdown _) => true
  | _ => false
  end.

Definition is_critical_drawdown (e : Event) : bool :=
  match e with
  | Log LError MsgCriticalDrawdown => true
  | _ => false
  end.

Definition is_pause_warning (e : Event) : bool :=
  match e with
  | Log LWarning MsgTradingPaused => true
  | _ => false
  end.

(** What the trailing-stop pass does for one position: the body of the
    [for] in the risk monitor. *)
Definition trailing_stop_for (sym : string) : M unit :=
  bind (call CFeed (FeedGetTicker sym) (fun _ => AOpaque) (feed_get_ticker sym))
    (fun ticker =>
       match ticker with
       | None | Some [] => ret tt
       | Some t =>
           bind (match ticker_get "last" t with
                 | Some p => ret p
                 | None => raise "'last'"
                 end)
             (fun last =>
                bind (call CRisk (UpdateTrailingStop sym) (fun _ => AOpaque)
                        (update_trailing_stop sym last))
                  (fun new_stop =>
                     match new_stop with
                     | Some stop =>
                         when (float_truthy stop)
                           (bind (call CPairManager (SetStopLoss sym) a_unit
                                    (fun w => (Ok tt, set_stop_loss sym stop w)))
                              (fun _ => log LDebug (MsgTrailingStop sym stop)))
                     | None => ret tt
                     end))
       end).

(** The symbols whose ticker was asked of the feed, in order. *)
Definition tickers_asked (tr : list Event) : list string :=
  omap (fun e => match e with
                 | Call (FeedGetTicker sym) _ => Some sym
                 | _ => None
                 end) tr.

(** The symbols whose trailing stop was asked of the risk manager. *)
Definition stops_asked (tr : list Event) : list string :=
  omap (fun e => match e with
                 | Call (UpdateTrailingStop sym) _ => Some sym
                 | _ => None
                 end) tr.

(** The symbols whose stop-loss was overwritten. *)
Definition stops_set (tr : list Event) : list string :=
  omap (fun e => match e with
                 | Call (SetStopLoss sym) _ => Some sym
                 | _ => None
                 end) tr.

(** The stops reported in the log, with their symbols. *)
Definition stops_logged (tr : list Event) : list (string * float) :=
  omap (fun e => match e with
                 | Log LDebug (MsgTrailingStop sym stop) => Some (sym, stop)
                 | _ => None
                 end) tr.

End Cycles.

(** * Persistence and shutdown, seen from outside *)

Arguments snap_timestamp {D}.
Arguments snap_total_trades {D}.
Arguments snap_open_positions {D}.
Arguments snap_total_pnl {D}.
Arguments snap_daily_pnl {D}.
Arguments snap_positions {D}.

Section Teardown.

Context {C : Collaborators}.

Definition is_write (m : Method) : bool :=
  match m with WriteStateFile _ => true | _ => false end.

Definition is_mkdir (m : Method) : bool :=
  match m with Mkdir => true | _ => false end.

Definition is_get_positions (m : Method) : bool :=
  match m with GetPositions => true | _ => false end.

Definition is_state_saved (e : Event) : bool :=
  match e with
  | Log LDebug MsgStateSaved => true
  | _ => false
  end.

Definition is_disconnect (m : Method) : bool :=
  match m with FeedDisconnect => true | _ => false end.

Definition is_close (m : Method) : bool :=
  match m with ExchangeClose => true | _ => false end.

Definition is_performance_log (e : Event) : bool :=
  match e with
  | Log LInfo (MsgPerformance _ _) => true
  | _ => false
  end.

Definition is_now (e : Event) : bool :=
  match e with
  | Now _ => true
  | _ => false
  end.

(** The share of a pair's result that counts for the day when its last
    trade is less than a day before [now]. *)
Definition daily_share (now : datetime) (acc : float) (entry : string * PerfEntry) : float :=
  match last_trade (snd entry) with
  | Some t => if now - t <? us_per_day then (acc + pnl (snd entry) * 0.1)%float else acc
  | None => acc
  end.

Definition has_last_trade (entry : string * PerfEntry) : bool :=
  match last_trade (snd entry) with
  | Some _ => true
  | None => false
  end.

Definition is_trades {P} (update : MarketUpdate P) : bool :=
  match data_type update with
  | TRADES => true
  | _ => false
  end.

(** The update counter, as [metrics.get('ws_updates', 0)] reads it. *)
Definition ws_updates (b : Bot) : Z :=
  default 0 (metrics (status b) !! "ws_updates").

(** The bot after [k] more updates were counted. *)
Definition counted (k : nat) (b : Bot) : Bot :=
  match k with
  | O => b
  | S _ => set_metrics (<["ws_updates" := ws_updates b + Z.of_nat k]>
                          (metrics (status b))) b
  end.

End Teardown.

(** * The status report *)

(** The dict [get_status] returns. The feed metrics and the performance
    summary are [None] where the dict holds [{}]; the uptime is the
    difference of two datetimes, in microseconds. *)
Record StatusReport := mkReport {
  rep_state : string;
  rep_uptime : Z;
  rep_start_time : datetime;
  rep_last_update : datetime;
  rep_paper_trading : bool;
  rep_total_trades : Z;
  rep_open_positions : Z;
  rep_total_pnl : float;
  rep_daily_pnl : float;
  rep_performance : option PerfSummary;
  rep_websocket : option FeedMetrics;
  rep_errors : list string;
  rep_exchange : string;
  rep_pairs : nat;
  rep_strategy : string;
}.

Section Status.

Context {C : Collaborators}.

(** The two things only [get_status] reads: the [strategies] dict of the
    pair manager, by its keys, and the [name] entry of the [strategy]
    section of the configuration, [None] when a key is missing. *)
Variable strategies : World -> list string.
Variable strategy_name : option string.

Notation "'let*' x ':=' c 'in' k" := (bind c (fun x => k))
  (at level 10, x name, c at level 100, k at level 200) : bot_scope.
Local Open Scope bot_scope.

(** Reading an attribute of a collaborator that is there. *)
Definition attribute {A} (f : World -> A) : M A :=
  fun s => (Ok (f (world s)), s).

Definition get_status : M StatusReport :=
  let* now := now_ in
  let* b := get in
  let st := status b in
  let uptime := now - start_time st in
  let* ws_metrics :=
    if websocket_feed b
    then let* m := call CFeed FeedGetMetrics AFeedMetrics feed_get_metrics in
         ret (Some m)
    else ret None in
  let* perf :=
    if pair_manager b
    then let* p := call CPairManager GetPerformanceSummary (fun _ => AOpaque)
                     get_performance_summary in
         ret (Some p)
    else ret None in
  let* pairs :=
    if pair_manager b
    then let* names := attribute strategies in ret (length names)
    else ret 0%nat in
  let* strategy :=
    match strategy_name with
    | Some name => ret name
    | None => raise "'strategy'"
    end in
  ret (mkReport (state_value (state st)) uptime (start_time st) (last_update st)
         (paper_trading b) (total_trades st) (open_positions st) (total_pnl st)
         (daily_pnl st) perf ws_metrics
         (match errors st with [] => [] | _ => slice_last 10 (errors st) end)
         (exchange_name (config b)) pairs strategy).

Definition is_summary (m : Method) : bool :=
  match m with GetPerformanceSummary => true | _ => false end.

Definition is_any_log (e : Event) : bool :=
  match e with Log _ _ => true | _ => false end.

End Status.

(** * Loading the configuration *)

(** A configuration as [json.load] builds it: a tree of values, with dicts
    keyed by strings. *)
#[warnings="-register-all"] Inductive Json :=
  | JNull
  | JBool (b : bool)
  | JInt (n : Z)
  | JFloat (x : float)
  | JStr (s : string)
  | JList (l : list Json)
  | JDict (d : gmap string Json).

(** [type(v).__name__] *)
Definition type_name (v : Json) : string :=
  match v with
  | JNull => "NoneType"
  | JBool _ => "bool"
  | JInt _ => "int"
  | JFloat _ => "float"
  | JStr _ => "str"
  | JList _ => "list"
  | JDict _ => "dict"
  end.

(** The truth value of a Python value, as [not] and [if] take it. *)
Definition truthy (v : Json) : bool :=
  match v with
  | JNull => false
  | JBool b => b
  | JInt n => negb (n =? 0)
  | JFloat x => float_truthy x
  | JStr s => negb (String.eqb s "")
  | JList l => negb (Nat.eqb (length l) 0)
  | JDict d => negb (Nat.eqb (size d) 0)
  end.

(** [obj[key]] with a string key: only a dict can be subscripted by it; a
    missing key raises [KeyError], whose [str] is the key in quotes. *)
Definition getitem (key : string) (obj : Json) : Res Json :=
  match obj with
  | JDict d =>
      match d !! key with
      | Some v => Ok v
      | None => Raise ("'" +:+ key +:+ "'")
      end
  | JList _ => Raise "list indices must be integers or slices, not str"
  | JStr _ => Raise "string indices must be integers, not 'str'"
  | _ => Raise ("'" +:+ type_name obj +:+ "' object is not subscriptable")
  end.

(** [obj.get(key)]: [None] for a missing key; only a dict has the method. *)
Definition dict_get (key : string) (obj : Json) : Res (option Json) :=
  match obj with
  | JDict d => Ok (d !! key)
  | _ => Raise ("'" +:+ type_name obj +:+ "' object has no attribute 'get'")
  end.

(** [obj[key] = v] *)
Definition setitem (key : string) (v : Json) (obj : Json) : Res Json :=
  match obj with
  | JDict d => Ok (JDict (<[key := v]> d))
  | JList _ => Raise "list indices must be integers or slices, not str"
  | _ => Raise ("'" +:+ type_name obj +:+ "' object does not support item assignment")
  end.

Definition res_bind {A B} (r : Res A) (k : A -> Res B) : Res B :=
  match r with
  | Ok a => k a
  | Raise e => Raise e
  end.

(** What [_load_and_validate_config] takes from outside the class:
    [config.settings] and the process environment. The validator is handed
    the configuration object itself, so it answers with its verdict and
    with the object as it has left it. *)
Class Settings := {
  load_config : string -> Res Json;
  getenv : string -> option string;
  validate_config : Json -> Res bool * Json;
}.

Section Configuration.

Context {S : Settings}.

(** [if not config['exchange'].get(key): config['exchange'][key] =
    os.getenv(env_var, '')]. The assignment goes through the exchange
    section that [config] holds, so it is seen in [config]. *)
Definition env_default (key env_var : string) (config : Json) : Res Json :=
  res_bind (getitem "exchange" config) (fun section =>
  res_bind (dict_get key section) (fun value =>
  if negb (from_option truthy false value) then
    res_bind (getitem "exchange" config) (fun section =>
    res_bind (setitem key (JStr (default "" (getenv env_var))) section) (fun section' =>
    setitem "exchange" section' config))
  else Ok config)).

Definition config_error (e : string) : string :=
  "Erreur lors du chargement de la config: " +:+ e.

(** The outcome, and the lines logged. *)
Definition _load_and_validate_config (config_path : string)
    : Res Json * list (Level * string) :=
  let body :=
    res_bind (load_config config_path) (fun config =>
    res_bind (env_default "api_key" "BINANCE_API_KEY" config) (fun config =>
    res_bind (env_default "api_secret" "BINANCE_API_SECRET" config) (fun config =>
    let '(valid, config) := validate_config config in
    res_bind valid (fun valid =>
    if valid : bool then Ok config else Raise "Configuration invalide")))) in
  match body with
  | Ok config => (Ok config, [])
  | Raise e => (Raise e, [(LError, config_error e)])
  end.

(** A key of the exchange section of a configuration. *)
Definition credential (key : string) (config : Json) : option Json :=
  match config with
  | JDict d =>
      match d !! "exchange" with
      | Some (JDict section) => section !! key
      | _ => None
      end
  | _ => None
  end.

(** A top-level section of a configuration. *)
Definition section_of (key : string) (config : Json) : option Json :=
  match config with
  | JDict d => d !! key
  | _ => None
  end.

(** A credential once the environment was consulted: the value of the file
    when it is there and true, the environment variable otherwise, and the
    empty string when that is not set either. *)
Definition resolved (file_value : option Json) (env_var : string) : Json :=
  match file_value with
  | Some v => if truthy v then v else JStr (default "" (getenv env_var))
  | None => JStr (default "" (getenv env_var))
  end.

End Configuration.

(** * Properties *)

Section Properties.

Context {C : Collaborators}.

Notation "c1 >> c2" := (bind c1 (fun _ => c2))
  (at level 60, right associativity) : bot_scope.

(** ** Lists and traces *)

Lemma slice_last_length {A} (n : nat) (l : list A) :
  length (slice_last n l) = Nat.min n (length l).
Proof. unfold slice_last. rewrite length_drop. lia. Qed.

Lemma slice_last_suffix {A} (n : nat) (l : list A) :
  l = take (length l - n) l ++ slice_last n l.
Proof. unfold slice_last. symmetry. apply take_drop. Qed.

Lemma count_app (p : Event -> bool) (tr1 tr2 : list Event) :
  count p (tr1 ++ tr2) = (count p tr1 + count p tr2)%nat.
Proof. unfold count. rewrite List.filter_app, length_app. reflexivity. Qed.

Lemma count_snoc (p : Event -> bool) (tr : list Event) (e : Event) :
  count p (tr ++ [e]) = (count p tr + if p e then 1 else 0)%nat.
Proof. rewrite count_app. unfold count. simpl. destruct (p e); reflexivity. Qed.

(** ** What a computation leaves alone

    Most steps of a cycle touch only part of the state. [keeps R c] says
    that [c] moves every state to an [R]-related one; for a preorder [R] it
    is inherited by every way of composing computations. Three preorders are
    used: a projection of the bot is unchanged ([same]), the events selected
    by [p] are unchanged ([silent]), and the trace only grows ([grows]). *)

Definition keeps (R : relation St) {A} (c : M A) : Prop :=
  forall s, R s (snd (c s)).

Definition same {T} (f : Bot -> T) : relation St :=
  fun s s' => f (bot s') = f (bot s).

Definition silent (p : Event -> bool) : relation St :=
  fun s s' => List.filter p (trace s') = List.filter p (trace s).

Definition grows : relation St :=
  fun s s' => trace s `prefix_of` trace s'.

#[local] Instance same_preorder {T} (f : Bot -> T) : PreOrder (same f).
Proof. split; unfold same; [intros s | intros s1 s2 s3]; congruence. Qed.

#[local] Instance silent_preorder (p : Event -> bool) : PreOrder (silent p).
Proof. split; unfold silent; [intros s | intros s1 s2 s3]; congruence. Qed.

#[local] Instance grows_preorder : PreOrder grows.
Proof.
  split; unfold grows; [intros s | intros s1 s2 s3 H1 H2]; [done | by etrans].
Qed.

Section Keeps.

Context (R : relation St) `{!PreOrder R}.

Lemma keeps_ret {A} (a : A) : keeps R (ret a).
Proof. intros s. reflexivity. Qed.

Lemma keeps_raise {A} (e : string) : keeps R (raise (A := A) e).
Proof. intros s. reflexivity. Qed.

Lemma keeps_get : keeps R get.
Proof. intros s. reflexivity. Qed.

Lemma keeps_bind {A B} (c : M A) (k : A -> M B) :
  keeps R c -> (forall a, keeps R (k a)) -> keeps R (bind c k).
Proof.
  intros Hc Hk s. unfold bind. specialize (Hc s).
  destruct (c s) as [[a|e] s1]; cbn in *; [|done].
  etrans; [exact Hc | apply Hk].
Qed.

Lemma keeps_try_except {A} (body : M A) (handler : string -> M A) :
  keeps R body -> (forall e, keeps R (handler e)) -> keeps R (try_except body handler).
Proof.
  intros Hc Hk s. unfold try_except. specialize (Hc s).
  destruct (body s) as [[a|e] s1]; cbn in *; [done|].
  etrans; [exact Hc | apply Hk].
Qed.

Lemma keeps_try_finally {A} (body : M A) (fin : M unit) :
  keeps R body -> keeps R fin -> keeps R (try_finally body fin).
Proof.
  intros Hc Hk s. unfold try_finally. specialize (Hc s).
  destruct (body s) as [r s1]; cbn in *. specialize (Hk s1).
  destruct (fin s1) as [[[]|e] s2]; cbn in *; by etrans.
Qed.

Lemma keeps_when (c : bool) (body : M unit) :
  keeps R body -> keeps R (when c body).
Proof. intros H. destruct c; [exact H | apply keeps_ret]. Qed.

Lemma keeps_for_each {A} (l : list A) (body : A -> M unit) :
  (forall a, keeps R (body a)) -> keeps R (for_each l body).
Proof.
  intros H. induction l as [|a l IH]; cbn; [apply keeps_ret|].
  apply keeps_bind; auto.
Qed.

End Keeps.

(** The primitive steps, for each of the three preorders. *)

Lemma same_emit {T} (f : Bot -> T) (e : Event) : keeps (same f) (emit e).
Proof. intros s. reflexivity. Qed.

Lemma same_sys_call {T A} (f : Bot -> T) m ans (op : World -> Res A * World) :
  keeps (same f) (sys_call m ans op).
Proof. intros s. unfold sys_call. destruct (op (world s)). reflexivity. Qed.

Lemma same_call {T A} (f : Bot -> T) c m ans (op : World -> Res A * World) :
  keeps (same f) (call c m ans op).
Proof.
  intros s. unfold call. destruct (has c (bot s)); [apply same_sys_call | reflexivity].
Qed.

Lemma same_now {T} (f : Bot -> T) : keeps (same f) now_.
Proof. intros s. unfold now_. destruct (clock (world s)). reflexivity. Qed.

Lemma same_modify {T} (f : Bot -> T) (g : Bot -> Bot) :
  (forall b, f (g b) = f b) -> keeps (same f) (modify g).
Proof. intros H s. apply H. Qed.

Lemma silent_emit (p : Event -> bool) (e : Event) :
  p e = false -> keeps (silent p) (emit e).
Proof.
  intros H s. unfold silent, emit. cbn.
  rewrite List.filter_app. cbn. rewrite H. apply app_nil_r.
Qed.

Lemma silent_sys_call {A} (p : Event -> bool) m ans (op : World -> Res A * World) :
  (forall r, p (Call m r) = false) -> keeps (silent p) (sys_call m ans op).
Proof.
  intros H s. unfold silent, sys_call. destruct (op (world s)) as [r w]. cbn.
  rewrite List.filter_app. cbn. rewrite H. apply app_nil_r.
Qed.

Lemma silent_call {A} (p : Event -> bool) c m ans (op : World -> Res A * World) :
  (forall r, p (Call m r) = false) -> keeps (silent p) (call c m ans op).
Proof.
  intros H s. unfold call.
  destruct (has c (bot s)); [by apply silent_sys_call | reflexivity].
Qed.

Lemma silent_now (p : Event -> bool) :
  (forall t, p (Now t) = false) -> keeps (silent p) now_.
Proof.
  intros H s. unfold silent, now_. destruct (clock (world s)) as [t w]. cbn.
  rewrite List.filter_app. cbn. rewrite H. apply app_nil_r.
Qed.

Lemma silent_modify (p : Event -> bool) (g : Bot -> Bot) : keeps (silent p) (modify g).
Proof. intros s. unfold silent. reflexivity. Qed.

Lemma grows_emit (e : Event) : keeps grows (emit e).
Proof. intros s. by apply prefix_app_r. Qed.

Lemma grows_sys_call {A} m ans (op : World -> Res A * World) :
  keeps grows (sys_call m ans op).
Proof.
  intros s. unfold sys_call. destruct (op (world s)). by apply prefix_app_r.
Qed.

Lemma grows_call {A} c m ans (op : World -> Res A * World) :
  keeps grows (call c m ans op).
Proof.
  intros s. unfold call. destruct (has c (bot s)); [apply grows_sys_call | reflexivity].
Qed.

Lemma grows_now : keeps grows now_.
Proof. intros s. unfold now_. destruct (clock (world s)). by apply prefix_app_r. Qed.

Lemma grows_modify (g : Bot -> Bot) : keeps grows (modify g).
Proof. intros s. unfold grows. reflexivity. Qed.

(** Decompose a computation down to its primitive steps. *)
Ltac keeps_step :=
  lazymatch goal with
  | |- keeps _ (bind _ _) => apply keeps_bind; [tc_solve | | intros ?]
  | |- keeps _ (try_except _ _) => apply keeps_try_except; [tc_solve | | intros ?]
  | |- keeps _ (try_finally _ _) => apply keeps_try_finally; [tc_solve | | ]
  | |- keeps _ (when _ _) => apply keeps_when; [tc_solve | ]
  | |- keeps _ (for_each _ _) => apply keeps_for_each; [tc_solve | intros ?]
  | |- keeps _ (ret _) => apply keeps_ret; tc_solve
  | |- keeps _ (raise _) => apply keeps_raise; tc_solve
  | |- keeps _ get => apply keeps_get; tc_solve
  | |- keeps _ (call_ _ _ _ _) => unfold call_
  | |- keeps _ (log _ _) => unfold log
  | |- keeps _ (sleep _) => unfold sleep
  | |- keeps (same _) (emit _) => apply same_emit
  | |- keeps (same _) (sys_call _ _ _) => apply same_sys_call
  | |- keeps (same _) (call _ _ _ _) => apply same_call
  | |- keeps (same _) now_ => apply same_now
  | |- keeps (same _) (modify _) => apply same_modify; intros ?; try reflexivity
  | |- keeps (silent _) (emit _) => apply silent_emit; try reflexivity
  | |- keeps (silent _) (sys_call _ _ _) =>
      apply silent_sys_call; intros [?|?]; try reflexivity
  | |- keeps (silent _) (call _ _ _ _) =>
      apply silent_call; intros [?|?]; try reflexivity
  | |- keeps (silent _) now_ => apply silent_now; intros ?; try reflexivity
  | |- keeps (silent _) (modify _) => apply silent_modify
  | |- keeps grows (emit _) => apply grows_emit
  | |- keeps grows (sys_call _ _ _) => apply grows_sys_call
  | |- keeps grows (call _ _ _ _) => apply grows_call
  | |- keeps grows now_ => apply grows_now
  | |- keeps grows (modify _) => apply grows_modify
  | |- keeps _ (match ?x with _ => _ end) => destruct x
  | |- keeps _ (if ?x then _ else _) => destruct x
  end.

Ltac keeps_all := repeat keeps_step.

(** ** Running a computation path by path

    [wp c Q s] holds when [Q] holds of the outcome and final state of [c]
    run from [s]; the rules below push it through a computation, one case
    per way a collaborator call can end. *)

Definition wp {A} (c : M A) (Q : Res A -> St -> Prop) (s : St) : Prop :=
  Q (fst (c s)) (snd (c s)).

Lemma wp_ret {A} (a : A) Q s : Q (Ok a) s -> wp (ret a) Q s.
Proof. exact (fun H => H). Qed.

Lemma wp_raise {A} (e : string) (Q : Res A -> St -> Prop) s :
  Q (Raise e) s -> wp (raise e) Q s.
Proof. exact (fun H => H). Qed.

Lemma wp_get Q s : Q (Ok (bot s)) s -> wp get Q s.
Proof. exact (fun H => H). Qed.

Lemma wp_modify g Q s :
  Q (Ok tt) (mkSt (g (bot s)) (world s) (trace s)) -> wp (modify g) Q s.
Proof. exact (fun H => H). Qed.

Lemma wp_emit e Q s :
  Q (Ok tt) (mkSt (bot s) (world s) (trace s ++ [e])) -> wp (emit e) Q s.
Proof. exact (fun H => H). Qed.

Lemma wp_now Q s :
  (forall t w', clock (world s) = (t, w') ->
     Q (Ok t) (mkSt (bot s) w' (trace s ++ [Now t]))) ->
  wp now_ Q s.
Proof.
  intros H. unfold wp, now_. destruct (clock (world s)) as [t w'] eqn:E.
  by apply H.
Qed.

Lemma wp_sys_call {A} m ans (op : World -> Res A * World) Q s :
  (forall r w', op (world s) = (r, w') ->
     Q r (mkSt (bot s) w' (trace s ++ [Call m (answered ans r)]))) ->
  wp (sys_call m ans op) Q s.
Proof.
  intros H. unfold wp, sys_call. destruct (op (world s)) as [r w'] eqn:E.
  by apply H.
Qed.

Lemma wp_call {A} c m ans (op : World -> Res A * World) Q s :
  (has c (bot s) = false ->
     Q (Raise (missing_attribute m)) s) ->
  (has c (bot s) = true -> forall r w', op (world s) = (r, w') ->
     Q r (mkSt (bot s) w' (trace s ++ [Call m (answered ans r)]))) ->
  wp (call c m ans op) Q s.
Proof.
  intros Hn Hy. unfold wp, call. destruct (has c (bot s)) eqn:E.
  - apply wp_sys_call. by apply Hy.
  - by apply Hn.
Qed.

Lemma wp_bind {A B} (c : M A) (k : A -> M B) Q s :
  wp c (fun r s1 => match r with
                    | Ok a => wp (k a) Q s1
                    | Raise e => Q (Raise e) s1
                    end) s ->
  wp (bind c k) Q s.
Proof. unfold wp, bind. by destruct (c s) as [[a|e] s1]. Qed.

Lemma wp_try_except {A} (body : M A) handler Q s :
  wp body (fun r s1 => match r with
                       | Ok a => Q (Ok a) s1
                       | Raise e => wp (handler e) Q s1
                       end) s ->
  wp (try_except body handler) Q s.
Proof. unfold wp, try_except. by destruct (body s) as [[a|e] s1]. Qed.

Lemma wp_try_finally {A} (body : M A) fin Q s :
  wp body (fun r s1 => wp fin (fun r' s2 => match r' with
                                            | Ok _ => Q r s2
                                            | Raise e => Q (Raise e) s2
                                            end) s1) s ->
  wp (try_finally body fin) Q s.
Proof.
  unfold wp, try_finally. destruct (body s) as [r s1]. cbn.
  by destruct (fin s1) as [[[]|e] s2].
Qed.

(** A step that is only known to keep a relation. *)
Lemma wp_keeps {A} (R : relation St) (c : M A) Q s :
  keeps R c -> (forall r s', R s s' -> Q r s') -> wp c Q s.
Proof. intros Hc H. apply H, Hc. Qed.

Ltac wp_step :=
  cbv beta;
  lazymatch goal with
  | |- wp (bind _ _) _ _ => apply wp_bind
  | |- wp (try_except _ _) _ _ => apply wp_try_except
  | |- wp (try_finally _ _) _ _ => apply wp_try_finally
  | |- wp (ret _) _ _ => apply wp_ret
  | |- wp (raise _) _ _ => apply wp_raise
  | |- wp get _ _ => apply wp_get
  | |- wp (modify _) _ _ => apply wp_modify
  | |- wp (emit _) _ _ => apply wp_emit
  | |- wp (log _ _) _ _ => apply wp_emit
  | |- wp (sleep _) _ _ => apply wp_emit
  | |- wp now_ _ _ => apply wp_now; intros ? ? ?
  | |- wp (sys_call _ _ _) _ _ => apply wp_sys_call; intros [?|?] ? ?
  | |- wp (call _ _ _ _) _ _ => apply wp_call; [intros ? | intros ? [?|?] ? ?]
  | |- wp (call_ _ _ _ _) _ _ => unfold call_
  | |- wp (when ?c _) _ _ => unfold when at 1; destruct c eqn:?
  | |- wp (match ?x with _ => _ end) _ _ => destruct x eqn:?
  | |- wp (if ?x then _ else _) _ _ => destruct x eqn:?
  end;
  cbn [bot world trace fst snd answered has] in *.

Ltac wp_run := repeat wp_step.

(** Turn a goal about the outcome and final state of [c s] into a [wp]. *)
Ltac wp_start c s :=
  pattern (fst (c s)), (snd (c s));
  lazymatch goal with
  | |- ?Q _ _ => change (wp c Q s)
  end;
  cbv beta.

(** ** Events of a run *)

Lemma events_of_grows {A} (c : M A) (s : St) :
  keeps grows c -> trace (snd (c s)) = trace s ++ events_of c s.
Proof.
  intros H. destruct (H s) as [d Hd]. unfold events_of. rewrite Hd.
  by rewrite drop_app_length.
Qed.

Lemma events_of_eq {A} (c : M A) (s : St) (d : list Event) :
  trace (snd (c s)) = trace s ++ d -> events_of c s = d.
Proof. intros H. unfold events_of. rewrite H. apply drop_app_length. Qed.

Lemma filter_sub (p q : Event -> bool) (l : list Event) :
  (forall e, p e = true -> q e = true) ->
  List.filter p (List.filter q l) = List.filter p l.
Proof.
  intros H. induction l as [|e l IH]; cbn; [done|].
  destruct (q e) eqn:Hq, (p e) eqn:Hp; cbn; rewrite ?Hp, ?IH; try done.
  apply H in Hp. congruence.
Qed.

Lemma count_filter_sub (p q : Event -> bool) (l : list Event) :
  (forall e, p e = true -> q e = true) ->
  count p (List.filter q l) = count p l.
Proof. intros H. unfold count. by rewrite filter_sub. Qed.

(** Two runs from [s] whose [q]-events agree add the same [q]-events. *)
Lemma silent_events {A B} (q : Event -> bool) (c : M A) (c' : M B) (s : St) :
  keeps grows c -> keeps grows c' ->
  List.filter q (trace (snd (c s))) = List.filter q (trace (snd (c' s))) ->
  List.filter q (events_of c s) = List.filter q (events_of c' s).
Proof.
  intros Hc Hc'. rewrite (events_of_grows c s Hc), (events_of_grows c' s Hc').
  rewrite !List.filter_app. apply app_inv_head.
Qed.

Lemma silent_count_zero {A} (p : Event -> bool) (c : M A) (s : St) :
  keeps grows c -> keeps (silent p) c -> count p (events_of c s) = 0%nat.
Proof.
  intros Hg Hs. specialize (Hs s). unfold silent in Hs.
  rewrite (events_of_grows c s Hg), List.filter_app in Hs.
  rewrite <- (app_nil_r (List.filter p (trace s))) in Hs at 2.
  apply app_inv_head in Hs. unfold count. by rewrite Hs.
Qed.

(** ** Persistence *)

Lemma id_bot_same (s s' : St) : same id s s' -> bot s' = bot s.
Proof. exact (fun H => H). Qed.

Lemma save_state_keeps_bot : keeps (same id) _save_state.
Proof. unfold _save_state. cbv zeta. keeps_all. Qed.

Lemma save_state_grows : keeps grows _save_state.
Proof. unfold _save_state. cbv zeta. keeps_all. Qed.

Lemma save_state_returns (s : St) : fst (_save_state s) = Ok tt.
Proof.
  wp_start _save_state s.
  unfold _save_state. cbv zeta. wp_run; reflexivity.
Qed.

(** ** Reconnection *)

(** Close a path of [wp_run]: name the events added and evaluate the
    property on them. *)
Ltac bool_cases :=
  repeat match goal with
  | H : negb ?b = _ |- _ => destruct b eqn:?; cbn in H; try discriminate H; clear H
  end.

Ltac use_bools :=
  repeat match goal with
  | H : ?b = true |- context [?b] => rewrite H
  | H : ?b = false |- context [?b] => rewrite H
  end.

Ltac path_events :=
  first
    [ exists []; split; [symmetry; apply app_nil_r |]
    | eexists; split; [rewrite <- ?app_assoc; cbn [app]; reflexivity |] ].

Lemma reconnect_check_grows : keeps grows reconnect_check.
Proof. unfold reconnect_check. keeps_all. Qed.

Lemma reconnect_check_paths (s : St) :
  exists d, trace (snd (reconnect_check s)) = trace s ++ d /\
    count (is_call is_feed_connect) d = count (feed_reported false) d /\
    count (is_call is_exchange_connect) d = count (exchange_reported false) d /\
    (count (feed_reported true) d + count (feed_reported false) d <= 1)%nat /\
    (count (exchange_reported true) d + count (exchange_reported false) d <= 1)%nat /\
    (count (is_call is_feed_metrics) d <= 1)%nat /\
    (count (is_call is_exchange_connected) d <= 1)%nat /\
    (websocket_feed (bot s) = true -> count (is_call is_feed_metrics) d = 1%nat) /\
    (websocket_feed (bot s) = true -> exchange (bot s) = true ->
       count (raised feed_side) d = 0%nat ->
       count (is_call is_exchange_connected) d = 1%nat) /\
    (count (raised feed_side) d <> 0%nat ->
       count (is_call is_exchange_connected) d = 0%nat) /\
    count (is_call is_exchange_connected) d =
      (if websocket_feed (bot s) && exchange (bot s)
          && (count (raised feed_side) d =? 0)%nat
       then 1 else 0)%nat /\
    (websocket_feed (bot s) = false ->
       count (is_call is_feed_metrics) d = 0%nat /\
       count (is_call is_feed_connect) d = 0%nat /\
       count (is_call is_exchange_connected) d = 0%nat /\
       count (is_call is_exchange_connect) d = 0%nat) /\
    (exchange (bot s) = false ->
       count (is_call is_exchange_connected) d = 0%nat /\
       count (is_call is_exchange_connect) d = 0%nat).
Proof.
  wp_start reconnect_check s.
  unfold reconnect_check. wp_run; bool_cases; path_events.
  all: cbn; use_bools; cbn; repeat split; intros; try congruence; try lia.
  all: by rewrite andb_false_r.
Qed.

Lemma trim_errors_grows : keeps grows trim_errors.
Proof. unfold trim_errors. keeps_all. Qed.

Lemma check_daily_reset_grows : keeps grows _check_daily_reset.
Proof. unfold _check_daily_reset. keeps_all. Qed.

Lemma health_check_grows : keeps grows health_check_cycle.
Proof.
  unfold health_check_cycle. keeps_all;
    auto using reconnect_check_grows, trim_errors_grows, check_daily_reset_grows.
Qed.

(** After the liveness checks a cycle adds no further reconnect event. *)
Lemma health_check_rest_silent :
  keeps (silent reconnect_event) (trim_errors >> _check_daily_reset >> sleep 60)%bot.
Proof. unfold trim_errors, _check_daily_reset. keeps_all. Qed.

Lemma health_check_reconnect_events (s : St) :
  List.filter reconnect_event (events_of health_check_cycle s) =
  List.filter reconnect_event (events_of reconnect_check s).
Proof.
  apply silent_events; [apply health_check_grows | apply reconnect_check_grows |].
  unfold health_check_cycle, try_except.
  unfold bind at 1.
  destruct (reconnect_check s) as [[[]|e] s1]; cbn [fst snd].
  - pose proof (health_check_rest_silent s1) as H.
    destruct ((trim_errors >> _check_daily_reset >> sleep 60)%bot s1)
      as [[[]|e] s2]; cbn [fst snd] in *; [exact H|].
    rewrite <- H. cbn. rewrite !List.filter_app. cbn. by rewrite !app_nil_r.
  - cbn. rewrite !List.filter_app. cbn. by rewrite !app_nil_r.
Qed.

(** A selected event is a reconnect event: by cases on the event. *)
Ltac sub_reconnect :=
  let e := fresh "e" in
  intros e; destruct e as [? ?|[] [[]|?]|?|?|?]; cbn; try done;
  repeat match goal with
  | |- context [Bool.eqb ?b _] => destruct b
  end; cbn; done.

Lemma count_health_reconnect (p : Event -> bool) (s : St) :
  (forall e, p e = true -> reconnect_event e = true) ->
  count p (events_of health_check_cycle s) = count p (events_of reconnect_check s).
Proof.
  intros H.
  rewrite <- (count_filter_sub p reconnect_event (events_of health_check_cycle s) H).
  rewrite <- (count_filter_sub p reconnect_event (events_of reconnect_check s) H).
  by rewrite health_check_reconnect_events.
Qed.

(** ** The daily reset *)

Lemma check_daily_reset_paths (s : St) :
  exists d, trace (snd (_check_daily_reset s)) = trace s ++ d /\
    let now := fst (clock (world s)) in
    let last' := _last_daily_reset (bot (snd (_check_daily_reset s))) in
    match _last_daily_reset (bot s) with
    | None => List.filter reset_event d = [Now now] /\ last' = Some now
    | Some l =>
        if (date l <? date now) && risk_manager (bot s) then
          exists r, List.filter reset_event d = [Now now; Call ResetDailyCounters r] /\
                    last' = match r with Ok _ => Some now | Raise _ => Some l end
        else List.filter reset_event d = [Now now] /\ last' = Some l
    end.
Proof.
  cbv zeta. wp_start _check_daily_reset s.
  unfold _check_daily_reset. wp_run; path_events.
  all: repeat match goal with
       | H : clock _ = _ |- _ => rewrite H; clear H
       | H : _last_daily_reset _ = _ |- _ => rewrite H
       end; cbn [fst]; use_bools; cbn; eauto.
Qed.

Lemma reconnect_check_keeps_bot {T} (f : Bot -> T) : keeps (same f) reconnect_check.
Proof. unfold reconnect_check. keeps_all. Qed.

Lemma reconnect_check_no_reset :
  keeps (silent reset_event) reconnect_check /\
  keeps (same _last_daily_reset) reconnect_check.
Proof. split; unfold reconnect_check; keeps_all. Qed.

(** What one cycle does to the clock-and-reset events and to the date of
    the last reset: nothing when the cycle fails before the daily check, a
    clock reading when no reset is due, a clock reading and a reset when the
    date has moved on. *)
Inductive reset_outcome (last last' : option datetime) : list Event -> Prop :=
  | reset_skipped : last' = last -> reset_outcome last last' []
  | reset_stamped t :
      last = None -> last' = Some t -> reset_outcome last last' [Now t]
  | reset_not_due t l :
      last = Some l -> last' = last -> reset_outcome last last' [Now t]
  | reset_called t l r :
      last = Some l -> date l < date t ->
      last' = match r with Ok _ => Some t | Raise _ => Some l end ->
      reset_outcome last last' [Now t; Call ResetDailyCounters r].

Lemma health_check_reset (s : St) :
  exists x,
    List.filter reset_event (trace (snd (health_check_cycle s))) =
      List.filter reset_event (trace s) ++ x /\
    reset_outcome (_last_daily_reset (bot s))
      (_last_daily_reset (bot (snd (health_check_cycle s)))) x.
Proof.
  destruct reconnect_check_no_reset as [Hsil Hlast].
  wp_start health_check_cycle s. unfold health_check_cycle.
  apply wp_try_except, wp_bind.
  apply (wp_keeps (fun s s' => silent reset_event s s' /\ same _last_daily_reset s s')).
  { intros s0. split; [apply Hsil | apply Hlast]. }
  unfold silent, same. intros [[]|e] s1 [Ht1 Hl1].
  2: { wp_run. exists []. rewrite !List.filter_app. cbn.
       rewrite !app_nil_r. split; [done | by constructor]. }
  apply wp_bind. unfold trim_errors. apply wp_modify.
  set (s2 := mkSt _ (world s1) (trace s1)).
  assert (Hl2 : _last_daily_reset (bot s2) = _last_daily_reset (bot s)).
  { subst s2. cbn [bot].
    destruct (100 <? length (errors (status (bot s1))))%nat; exact Hl1. }
  assert (Ht2 : List.filter reset_event (trace s2) = List.filter reset_event (trace s))
    by exact Ht1.
  clearbody s2. apply wp_bind. unfold wp at 1.
  destruct (check_daily_reset_paths s2) as (d & Hd & Hshape). cbv zeta in Hshape.
  rewrite Hl2 in Hshape.
  destruct (_check_daily_reset s2) as [[[]|e] s3]; cbn [fst snd] in *.
  all: wp_run; rewrite ?List.filter_app, Hd, List.filter_app, Ht2; cbn;
    rewrite ?app_nil_r.
  all: destruct (_last_daily_reset (bot s)) as [l|] eqn:El.
  all: try destruct ((date l <? date (fst (clock (world s2)))) && risk_manager (bot s2))
         eqn:Edue.
  all: repeat match goal with
       | H : exists _, _ |- _ => destruct H
       | H : _ /\ _ |- _ => destruct H
       end.
  all: eexists; split; [by f_equal|].
  all: match goal with
       | H : List.filter reset_event _ = _ |- _ => rewrite H
       end.
  all: try (eapply reset_called; eauto; apply andb_true_iff in Edue; lia).
  all: try (eapply reset_not_due; eauto; congruence).
  all: try (eapply reset_stamped; eauto).
Qed.

Lemma reset_dates_from_filter (today : option Z) (tr : list Event) :
  reset_dates_from today (List.filter reset_event tr) = reset_dates_from today tr.
Proof.
  revert today. induction tr as [|e tr IH]; intros today; [done|].
  destruct e as [? ?|[] ?|?|?|?]; cbn; rewrite ?IH; try done.
  all: destruct today; cbn; by rewrite ?IH.
Qed.

Lemma reset_dates_from_now (today : option Z) (tr x : list Event) (t : datetime) :
  reset_dates_from today (tr ++ Now t :: x) =
  reset_dates_from today tr ++ reset_dates_from (Some (date t)) x.
Proof.
  revert today. induction tr as [|e tr IH]; intros today; [done|].
  destruct e as [? ?|[] ?|?|?|?]; cbn; rewrite ?IH; try done.
  all: destruct today; cbn; by rewrite ?IH.
Qed.

Lemma reset_dates_from_le (today : option Z) (tr : list Event) :
  (length (reset_dates_from today tr) <= count (is_call is_reset) tr)%nat.
Proof.
  revert today. induction tr as [|e tr IH]; intros today; [done|].
  change (e :: tr) with ([e] ++ tr). rewrite count_app.
  destruct e as [? ?|[] ?|?|?|?]; cbn; try apply IH.
  destruct today; cbn; [apply le_n_S, IH | etrans; [apply IH | lia]].
Qed.

Lemma count_is_reset_sub (e : Event) : is_call is_reset e = true -> reset_event e = true.
Proof. destruct e as [? ?|[] ?|?|?|?]; cbn; done. Qed.

Lemma raised_reset_sub (e : Event) : raised is_reset e = true -> reset_event e = true.
Proof. destruct e as [? ?|[] [|]|?|?|?]; cbn; done. Qed.

(** Every reset in the trace is dated, the dates are increasing, and none
    is later than the date of the last reset the bot remembers. *)
Definition reset_invariant (s : St) : Prop :=
  length (reset_dates (trace s)) = count (is_call is_reset) (trace s) /\
  StronglySorted Z.lt (reset_dates (trace s)) /\
  Forall (fun d => exists l, _last_daily_reset (bot s) = Some l /\ d <= date l)
    (reset_dates (trace s)).

Lemma health_check_keeps_invariant (s : St) :
  count (raised is_reset) (trace (snd (health_check_cycle s))) = 0%nat ->
  (count (raised is_reset) (trace s) = 0%nat -> reset_invariant s) ->
  reset_invariant (snd (health_check_cycle s)).
Proof.
  intros Hno IH. destruct (health_check_reset s) as (x & Hx & Hout).
  unfold reset_invariant, reset_dates in *.
  rewrite <- (count_filter_sub _ _ _ raised_reset_sub), Hx, count_app in Hno.
  rewrite (count_filter_sub _ _ _ raised_reset_sub) in Hno.
  destruct IH as (Hlen & Hsorted & Hbound); [lia|].
  rewrite <- reset_dates_from_filter, Hx.
  rewrite <- (count_filter_sub _ _ _ count_is_reset_sub), Hx, count_app.
  rewrite <- (count_filter_sub _ _ _ count_is_reset_sub) in Hlen.
  rewrite <- (reset_dates_from_filter None (trace s)) in Hlen, Hsorted, Hbound.
  set (f := List.filter reset_event (trace s)) in *.
  destruct Hout as [Hl | t Hn Hl | t l Hs Hl | t l r Hs Hlt Hl].
  - rewrite app_nil_r, Hl. cbn. split; [lia | done].
  - rewrite reset_dates_from_now, app_nil_r. cbn. split; [lia|]. split; [done|].
    rewrite Hn in Hbound. destruct Hbound as [|d ds (l & Hd & _) _]; [done | done].
  - rewrite reset_dates_from_now, app_nil_r, Hl. cbn. split; [lia | done].
  - rewrite reset_dates_from_now. cbn.
    destruct r as [a|e]; [|cbn in Hno; lia].
    rewrite Hl, length_app. cbn. split; [lia|]. split.
    + apply StronglySorted_app_2; [|done|repeat constructor].
      intros d1 d2 H1 H2. apply list_elem_of_singleton in H2 as ->.
      rewrite Forall_forall in Hbound. destruct (Hbound _ H1) as (l' & Hl' & Hle).
      rewrite Hs in Hl'. injection Hl' as <-. lia.
    + apply Forall_app. split.
      * eapply Forall_impl; [exact Hbound|]. cbn. intros d (l' & Hl' & Hle).
        rewrite Hs in Hl'. injection Hl' as <-. exists t. split; [done | lia].
      * repeat constructor. exists t. split; [done | lia].
Qed.

Lemma health_run_invariant (s0 s : St) :
  health_run s0 s ->
  count (is_call is_reset) (trace s0) = 0%nat ->
  count (raised is_reset) (trace s) = 0%nat ->
  reset_invariant s.
Proof.
  intros Hrun H0. induction Hrun as [s | s0 s Hrun IH | s0 s b w Hrun IH Hb].
  - intros _. unfold reset_invariant, reset_dates.
    pose proof (reset_dates_from_le None (trace s)) as Hle.
    destruct (reset_dates_from None (trace s)); [|cbn in Hle; lia].
    rewrite H0. repeat split; constructor.
  - intros Hno. apply health_check_keeps_invariant; auto.
  - intros Hno. unfold reset_invariant in *. cbn in *. rewrite Hb. auto.
Qed.

Lemma increasing_NoDup (l : list Z) : StronglySorted Z.lt l -> NoDup l.
Proof.
  induction 1 as [|x l Hl IH Hx]; constructor; [|done].
  intros Hin. rewrite Forall_forall in Hx. specialize (Hx _ Hin). lia.
Qed.

(** How often one cycle invokes the reset: once when the liveness checks
    complete, the risk engine is there and the clock shows a later date
    than the last reset, and not at all otherwise. *)
Lemma health_check_reset_count (s : St) :
  let now := fst (clock (world (snd (reconnect_check s)))) in
  count (is_call is_reset) (events_of health_check_cycle s) =
    match fst (reconnect_check s), _last_daily_reset (bot s) with
    | Ok _, Some l =>
        if (date l <? date now) && risk_manager (bot s) then 1%nat else 0%nat
    | _, _ => 0%nat
    end.
Proof.
  cbv zeta.
  pose proof (proj1 reconnect_check_no_reset s) as Hsil.
  pose proof (proj2 reconnect_check_no_reset s) as Hlast.
  pose proof (reconnect_check_keeps_bot risk_manager s) as Hrisk.
  destruct (reconnect_check_grows s) as [d1 Hd1].
  unfold silent, same in *.
  assert (Hc1 : count (is_call is_reset) d1 = 0%nat).
  { rewrite <- (count_filter_sub _ _ _ count_is_reset_sub).
    rewrite Hd1, List.filter_app in Hsil.
    rewrite <- (app_nil_r (List.filter reset_event (trace s))) in Hsil at 2.
    apply app_inv_head in Hsil. by rewrite Hsil. }
  unfold events_of. wp_start health_check_cycle s. unfold health_check_cycle.
  apply wp_try_except, wp_bind. unfold wp at 1.
  destruct (reconnect_check s) as [[[]|e] s1]; cbn [fst snd] in *.
  2: { wp_run. rewrite Hd1, <- !app_assoc, drop_app_length, count_app, Hc1.
       cbn. by destruct (_last_daily_reset (bot s)). }
  apply wp_bind. unfold trim_errors. apply wp_modify, wp_bind.
  unfold _check_daily_reset. wp_run.
  all: rewrite ?Hd1, <- ?app_assoc, drop_app_length, count_app, Hc1; cbn [app].
  all: repeat match goal with
       | H : _last_daily_reset (if ?c then _ else _) = _ |- _ => destruct c; cbn in H
       | H : risk_manager (if ?c then _ else _) = _ |- _ => destruct c; cbn in H
       | H : clock _ = _ |- _ => rewrite H; clear H
       end.
  all: unfold set_errors, set_status in *;
    cbn [risk_manager _last_daily_reset] in *.
  all: rewrite <- ?Hlast, <- ?Hrisk; cbn [fst].
  all: repeat match goal with
       | H : _last_daily_reset _ = _ |- _ => rewrite H; clear H
       | H : risk_manager _ = _ |- _ => rewrite H; clear H
       end.
  all: use_bools; cbn; done.
Qed.

(** ** Cycles never raise *)

Lemma try_except_returns (body : M unit) (handler : string -> M unit) (s : St) :
  (forall e s1, fst (handler e s1) = Ok tt) ->
  fst (try_except body handler s) = Ok tt.
Proof.
  intros H. unfold try_except. destruct (body s) as [[[]|e] s1]; cbn; auto.
Qed.

Lemma cycle_returns (l : Loop) (s : St) : fst (cycle l s) = Ok tt.
Proof. destruct l; apply try_except_returns; reflexivity. Qed.

Lemma keeps_daily_pnl_sum (R : relation St) `{!PreOrder R} perf acc :
  keeps R now_ -> keeps R (daily_pnl_sum perf acc).
Proof.
  intros Hnow. revert acc. induction perf as [|[sym entry] perf IH]; intros acc; cbn.
  - by apply keeps_ret.
  - destruct (last_trade entry); [|apply IH].
    apply keeps_bind; [done | done |]. intros t.
    destruct (t - d <? us_per_day); apply IH.
Qed.

(** The setters, unfolded down to the record. *)
Ltac setters :=
  unfold set_state, set_start_time, set_last_update, set_total_trades,
    set_open_positions, set_total_pnl, set_daily_pnl, set_errors, set_metrics,
    set_main_task, set_shutdown_event, set_last_daily_reset, append_error,
    set_status in *;
  cbn [config paper_trading status exchange websocket_feed watchlist_scanner
       risk_manager market_data pair_manager _main_task _shutdown_event
       _last_daily_reset state start_time last_update total_trades
       open_positions total_pnl daily_pnl errors metrics] in *.

Lemma performance_tracker_keeps {T} (f : Bot -> T) :
  (forall n b, f (set_total_trades n b) = f b) ->
  (forall x b, f (set_total_pnl x b) = f b) ->
  (forall x b, f (set_daily_pnl x b) = f b) ->
  keeps (same f) performance_tracker_cycle.
Proof.
  intros H1 H2 H3. unfold performance_tracker_cycle, _calculate_daily_pnl.
  keeps_all; auto using save_state_keeps_bot.
  - apply keeps_daily_pnl_sum; [tc_solve | apply same_now].
  - intros s1. pose proof (save_state_keeps_bot s1) as H. unfold same in *.
    cbn in H. by rewrite H.
Qed.

(** ** The errors list *)

(** C4 (as amended). Recording an error only appends: the supervisor's
    wrapper adds one entry [name: message] for a failed task and the list
    grows by one, whatever its length. The trim is a step of the health
    check: after it the list has at most 100 entries; when it had more
    than 100, exactly the 50 most recent ones are left, in their order;
    otherwise it is unchanged. A health-check cycle whose liveness checks
    complete therefore ends with at most 100 entries. *)
Theorem errors_trimmed_by_health_check :
  (forall e b, errors (status (append_error e b)) = errors (status b) ++ [e]) /\
  (forall name e (coro : Awaited unit) s,
     fst (coro s) = Ended (Raise e) ->
     errors (status (bot (snd (monitored name coro s)))) =
     errors (status (bot (snd (coro s)))) ++ [name +:+ ": " +:+ e]) /\
  (forall s,
     let old := errors (status (bot s)) in
     let new := errors (status (bot (snd (trim_errors s)))) in
     (length new <= 100)%nat /\
     ((100 < length old)%nat ->
        new = slice_last 50 old /\ length new = 50%nat /\
        exists older, old = older ++ new) /\
     ((length old <= 100)%nat -> new = old)) /\
  (forall s,
     fst (reconnect_check s) = Ok tt ->
     (length (errors (status (bot (snd (health_check_cycle s))))) <= 100)%nat).
Proof.
  split; [done|]. split; [|split].
  - intros name e coro s H. unfold monitored.
    destruct (coro s) as [r s1]. cbn in H. subst r. reflexivity.
  - intros s. cbv zeta. unfold trim_errors, modify. cbn [snd bot].
    destruct (100 <? length (errors (status (bot s))))%nat eqn:E.
    + apply Nat.ltb_lt in E. setters. rewrite slice_last_length.
      split; [lia|]. split; [|intros; lia].
      intros _. split; [done|]. split; [lia|].
      eexists. apply slice_last_suffix.
    + apply Nat.ltb_ge in E. split; [done|]. split; [intros; lia | done].
  - intros s Hok.
    pose proof (reconnect_check_keeps_bot (fun b => errors (status b)) s) as H1.
    unfold same in H1. wp_start health_check_cycle s. unfold health_check_cycle.
    apply wp_try_except, wp_bind. unfold wp at 1.
    destruct (reconnect_check s) as [[[]|e] s1]; cbn [fst snd] in *; [|done].
    apply wp_bind. unfold trim_errors. apply wp_modify.
    set (s2 := mkSt _ (world s1) (trace s1)).
    assert (H2 : (length (errors (status (bot s2))) <= 100)%nat).
    { subst s2. cbn [bot].
      destruct (100 <? length (errors (status (bot s1))))%nat eqn:E.
      - setters. rewrite slice_last_length. lia.
      - by apply Nat.ltb_ge in E. }
    clearbody s2. apply wp_bind.
    apply (wp_keeps (same (fun b => errors (status b)))).
    { unfold _check_daily_reset. keeps_all. }
    unfold same. intros [[]|e] s3 H3; wp_run; by rewrite H3.
Qed.

(** ** The market update handler *)

Lemma cache_update_frame (update : MarketUpdate Payload) :
  keeps grows (cache_update update) /\
  keeps (same id) (cache_update update) /\
  keeps (silent is_high_latency_warning) (cache_update update) /\
  keeps (silent is_update_error) (cache_update update).
Proof. repeat split; unfold cache_update; keeps_all. Qed.

(** C9 (as amended). The handler never raises. When the cache update for
    the update's data type returns, the handler adds exactly 1 to the
    [ws_updates] counter (starting from 0 when the key is missing), leaves
    the other counters alone and logs one high-latency warning if the
    latency is above 200 ms and none otherwise; this is so for every data
    type and every latency. When the cache update raises, the exception is
    logged as an error and nothing else happens: no warning, and the counter
    stays as it was. A trades update has no cache update and is always
    counted. *)
Theorem market_update_counted (update : MarketUpdate Payload) (s : St) :
  let s' := snd (_handle_market_update update s) in
  let d := events_of (_handle_market_update update) s in
  let m := metrics (status (bot s)) in
  fst (_handle_market_update update s) = Ok tt /\
  match fst (cache_update update s) with
  | Ok _ =>
      metrics (status (bot s')) =
        <["ws_updates" := default 0 (m !! "ws_updates") + 1]> m /\
      metrics (status (bot s')) !! "ws_updates" =
        Some (default 0 (m !! "ws_updates") + 1) /\
      count is_high_latency_warning d =
        (if float_gt (latency_ms update) 200 then 1 else 0)%nat /\
      count is_update_error d = 0%nat
  | Raise e =>
      metrics (status (bot s')) = m /\
      count is_high_latency_warning d = 0%nat /\
      count is_update_error d = 1%nat
  end /\
  (data_type update = TRADES -> fst (cache_update update s) = Ok tt).
Proof.
  cbv zeta. destruct (cache_update_frame update) as (Hg & Hb & Hw & He).
  pose proof (events_of_grows _ s Hg) as Hd.
  pose proof (silent_count_zero _ _ s Hg Hw) as Hcw.
  pose proof (silent_count_zero _ _ s Hg He) as Hce.
  specialize (Hb s). unfold same, id in Hb.
  set (d1 := events_of (cache_update update) s) in *. clearbody d1.
  split; [apply try_except_returns; reflexivity|].
  split; [|intros Ht; unfold cache_update; by rewrite Ht].
  unfold events_of.
  wp_start (_handle_market_update update) s. unfold _handle_market_update.
  apply wp_try_except, wp_bind. unfold wp at 1.
  destruct (cache_update update s) as [[[]|e] s1]; cbn [fst snd] in *.
  - wp_run; setters; rewrite Hb, Hd, <- ?app_assoc, drop_app_length, ?count_app,
      Hcw, Hce; cbn; rewrite ?lookup_insert_eq; done.
  - wp_run. rewrite Hb, Hd, <- ?app_assoc, drop_app_length, ?count_app, Hcw, Hce.
    done.
Qed.

(** ** Shutdown *)

Lemma save_state_paths (s : St) :
  exists d, trace (snd (_save_state s)) = trace s ++ d /\
    (shutdown_phases d = [] \/ shutdown_phases d = [PhSnapshot]) /\
    snapshot_states d =
      (fun _ => state_value (state (status (bot s)))) <$> shutdown_phases d /\
    count (raised is_teardown) d = 0%nat /\
    (pair_manager (bot s) = true -> count (raised any_method) d = 0%nat ->
       shutdown_phases d = [PhSnapshot]).
Proof.
  wp_start _save_state s. unfold _save_state. cbv zeta.
  wp_run; bool_cases; path_events.
  all: cbn; repeat split; auto; intros; try congruence; try lia.
Qed.

Lemma shutdown_paths (s : St) :
  exists d, trace (snd (shutdown s)) = trace s ++ d /\
    fst (shutdown s) = Ok tt /\
    _shutdown_event (bot (snd (shutdown s))) = true /\
    (state (status (bot (snd (shutdown s)))) = STOPPED \/
     state (status (bot (snd (shutdown s)))) = ERROR) /\
    (state (status (bot (snd (shutdown s)))) = ERROR <->
     count (raised is_teardown) d <> 0%nat) /\
    shutdown_phases d `sublist_of` [PhSnapshot; PhDisconnect; PhClose] /\
    Forall (eq "stopping") (snapshot_states d) /\
    (pair_manager (bot s) = true -> websocket_feed (bot s) = true ->
     exchange (bot s) = true -> count (raised any_method) d = 0%nat ->
     shutdown_phases d = [PhSnapshot; PhDisconnect; PhClose] /\
     state (status (bot (snd (shutdown s)))) = STOPPED).
Proof.
  wp_start shutdown s. unfold shutdown.
  apply wp_try_finally, wp_try_except, wp_bind, wp_emit, wp_bind, wp_modify, wp_bind.
  cbn [bot world trace]. unfold wp at 1.
  set (sa := mkSt (set_state STOPPING (bot s)) (world s) (trace s ++ [Log LInfo MsgStopping])).
  destruct (save_state_paths sa) as (d1 & Hd1 & Hph & Hsn & Hr1 & Hfull).
  pose proof (save_state_returns sa) as Hok.
  pose proof (save_state_keeps_bot sa) as Hb. unfold same, id in Hb.
  destruct (_save_state sa) as [r1 s1]. cbn [fst snd] in *. subst r1.
  assert (Hcomp : pair_manager (bot s1) = pair_manager (bot s) /\
                  websocket_feed (bot s1) = websocket_feed (bot s) /\
                  exchange (bot s1) = exchange (bot s)) by (by rewrite Hb).
  destruct Hcomp as (Hpm & Hws & Hex). cbn [bot] in Hfull. setters.
  wp_run.
  all: eexists; split;
    [rewrite Hd1; subst sa; cbn [trace]; rewrite <- ?app_assoc; reflexivity|].
  all: unfold shutdown_phases, snapshot_states in *.
  all: rewrite ?count_app, ?omap_app, Hr1, Hsn; setters; cbn.
  all: try congruence.
  all: assert (Hfull' : pair_manager (bot s) = true ->
                        count (raised any_method) d1 = 0%nat ->
                        omap shutdown_phase d1 = [PhSnapshot]) by exact Hfull;
    clear Hfull.
  all: repeat split; intros; try done; try lia; try congruence.
  all: try (rewrite Hfull' by (done || lia); done).
  all: try (by left); try (by right).
  all: destruct Hph as [Hph|Hph]; rewrite Hph; cbn.
  all: solve [ repeat first [apply sublist_skip | apply sublist_cons | apply sublist_nil]
             | repeat constructor ].
Qed.

(** *** Interleaved invocations *)

#[local] Instance ShutdownPc_eq_dec : EqDecision ShutdownPc.
Proof. solve_decision. Defined.

Lemma shutdown_step_spec (pc : ShutdownPc) (s : St) :
  let pc' := fst (shutdown_step pc s) in
  let s' := snd (shutdown_step pc s) in
  (pc = Finished -> pc' = Finished /\ s' = s) /\
  (pc <> Finished -> (steps_left pc' < steps_left pc)%nat) /\
  (pc <> Finished -> pc' = Finished ->
     _shutdown_event (bot s') = true /\ stopped_or_error s') /\
  (_shutdown_event (bot s) = true -> _shutdown_event (bot s') = true).
Proof.
  cbv zeta. unfold stopped_or_error.
  destruct (shutdown_step pc s) as [pc' s'] eqn:E. cbn [fst snd].
  destruct pc; cbn [shutdown_step] in E.
  - unfold bind, log, emit, modify in E. cbn [fst snd bot world trace] in E.
    match type of E with context [_save_state ?x] => set (sa := x) in E end.
    pose proof (save_state_returns sa) as Hok.
    pose proof (save_state_keeps_bot sa) as Hb. unfold same, id in Hb.
    destruct (_save_state sa) as [r1 s1]. cbn [fst snd] in *. subst r1.
    unfold shutdown_from_feed, shutdown_from_exchange in E.
    subst sa. cbn [bot] in Hb.
    destruct (websocket_feed (bot s1)), (exchange (bot s1));
      injection E as <- <-; cbn; rewrite ?Hb; setters; repeat split; intros;
      try done; try lia; auto.
  - unfold sys_call in E. destruct (feed_disconnect (world s)) as [[[]|e] w1].
    + unfold shutdown_from_exchange in E. cbn [bot] in E.
      destruct (exchange (bot s)); injection E as <- <-; cbn; setters;
        repeat split; intros; try done; try lia; auto.
    + injection E as <- <-. cbn. setters. repeat split; intros; try done; try lia; auto.
  - unfold sys_call in E. destruct (exchange_close (world s)) as [[[]|e] w1];
      injection E as <- <-; cbn; setters; repeat split; intros;
      try done; try lia; auto.
  - injection E as <- <-. repeat split; intros; try done.
Qed.

(** Whatever the interleaving: once an invocation has finished the
    completion event is set, and once all have finished the bot is STOPPED
    or in ERROR. *)
Definition shutdown_invariant (c : Sys) : Prop :=
  (Exists (eq Finished) (sys_pcs c) -> _shutdown_event (bot (sys_st c)) = true) /\
  (sys_pcs c <> [] -> Forall (eq Finished) (sys_pcs c) -> stopped_or_error (sys_st c)).

Lemma sched_step_invariant (i : nat) (c : Sys) :
  shutdown_invariant c -> shutdown_invariant (sched_step i c).
Proof.
  intros [Hev Hall]. unfold sched_step.
  destruct (sys_pcs c !! i) as [pc|] eqn:Hi; [|by split].
  destruct (shutdown_step_spec pc (sys_st c)) as (Hfin & _ & Hdone & Hmono).
  destruct (shutdown_step pc (sys_st c)) as [pc' s'] eqn:Hstep. cbn [fst snd] in *.
  destruct (decide (pc = Finished)) as [->|Hpc].
  { destruct Hfin as [-> ->]; [done|]. rewrite list_insert_id by done.
    by split. }
  split; cbn [sys_pcs sys_st].
  - intros Hex. destruct (decide (pc' = Finished)) as [->|Hpc'].
    { by apply Hdone. }
    apply Hmono, Hev. apply Exists_exists in Hex as (x & Hx & <-).
    apply list_elem_of_lookup in Hx as [j Hj].
    destruct (decide (i = j)) as [->|Hij].
    + rewrite list_lookup_insert_eq in Hj by (by eapply lookup_lt_Some).
      congruence.
    + rewrite list_lookup_insert_ne in Hj by done.
      apply Exists_exists. exists Finished. split; [|done].
      apply list_elem_of_lookup. eauto.
  - intros _ Hfa. apply Hdone; [done|].
    rewrite Forall_forall in Hfa. symmetry. apply Hfa.
    apply list_elem_of_lookup. exists i.
    apply list_lookup_insert_eq. by eapply lookup_lt_Some.
Qed.

Lemma run_schedule_invariant (schedule : list nat) (c : Sys) :
  shutdown_invariant c -> shutdown_invariant (run_schedule schedule c).
Proof.
  revert c. induction schedule as [|i sch IH]; intros c Hc; [done|].
  cbn. apply IH, sched_step_invariant, Hc.
Qed.

Lemma shutdowns_invariant (n : nat) (s : St) : shutdown_invariant (shutdowns n s).
Proof.
  split; cbn.
  - intros Hex. apply Exists_exists in Hex as (x & Hx & <-).
    by apply elem_of_replicate_inv in Hx.
  - intros Hne Hfa. destruct n; [done|]. by inversion Hfa.
Qed.

(** An invocation resumed often enough has finished. *)
Lemma run_schedule_progress (schedule : list nat) (c : Sys) (i : nat) (pc : ShutdownPc) :
  sys_pcs c !! i = Some pc ->
  exists pc', sys_pcs (run_schedule schedule c) !! i = Some pc' /\
              (steps_left pc' <= steps_left pc - turns i schedule)%nat.
Proof.
  revert c pc. induction schedule as [|j sch IH]; intros c pc Hi.
  { exists pc. split; [done | cbn; lia]. }
  cbn [run_schedule foldl]. fold (run_schedule sch (sched_step j c)).
  assert (Hstep : exists pc1, sys_pcs (sched_step j c) !! i = Some pc1 /\
            (steps_left pc1 <= steps_left pc - if (i =? j)%nat then 1 else 0)%nat).
  { unfold sched_step. destruct (sys_pcs c !! j) as [pcj|] eqn:Hj.
    - destruct (shutdown_step_spec pcj (sys_st c)) as (Hfin & Hlt & _ & _).
      destruct (shutdown_step pcj (sys_st c)) as [pc' s']. cbn [fst snd sys_pcs] in *.
      destruct (Nat.eqb_spec i j) as [->|Hij].
      + rewrite list_lookup_insert_eq by (by eapply lookup_lt_Some).
        exists pc'. split; [done|]. assert (pcj = pc) as -> by congruence.
        destruct (decide (pc = Finished)) as [->|Hpc].
        * destruct Hfin as [-> _]; [done | cbn; lia].
        * specialize (Hlt Hpc). lia.
      + rewrite list_lookup_insert_ne by done. exists pc. split; [done | lia].
    - exists pc. split; [done|].
      destruct (Nat.eqb_spec i j) as [->|Hij]; [congruence | lia]. }
  destruct Hstep as (pc1 & H1 & Hle1).
  destruct (IH _ _ H1) as (pc' & H' & Hle').
  exists pc'. split; [done|].
  unfold turns in *. cbn [List.filter].
  destruct (i =? j)%nat; cbn [length]; lia.
Qed.

(** An invocation that runs alone is [shutdown]. *)
Lemma shutdown_alone (s : St) :
  run_schedule [0; 0; 0]%nat (shutdowns 1 s) = mkSys (snd (shutdown s)) [Finished].
Proof.
  unfold run_schedule, shutdowns, sched_step, shutdown, try_finally, try_except,
    shutdown_step, shutdown_from_feed, shutdown_from_exchange, shutdown_succeed,
    shutdown_fail.
  set (save := _save_state). clearbody save.
  unfold bind, log, emit, modify, get, when, call, sys_call, ret.
  cbn [foldl replicate sys_pcs sys_st fst snd bot world trace has].
  change ([AtEntry] !! 0%nat) with (Some AtEntry).
  match goal with |- context [save ?x] => destruct (save x) as [[[]|e] s1] end.
  2: reflexivity.
  destruct (websocket_feed (bot s1)) eqn:Hws, (exchange (bot s1)) eqn:Hex;
    cbn; rewrite ?Hws, ?Hex; cbn.
  all: repeat match goal with
       | |- context [feed_disconnect ?w] =>
           destruct (feed_disconnect w) as [[[]|?] ?]; cbn; rewrite ?Hex; cbn
       | |- context [exchange_close ?w] =>
           destruct (exchange_close w) as [[[]|?] ?]; cbn; rewrite ?Hex; cbn
       end.
  all: reflexivity.
Qed.

(** ** The risk monitor *)

(** A drawdown above the critical limit is above the warning limit. *)
Lemma critical_above_warning (dd : float) :
  float_gt dd 0.20 = true -> float_gt dd 0.15 = true.
Proof.
  unfold float_gt. rewrite !ltb_spec.
  set (a := Prim2SF 0.20). set (b := Prim2SF 0.15).
  vm_compute in a, b. subst a b.
  destruct (Prim2SF dd) as [sg|sg| |sg m e]; try destruct sg;
    cbn [SFltb SFcompare];
    try (intros H; discriminate H); try (intros _; reflexivity).
  destruct (Z.compare_spec (-55) e) as [<-|Hlt|Hgt];
    try (intros H; discriminate H); try (intros _; reflexivity).
  change (PosDef.Pos.compare_cont Eq ?p m) with (Pos.compare p m).
  destruct (Pos.compare_spec 7205759403792794 m) as [H|H|H];
    try (intros Hf; discriminate Hf).
  intros _. destruct (Pos.compare_spec 5404319552844595 m) as [H'|H'|H'];
    [subst m | reflexivity | pose proof (Pos.lt_trans _ _ _ H H') as H''].
  - vm_compute in H. discriminate H.
  - vm_compute in H''. discriminate H''.
Qed.

Lemma trailing_stops_frame :
  keeps grows trailing_stops /\
  keeps (same id) trailing_stops /\
  keeps (silent (is_call is_close_all)) trailing_stops /\
  keeps (silent (raised is_close_all)) trailing_stops /\
  keeps (silent is_daily_loss_warning) trailing_stops /\
  keeps (silent is_risk_monitor_error) trailing_stops.
Proof. repeat split; unfold trailing_stops; keeps_all. Qed.

Lemma close_all_for_sub (reason : string) (e : Event) :
  is_call (is_close_all_for reason) e = true -> is_call is_close_all e = true.
Proof. destruct e as [? ?|[] ?|?|?|?]; cbn; done. Qed.

Lemma count_close_all_for (reason : string) (d : list Event) :
  count (is_call is_close_all) d = 0%nat ->
  count (is_call (is_close_all_for reason)) d = 0%nat.
Proof.
  unfold count. intros H. apply length_zero_iff_nil in H.
  by rewrite <- (filter_sub _ _ _ (close_all_for_sub reason)), H.
Qed.

Lemma wp_trailing_stops (Q : Res unit -> St -> Prop) (s : St) :
  (forall r s' d,
     bot s' = bot s -> trace s' = trace s ++ d ->
     count (is_call is_close_all) d = 0%nat ->
     count (is_call (is_close_all_for "Protection drawdown")) d = 0%nat ->
     count (raised is_close_all) d = 0%nat ->
     count is_daily_loss_warning d = 0%nat ->
     count is_risk_monitor_error d = 0%nat ->
     Q r s') ->
  wp trailing_stops Q s.
Proof.
  intros H. destruct trailing_stops_frame as (Hg & Hb & H1 & H2 & H3 & H4).
  apply (H _ _ (events_of trailing_stops s)).
  - apply Hb.
  - by apply events_of_grows.
  - by apply silent_count_zero.
  - by apply count_close_all_for, silent_count_zero.
  - by apply silent_count_zero.
  - by apply silent_count_zero.
  - by apply silent_count_zero.
Qed.

(** Bring the facts of a path together: two results of the same call are
    the same result. *)
Ltac path_facts :=
  cbv beta in *;
  simplify_eq;
  repeat (match goal with
          | H1 : ?x = ?a, H2 : ?x = ?b |- _ =>
              tryif constr_eq H1 H2 then fail
              else (assert (a = b) by (rewrite <- H1; exact H2); clear H2)
          end;
          simplify_eq).

(** Replace the final state of a framed step by what is known of it. *)
Ltac framed :=
  repeat match goal with
  | H : trace ?s' = _ |- context [trace ?s'] => rewrite H
  | H : bot ?s' = _ |- context [bot ?s'] => rewrite H
  end.

Ltac risk_run :=
  repeat first
    [ wp_step
    | apply wp_trailing_stops; intros [[]|?] ? ? ? ? ? ? ? ? ?; cbv beta iota;
      cbn [bot world trace] in * ].

(** One cycle of the risk monitor that obtains its risk snapshot. *)
Lemma risk_cycle_paths (s : St) (capital : float) (rm : RiskMetrics) (w1 : World) :
  initial_balance (config (bot s)) = Some capital ->
  risk_manager (bot s) = true ->
  get_risk_metrics capital (world s) = (Ok rm, w1) ->
  let critical := float_gt (current_drawdown rm) 0.20 in
  let closing := critical && close_on_pause (config (bot s)) in
  exists d, trace (snd (risk_monitor_cycle s)) = trace s ++ d /\
    fst (risk_monitor_cycle s) = Ok tt /\
    bot (snd (risk_monitor_cycle s)) =
      (if critical then set_state PAUSED (bot s) else bot s) /\
    count (is_call is_close_all) d =
      (if closing && pair_manager (bot s) then 1 else 0)%nat /\
    count (is_call (is_close_all_for "Protection drawdown")) d =
      count (is_call is_close_all) d /\
    (count is_daily_loss_warning d <= 1)%nat /\
    ((closing = true -> pair_manager (bot s) = true /\
                        count (raised is_close_all) d = 0%nat) ->
     count is_daily_loss_warning d =
       (if float_gt (rm_daily_pnl rm) 0.05 then 1 else 0)%nat) /\
    (closing = true ->
     pair_manager (bot s) = false \/ count (raised is_close_all) d <> 0%nat ->
     count is_daily_loss_warning d = 0%nat).
Proof.
  intros Hbal Hrisk Hget. cbv zeta.
  wp_start risk_monitor_cycle s.
  unfold risk_monitor_cycle, drawdown_check, daily_loss_check, _pause_trading.
  risk_run; path_facts.
  all: setters; framed.
  all: match goal with
       | |- context [float_gt (current_drawdown ?r) 0.20] =>
           destruct (float_gt (current_drawdown r) 0.20) eqn:Hcrit;
           [pose proof (critical_above_warning _ Hcrit)|]
       end; try congruence.
  all: eexists; (split; [rewrite <- ?app_assoc; reflexivity|]).
  all: rewrite ?count_app; cbn; use_bools; cbn.
  all: repeat match goal with
       | H : count _ _ = 0%nat |- _ => rewrite H; clear H
       end; cbn.
  all: repeat split; intros; try done; try lia.
Qed.

(** ** [start] *)

(** C5. [start] acts only from STOPPED or ERROR, where it moves the bot to
    RUNNING and creates the main task; in every other state it returns at
    once, leaving the bot and the world as they were, having logged one
    warning and created no task. *)
Theorem start_only_from_stopped_or_error (s : St) :
  let s' := snd (start s) in
  fst (start s) = Ok tt /\
  match state (status (bot s)) with
  | STOPPED | ERROR =>
      state (status (bot s')) = RUNNING /\
      _main_task (bot s') = true /\
      trace s' = trace s ++ [Log LInfo MsgStarting;
                             Now (fst (clock (world s)));
                             CreateTask "main_loop"]
  | other =>
      bot s' = bot s /\
      world s' = world s /\
      trace s' = trace s ++ [Log LWarning (MsgCannotStart other)]
  end.
Proof.
  unfold start, bind, get, log, emit, modify, now_. cbn.
  destruct (state (status (bot s))) eqn:Hst; cbn; auto.
  all: destruct (clock (world s)) as [t w']; cbn.
  all: rewrite <- !app_assoc; auto.
Qed.

(** C7 (as amended). In a health-check cycle each collaborator is asked for
    its liveness at most once, the feed first. The exchange is asked exactly
    when the feed is there, no feed-side call raised and the exchange is
    there: a feed that is missing ends the cycle before any call, so that
    neither collaborator is asked or reconnected, and so does a feed-side
    call that raises, as far as the exchange goes. A collaborator's connect
    is invoked exactly as often as it reported disconnected, which is at
    most once: once when it reports disconnected, never when it reports
    connected or is not asked. *)
Theorem health_check_reconnects_once (s : St) :
  let d := events_of health_check_cycle s in
  (count (is_call is_feed_metrics) d <= 1)%nat /\
  (websocket_feed (bot s) = true -> count (is_call is_feed_metrics) d = 1%nat) /\
  (count (is_call is_exchange_connected) d <= 1)%nat /\
  (websocket_feed (bot s) = true -> exchange (bot s) = true ->
     count (raised feed_side) d = 0%nat ->
     count (is_call is_exchange_connected) d = 1%nat) /\
  (count (raised feed_side) d <> 0%nat ->
     count (is_call is_exchange_connected) d = 0%nat) /\
  count (is_call is_feed_connect) d = count (feed_reported false) d /\
  count (is_call is_exchange_connect) d = count (exchange_reported false) d /\
  (count (feed_reported true) d + count (feed_reported false) d <= 1)%nat /\
  (count (exchange_reported true) d + count (exchange_reported false) d <= 1)%nat /\
  count (is_call is_exchange_connected) d =
    (if websocket_feed (bot s) && exchange (bot s)
        && (count (raised feed_side) d =? 0)%nat
     then 1 else 0)%nat /\
  (websocket_feed (bot s) = false ->
     count (is_call is_feed_metrics) d = 0%nat /\
     count (is_call is_feed_connect) d = 0%nat /\
     count (is_call is_exchange_connected) d = 0%nat /\
     count (is_call is_exchange_connect) d = 0%nat) /\
  (exchange (bot s) = false ->
     count (is_call is_exchange_connected) d = 0%nat /\
     count (is_call is_exchange_connect) d = 0%nat).
Proof.
  cbv zeta.
  rewrite !count_health_reconnect by sub_reconnect.
  destruct (reconnect_check_paths s)
    as (d & Hd & H1 & H2 & H3 & H4 & H5 & H6 & H7 & H8 & H9 & H10 & H11 & H12).
  rewrite (events_of_eq _ _ _ Hd). split_and!; auto.
Qed.

(** C8 (as amended). Take any run of health-check cycles, with whatever
    the other tasks and the world do in between, that starts with no reset
    in its past and in which no reset call raises. Every reset of the run
    is dated, and the dates are strictly increasing: no calendar date sees
    two resets, however many cycles run on it. And the cycle that comes next
    invokes the reset exactly when its liveness checks complete, the risk
    engine is there and its clock shows a later date than the last reset:
    once then, and not at all otherwise. *)
Theorem daily_reset_once_per_date (s0 s : St) :
  health_run s0 s ->
  count (is_call is_reset) (trace s0) = 0%nat ->
  count (raised is_reset) (trace s) = 0%nat ->
  length (reset_dates (trace s)) = count (is_call is_reset) (trace s) /\
  StronglySorted Z.lt (reset_dates (trace s)) /\
  NoDup (reset_dates (trace s)) /\
  let now := fst (clock (world (snd (reconnect_check s)))) in
  count (is_call is_reset) (events_of health_check_cycle s) =
    match fst (reconnect_check s), _last_daily_reset (bot s) with
    | Ok _, Some l =>
        if (date l <? date now) && risk_manager (bot s) then 1%nat else 0%nat
    | _, _ => 0%nat
    end.
Proof.
  intros Hrun H0 Hno.
  destruct (health_run_invariant s0 s Hrun H0 Hno) as (Hlen & Hsorted & _).
  repeat split; auto using increasing_NoDup.
  apply health_check_reset_count.
Qed.

Lemma all_finished_Forall (c : Sys) :
  all_finished c = true -> Forall (eq Finished) (sys_pcs c).
Proof.
  unfold all_finished. rewrite forallb_forall, Forall_forall.
  intros H pc Hin. apply list_elem_of_In, H in Hin. by destruct pc.
Qed.

Lemma sched_step_length (i : nat) (c : Sys) :
  length (sys_pcs (sched_step i c)) = length (sys_pcs c).
Proof.
  unfold sched_step. destruct (sys_pcs c !! i); [|done].
  destruct (shutdown_step _ _). cbn. apply length_insert.
Qed.

Lemma run_schedule_length (schedule : list nat) (c : Sys) :
  length (sys_pcs (run_schedule schedule c)) = length (sys_pcs c).
Proof.
  revert c. induction schedule as [|i sch IH]; intros c; [done|].
  cbn. fold (run_schedule sch (sched_step i c)). by rewrite IH, sched_step_length.
Qed.

(** C3 (as amended). [shutdown] always returns, with the completion event
    set and the bot STOPPED or in ERROR. Its external steps come in the
    order snapshot, feed disconnect, exchange close, each at most once; a
    snapshot it writes records the state STOPPING, so the state was set
    first. The bot ends in ERROR exactly when the feed's disconnect or the
    exchange's close raised; a failure while saving the snapshot is
    absorbed by [_save_state] and does not keep the bot from STOPPED. When
    all collaborators are there and no call raises, all three steps happen
    and the bot is STOPPED. Invocations may also overlap: an invocation run
    alone step by step is [shutdown]; for any number of invocations and any
    interleaving, the event is set once one of them has finished, the bot is
    STOPPED or in ERROR once all have, and an invocation resumed three times
    has finished. *)
Theorem shutdown_protocol (s : St) :
  let s' := snd (shutdown s) in
  let d := events_of shutdown s in
  fst (shutdown s) = Ok tt /\
  _shutdown_event (bot s') = true /\
  stopped_or_error s' /\
  (state (status (bot s')) = ERROR <-> count (raised is_teardown) d <> 0%nat) /\
  shutdown_phases d `sublist_of` [PhSnapshot; PhDisconnect; PhClose] /\
  Forall (eq "stopping") (snapshot_states d) /\
  (pair_manager (bot s) = true -> websocket_feed (bot s) = true ->
   exchange (bot s) = true -> count (raised any_method) d = 0%nat ->
   shutdown_phases d = [PhSnapshot; PhDisconnect; PhClose] /\
   state (status (bot s')) = STOPPED) /\
  run_schedule [0; 0; 0]%nat (shutdowns 1 s) = mkSys s' [Finished] /\
  (forall (n : nat) (schedule : list nat),
     let c := run_schedule schedule (shutdowns n s) in
     (Exists (eq Finished) (sys_pcs c) -> _shutdown_event (bot (sys_st c)) = true) /\
     (n <> 0%nat -> all_finished c = true -> stopped_or_error (sys_st c)) /\
     (forall i, (i < n)%nat -> (3 <= turns i schedule)%nat ->
        sys_pcs c !! i = Some Finished)).
Proof.
  cbv zeta.
  destruct (shutdown_paths s) as (d & Hd & Hok & Hev & Hst & Herr & Hord & Hsnap & Hfull).
  rewrite (events_of_eq _ _ _ Hd).
  repeat match goal with |- _ /\ _ => split end; auto using shutdown_alone.
  intros n schedule.
  pose proof (run_schedule_invariant schedule _ (shutdowns_invariant n s)) as [Hone Hall].
  split; [exact Hone|]. split.
  - intros Hn Hfin. apply Hall; [|by apply all_finished_Forall].
    intros Hnil. apply (f_equal length) in Hnil.
    rewrite run_schedule_length in Hnil. cbn in Hnil.
    rewrite length_replicate in Hnil. done.
  - intros i Hi Hturns.
    destruct (run_schedule_progress schedule (shutdowns n s) i AtEntry)
      as (pc' & Hpc' & Hle).
    { cbn. by apply lookup_replicate_2. }
    rewrite Hpc'. f_equal. cbn in Hle. destruct pc'; cbn in Hle; done || lia.
Qed.

Lemma save_state_failures (s : St) :
  let d := events_of _save_state s in
  (pair_manager (bot s) = false -> d = []) /\
  (count (raised is_persistence) d <> 0%nat -> count is_save_error d = 1%nat).
Proof.
  cbv zeta. unfold events_of. wp_start _save_state s. unfold _save_state. cbv zeta.
  wp_run; bool_cases.
  all: rewrite <- ?app_assoc, ?drop_app_length; cbn [app].
  all: rewrite ?drop_all.
  all: cbn; split; intros; congruence || lia || done.
Qed.

(** C10. [_save_state] always returns and never changes the bot: with no
    pair manager it does nothing at all, and when building or writing the
    snapshot raises, the exception is logged once and absorbed. A
    performance tracker cycle always returns too and leaves the lifecycle
    state and the errors list as they were, so a failed save there cannot
    put the bot in ERROR; and [shutdown] ends in ERROR only if the feed's
    disconnect or the exchange's close raised, never because of the
    snapshot alone. *)
Theorem persistence_failures_absorbed :
  (forall s, fst (_save_state s) = Ok tt /\ bot (snd (_save_state s)) = bot s) /\
  (forall s,
     let d := events_of _save_state s in
     (pair_manager (bot s) = false -> d = []) /\
     (count (raised is_persistence) d <> 0%nat -> count is_save_error d = 1%nat)) /\
  (forall s,
     let s' := snd (performance_tracker_cycle s) in
     fst (performance_tracker_cycle s) = Ok tt /\
     state (status (bot s')) = state (status (bot s)) /\
     errors (status (bot s')) = errors (status (bot s))) /\
  (forall s,
     state (status (bot (snd (shutdown s)))) = ERROR ->
     count (raised is_teardown) (events_of shutdown s) <> 0%nat).
Proof.
  split; [|split; [|split]].
  - intros s. split; [apply save_state_returns | apply save_state_keeps_bot].
  - apply save_state_failures.
  - intros s. cbv zeta. split; [apply (cycle_returns Performance)|].
    split.
    + by apply (performance_tracker_keeps (fun b => state (status b))).
    + by apply (performance_tracker_keeps (fun b => errors (status b))).
  - intros s Herr.
    destruct (shutdown_paths s) as (d & Hd & _ & _ & _ & Hiff & _).
    rewrite (events_of_eq _ _ _ Hd). by apply Hiff.
Qed.

(** A cycle on an empty position set whose liquidation returns takes the
    normal path. *)
Lemma risk_cycle_no_error (s : St) (capital : float) (rm : RiskMetrics) (w1 w2 : World) :
  initial_balance (config (bot s)) = Some capital ->
  risk_manager (bot s) = true ->
  get_risk_metrics capital (world s) = (Ok rm, w1) ->
  float_gt (current_drawdown rm) 0.20 = true ->
  close_on_pause (config (bot s)) = true ->
  pair_manager (bot s) = true ->
  close_all_positions "Protection drawdown" w1 = (Ok tt, w2) ->
  positions w2 = [] ->
  count is_risk_monitor_error (events_of risk_monitor_cycle s) = 0%nat.
Proof.
  intros Hbal Hrisk Hget Hcrit Hclose Hpm Hliq Hpos.
  pose proof (critical_above_warning _ Hcrit) as Hwarn.
  unfold events_of. wp_start risk_monitor_cycle s.
  unfold risk_monitor_cycle, drawdown_check, daily_loss_check, _pause_trading,
    trailing_stops.
  wp_run; setters; path_facts; try congruence.
  all: rewrite ?Hpos; cbn [for_each]; wp_run.
  all: rewrite <- ?app_assoc, drop_app_length; reflexivity.
Qed.

(** C2 (as amended). Take a risk monitor cycle that obtains its snapshot,
    with a drawdown above 0.20. The cycle returns and leaves the bot PAUSED,
    from whatever state it started. If close-on-pause is set and the pair
    manager is there, the cycle asks it exactly once to close all
    positions, with the reason [Protection drawdown]; otherwise it asks for
    no liquidation. Run on an empty position set on which the liquidation
    returns, the cycle takes its normal path and logs no error. *)
Theorem drawdown_breach_pauses (s : St) (capital : float) (rm : RiskMetrics)
    (w1 : World) :
  initial_balance (config (bot s)) = Some capital ->
  risk_manager (bot s) = true ->
  get_risk_metrics capital (world s) = (Ok rm, w1) ->
  float_gt (current_drawdown rm) 0.20 = true ->
  let s' := snd (risk_monitor_cycle s) in
  let d := events_of risk_monitor_cycle s in
  fst (risk_monitor_cycle s) = Ok tt /\
  state (status (bot s')) = PAUSED /\
  count (is_call is_close_all) d =
    (if close_on_pause (config (bot s)) && pair_manager (bot s) then 1 else 0)%nat /\
  count (is_call (is_close_all_for "Protection drawdown")) d =
    count (is_call is_close_all) d /\
  (forall w2,
     close_on_pause (config (bot s)) = true ->
     pair_manager (bot s) = true ->
     close_all_positions "Protection drawdown" w1 = (Ok tt, w2) ->
     positions w2 = [] ->
     count is_risk_monitor_error d = 0%nat).
Proof.
  intros Hbal Hrisk Hget Hcrit. cbv zeta.
  destruct (risk_cycle_paths s capital rm w1 Hbal Hrisk Hget)
    as (d & Hd & Hok & Hbot & Hall & Hfor & _).
  rewrite Hcrit in Hbot, Hall. cbn [andb] in Hall.
  assert (Hst : state (status (bot (snd (risk_monitor_cycle s)))) = PAUSED)
    by (by rewrite Hbot).
  rewrite (events_of_eq _ _ _ Hd).
  repeat match goal with |- _ /\ _ => split end; auto.
  intros w2 Hclose Hpm Hliq Hpos.
  rewrite <- (events_of_eq _ _ _ Hd). eauto using risk_cycle_no_error.
Qed.

(** C6 (as amended). The daily-loss check is a warning and nothing else:
    on any state and any snapshot it returns, leaves the bot and the world
    untouched, and adds one warning to the log when the snapshot's daily
    ratio is above 0.05 and nothing otherwise. So in a cycle that obtains
    its snapshot the lifecycle state and the liquidation depend on the
    drawdown alone: the bot is PAUSED when the drawdown is above 0.20 and
    unchanged when it is not, and positions are closed only in the first
    case, whatever the daily ratio. But the check comes after the drawdown
    check in the same [try] block, and is not always reached: the cycle
    logs exactly one warning for a daily ratio above 0.05 when the pause
    step of a critical drawdown did not raise, and no warning at all when
    it did, that is when the liquidation raised or close-on-pause is set
    and there is no pair manager. *)
Theorem daily_loss_only_warns (s : St) (capital : float) (rm : RiskMetrics)
    (w1 : World) :
  initial_balance (config (bot s)) = Some capital ->
  risk_manager (bot s) = true ->
  get_risk_metrics capital (world s) = (Ok rm, w1) ->
  let s' := snd (risk_monitor_cycle s) in
  let d := events_of risk_monitor_cycle s in
  let critical := float_gt (current_drawdown rm) 0.20 in
  let closing := critical && close_on_pause (config (bot s)) in
  (forall s0,
     daily_loss_check rm s0 =
       (Ok tt, mkSt (bot s0) (world s0)
                 (trace s0 ++ if float_gt (rm_daily_pnl rm) 0.05
                              then [Log LWarning (MsgDailyLoss (rm_daily_pnl rm))]
                              else []))) /\
  bot s' = (if critical then set_state PAUSED (bot s) else bot s) /\
  count (is_call is_close_all) d =
    (if closing && pair_manager (bot s) then 1 else 0)%nat /\
  (count is_daily_loss_warning d <= 1)%nat /\
  ((closing = true -> pair_manager (bot s) = true /\
                      count (raised is_close_all) d = 0%nat) ->
   count is_daily_loss_warning d =
     (if float_gt (rm_daily_pnl rm) 0.05 then 1 else 0)%nat) /\
  (closing = true ->
   pair_manager (bot s) = false \/ count (raised is_close_all) d <> 0%nat ->
   count is_daily_loss_warning d = 0%nat).
Proof.
  intros Hbal Hrisk Hget. cbv zeta.
  destruct (risk_cycle_paths s capital rm w1 Hbal Hrisk Hget)
    as (d & Hd & Hok & Hbot & Hall & Hfor & Hle & Hwarn & Hlost).
  rewrite (events_of_eq _ _ _ Hd).
  repeat match goal with |- _ /\ _ => split end; auto.
  intros s0. unfold daily_loss_check, when, log, emit.
  destruct (float_gt (rm_daily_pnl rm) 0.05); cbn; [done|].
  unfold ret. by rewrite app_nil_r, (surjective_pairing (Ok tt, s0)); destruct s0.
Qed.

(** Of the five loops only the market scanner goes on when the bot is
    PAUSED. *)
Lemma paused_loops (s : St) :
  state (status (bot s)) = PAUSED ->
  loop_step Strategy s = None /\
  loop_step RiskMonitor s = None /\
  loop_step Performance s = None /\
  loop_step HealthCheck s = None /\
  (_shutdown_event (bot s) = false ->
   loop_step Scanner s = Some (market_scanner_cycle s)).
Proof.
  intros H. unfold loop_step, alive. rewrite H. cbn.
  repeat split. by intros ->.
Qed.

(** A task other than the scanner that takes its turn in PAUSED returns at
    that turn, without an error and without touching the bot. *)
Lemma paused_tasks_return (s : St) (fuel : nat) (l : Loop) :
  state (status (bot s)) = PAUSED ->
  l <> Scanner ->
  run_task (S fuel) l s = Some (Ended (Ok tt), s).
Proof.
  intros H Hl. destruct (paused_loops s H) as (Hs & Hr & Hp & Hh & _).
  unfold run_task. cbn [run_loop].
  destruct l; [congruence| | | |]; rewrite ?Hs, ?Hr, ?Hp, ?Hh; reflexivity.
Qed.

(** ** The loops as a whole *)

#[local] Instance kept_or_paused_preorder : PreOrder kept_or_paused.
Proof.
  split; unfold kept_or_paused; [intros s; by left | intros s1 s2 s3 [H1|H1] [H2|H2]].
  all: rewrite ?H2, ?H1; auto.
Qed.

#[local] Instance kept_or_trimmed_preorder : PreOrder kept_or_trimmed.
Proof.
  split; unfold kept_or_trimmed; [intros s; done | intros s1 s2 s3 H1 H2; by etrans].
Qed.

Lemma keeps_weaken (R R' : relation St) {A} (c : M A) :
  (forall s s', R s s' -> R' s s') -> keeps R c -> keeps R' c.
Proof. intros H Hc s. apply H, Hc. Qed.

Lemma same_state_paused {A} (c : M A) :
  keeps (same (fun b => state (status b))) c -> keeps kept_or_paused c.
Proof. apply keeps_weaken. intros s s' H. by left. Qed.

Lemma same_errors_trimmed {A} (c : M A) :
  keeps (same (fun b => errors (status b))) c -> keeps kept_or_trimmed c.
Proof.
  apply keeps_weaken. intros s s' H. unfold kept_or_trimmed, same in *. by rewrite H.
Qed.

Lemma pause_kept_or_paused : keeps kept_or_paused (modify (set_state PAUSED)).
Proof. intros s. by right. Qed.

Lemma trim_kept_or_trimmed : keeps kept_or_trimmed trim_errors.
Proof.
  intros s. unfold kept_or_trimmed, trim_errors, modify, slice_last.
  cbn [snd bot].
  destruct (100 <? length (errors (status (bot s))))%nat; [|reflexivity].
  setters. apply suffix_drop.
Qed.

Ltac unfold_cycles :=
  unfold cycle, market_scanner_cycle, strategy_cycle, risk_monitor_cycle,
    performance_tracker_cycle, health_check_cycle, drawdown_check,
    daily_loss_check, _pause_trading, trailing_stops, _calculate_daily_pnl,
    _save_state, reconnect_check, _check_daily_reset;
  cbv zeta.

(** A step that leaves a projection of the bot alone, down to the two
    steps that do not: the pause and the trim. *)
Ltac frame_step :=
  lazymatch goal with
  | |- keeps _ (daily_pnl_sum _ _) => apply keeps_daily_pnl_sum; [tc_solve|]
  | |- keeps kept_or_paused (modify (set_state PAUSED)) => apply pause_kept_or_paused
  | |- keeps kept_or_trimmed trim_errors => apply trim_kept_or_trimmed
  | |- keeps _ trim_errors => unfold trim_errors
  | |- keeps kept_or_paused (modify _) => apply same_state_paused
  | |- keeps kept_or_paused (emit _) => apply same_state_paused
  | |- keeps kept_or_paused (sys_call _ _ _) => apply same_state_paused
  | |- keeps kept_or_paused (call _ _ _ _) => apply same_state_paused
  | |- keeps kept_or_paused now_ => apply same_state_paused
  | |- keeps kept_or_trimmed (modify _) => apply same_errors_trimmed
  | |- keeps kept_or_trimmed (emit _) => apply same_errors_trimmed
  | |- keeps kept_or_trimmed (sys_call _ _ _) => apply same_errors_trimmed
  | |- keeps kept_or_trimmed (call _ _ _ _) => apply same_errors_trimmed
  | |- keeps kept_or_trimmed now_ => apply same_errors_trimmed
  | |- _ => keeps_step
  end.

Ltac frame_all :=
  repeat frame_step;
  try match goal with
      | |- context [(100 <? ?n)%nat] => destruct (100 <? n)%nat; reflexivity
      end.

Lemma cycle_grows (l : Loop) : keeps grows (cycle l).
Proof. destruct l; unfold_cycles; frame_all. Qed.

Lemma cycle_keeps_config (l : Loop) : keeps (same config) (cycle l).
Proof. destruct l; unfold_cycles; frame_all. Qed.

Lemma cycle_keeps_event (l : Loop) : keeps (same _shutdown_event) (cycle l).
Proof. destruct l; unfold_cycles; frame_all. Qed.

Lemma cycle_keeps_main_task (l : Loop) : keeps (same _main_task) (cycle l).
Proof. destruct l; unfold_cycles; frame_all. Qed.

Lemma cycle_keeps_components (l : Loop) : keeps (same components) (cycle l).
Proof. destruct l; unfold_cycles; frame_all. Qed.

Lemma cycle_kept_or_paused (l : Loop) : keeps kept_or_paused (cycle l).
Proof. destruct l; unfold_cycles; frame_all. Qed.

Lemma cycle_keeps_state (l : Loop) :
  l <> RiskMonitor -> keeps (same (fun b => state (status b))) (cycle l).
Proof. destruct l; [| |done| |]; intros _; unfold_cycles; frame_all. Qed.

Lemma cycle_kept_or_trimmed (l : Loop) : keeps kept_or_trimmed (cycle l).
Proof.
  destruct l; unfold_cycles; frame_all.
Qed.

Lemma cycle_keeps_errors (l : Loop) :
  l <> HealthCheck -> keeps (same (fun b => errors (status b))) (cycle l).
Proof. destruct l; [| | | |done]; intros _; unfold_cycles; frame_all. Qed.

Lemma cycle_no_task_error (l : Loop) : keeps (silent is_task_error) (cycle l).
Proof. destruct l; unfold_cycles; frame_all. Qed.

(** X1. A cycle of any of the five loops returns normally and leaves the
    configuration, the shutdown event, the main task and the six
    collaborator attributes as they were. The lifecycle state is either
    unchanged or PAUSED, and only the risk monitor can change it; the errors
    list is either unchanged or cut down to a suffix, and only the health
    check can change it. So no cycle puts the bot in ERROR, stops it,
    restarts it or records an error. *)
Theorem cycles_leave_lifecycle_alone (l : Loop) (s : St) :
  let s' := snd (cycle l s) in
  fst (cycle l s) = Ok tt /\
  config (bot s') = config (bot s) /\
  _shutdown_event (bot s') = _shutdown_event (bot s) /\
  _main_task (bot s') = _main_task (bot s) /\
  components (bot s') = components (bot s) /\
  kept_or_paused s s' /\
  (l <> RiskMonitor -> state (status (bot s')) = state (status (bot s))) /\
  kept_or_trimmed s s' /\
  (l <> HealthCheck -> errors (status (bot s')) = errors (status (bot s))).
Proof.
  cbv zeta. split; [apply cycle_returns|].
  split; [apply (cycle_keeps_config l s)|].
  split; [apply (cycle_keeps_event l s)|].
  split; [apply (cycle_keeps_main_task l s)|].
  split; [apply (cycle_keeps_components l s)|].
  split; [apply (cycle_kept_or_paused l s)|].
  split; [intros H; apply (cycle_keeps_state l H s)|].
  split; [apply (cycle_kept_or_trimmed l s)|].
  intros H. apply (cycle_keeps_errors l H s).
Qed.

(** A loop that has returned went through cycles only. *)
Lemma run_loop_frame (R : relation St) `{!PreOrder R} (l : Loop) :
  keeps R (cycle l) ->
  forall fuel s r s',
    run_loop fuel l s = Some (r, s') ->
    r = Ok tt /\ R s s' /\ alive l (bot s') = false.
Proof.
  intros Hc fuel. induction fuel as [|fuel IH]; intros s r s' H; cbn in H; [done|].
  unfold loop_step in H. destruct (alive l (bot s)) eqn:Ha.
  - pose proof (cycle_returns l s) as Hr. pose proof (Hc s) as Hs.
    destruct (cycle l s) as [[[]|e] s1]; cbn in Hr, Hs; [|discriminate Hr].
    destruct (IH _ _ _ H) as (-> & H1 & H2). split; [done|]. split; [by etrans | done].
  - injection H as <- <-. split; [done|]. split; [reflexivity | done].
Qed.

Lemma gather_paths (outcomes : list (Ending unit)) (s : St) :
  snd (gather outcomes s) = s /\
  (Forall returned outcomes -> fst (gather outcomes s) = Ended (Ok tt)) /\
  (forall finished e rest,
     outcomes = finished ++ Ended (Raise e) :: rest -> Forall returned finished ->
     fst (gather outcomes s) = Ended (Raise e)) /\
  (forall finished rest,
     outcomes = finished ++ CancelledError :: rest -> Forall returned finished ->
     fst (gather outcomes s) = CancelledError).
Proof.
  induction outcomes as [|o outcomes IH].
  - cbn. split; [done|]. split; [done|]. split.
    + intros [|? ?] ? ? H; discriminate H.
    + intros [|? ?] ? H; discriminate H.
  - destruct IH as (IH1 & IH2 & IH3 & IH4).
    assert (Hhead : forall (finished : list (Ending unit)) o' rest,
              o :: outcomes = finished ++ o' :: rest -> Forall returned finished ->
              o' <> Ended (Ok tt) ->
              (finished = [] /\ o = o') \/
              (o = Ended (Ok tt) /\ exists fin', finished = o :: fin' /\
                 outcomes = fin' ++ o' :: rest /\ Forall returned fin')).
    { intros [|x finished] o' rest H Hf Hne.
      - left. by injection H as ->.
      - right. injection H as <- H. inversion Hf as [|? ? Hx Hf']. subst.
        split; [exact Hx|]. eauto. }
    split; [|split; [|split]].
    + destruct o as [[[]|e]|]; cbn [gather]; done.
    + intros H. inversion H as [|? ? Hr Hrest]. subst. rewrite Hr. cbn [gather]. auto.
    + intros finished e rest H Hf.
      destruct (Hhead _ _ _ H Hf) as [[-> ->]|(-> & fin' & -> & Ho & Hf')]; [done|done|].
      cbn [gather]. eauto.
    + intros finished rest H Hf.
      destruct (Hhead _ _ _ H Hf) as [[-> ->]|(-> & fin' & -> & Ho & Hf')]; [done|done|].
      cbn [gather]. eauto.
Qed.

(** The wrapper never lets an exception of class [Exception] through. *)
Lemma monitored_ends (name : string) (coro : Awaited unit) (s : St) :
  fst (monitored name coro s) = Ended (Ok tt) \/
  fst (monitored name coro s) = CancelledError.
Proof.
  unfold monitored. destruct (coro s) as [[[[]|e]|] s1]; cbn; auto.
Qed.

(** X2. The task supervisor. An exception of the wrapped coroutine is
    logged and recorded as [name: message], and the task returns; a
    cancellation is logged and raised again, with nothing recorded; a
    coroutine that returns is left alone. So a supervised task ends by
    returning or cancelled, never with an exception, and a loop left to run
    as a task returns, with its condition false, no task error logged and
    the errors list a suffix of what it was. When the main loop joins its
    tasks it always logs its last line. It returns when all tasks returned;
    it logs the error and puts the bot in ERROR when the first task not to
    return ended with an exception; it ends cancelled, leaving the bot as it
    was, when that task was cancelled. As supervised tasks never end with an
    exception, joining them never puts the bot in ERROR. *)
Theorem supervised_loops_never_fail :
  (forall name coro s,
     let s1 := snd (coro s) in
     match fst (coro s) with
     | Ended (Ok _) => monitored name coro s = (Ended (Ok tt), s1)
     | Ended (Raise e) =>
         monitored name coro s =
           (Ended (Ok tt),
            mkSt (append_error (name +:+ ": " +:+ e) (bot s1)) (world s1)
              (trace s1 ++ [Log LError (MsgTaskError name e)]))
     | CancelledError =>
         monitored name coro s =
           (CancelledError,
            mkSt (bot s1) (world s1) (trace s1 ++ [Log LInfo (MsgTaskCancelled name)]))
     end) /\
  (forall l s,
     cancel_task l s =
       (CancelledError,
        mkSt (bot s) (world s) (trace s ++ [Log LInfo (MsgTaskCancelled (loop_name l))]))) /\
  (forall fuel l s r s',
     run_task fuel l s = Some (r, s') ->
     r = Ended (Ok tt) /\
     run_loop fuel l s = Some (Ok tt, s') /\
     alive l (bot s') = false /\
     kept_or_trimmed s s' /\
     count is_task_error (trace s') = count is_task_error (trace s)) /\
  (forall outcomes s,
     let r := fst (_main_loop_join outcomes s) in
     let s' := snd (_main_loop_join outcomes s) in
     last (trace s') = Some (Log LInfo MsgMainLoopDone) /\
     world s' = world s /\
     (Forall returned outcomes ->
        r = Ended (Ok tt) /\ bot s' = bot s /\
        trace s' = trace s ++ [Log LInfo MsgMainLoopDone]) /\
     (forall finished e rest,
        outcomes = finished ++ Ended (Raise e) :: rest -> Forall returned finished ->
        r = Ended (Ok tt) /\ bot s' = set_state ERROR (bot s) /\
        trace s' = trace s ++ [Log LError (MsgMainLoopError e); Log LInfo MsgMainLoopDone]) /\
     (forall finished rest,
        outcomes = finished ++ CancelledError :: rest -> Forall returned finished ->
        r = CancelledError /\ bot s' = bot s /\
        trace s' = trace s ++ [Log LInfo MsgMainLoopDone])) /\
  (forall outcomes s,
     (forall o, o ∈ outcomes -> exists name coro s0, o = fst (monitored name coro s0)) ->
     bot (snd (_main_loop_join outcomes s)) = bot s).
Proof.
  split_and!.
  - intros name coro s. cbv zeta. unfold monitored.
    destruct (coro s) as [[[[]|e]|] s1]; cbn; done.
  - intros l s. reflexivity.
  - intros fuel l s r s' H. unfold run_task in H.
    destruct (run_loop fuel l s) as [[r0 s0]|] eqn:E; [|discriminate H].
    destruct (run_loop_frame kept_or_trimmed l (cycle_kept_or_trimmed l) _ _ _ _ E)
      as (-> & Ht & Ha).
    destruct (run_loop_frame (silent is_task_error) l (cycle_no_task_error l) _ _ _ _ E)
      as (_ & Hq & _).
    cbn in H. injection H as <- <-.
    split_and!; try done. unfold count. by rewrite Hq.
  - intros outcomes s. cbv zeta.
    destruct (gather_paths outcomes s) as (Hs & Hok & Hraise & Hcancel).
    unfold _main_loop_join.
    destruct (gather outcomes s) as [[[[]|e]|] s1]; cbn in *; subst s1.
    all: rewrite <- ?app_assoc; cbn [app]; rewrite ?last_snoc.
    all: split_and!; try done.
    all: try (intros H; specialize (Hok H); discriminate Hok).
    all: try (intros finished e' rest H Hf; specialize (Hraise _ _ _ H Hf);
              by simplify_eq).
    all: try (intros finished rest H Hf; specialize (Hcancel _ _ H Hf);
              by simplify_eq).
    all: rewrite (last_app _ [_; _]); done.
  - intros outcomes s H.
    destruct (gather_paths outcomes s) as (Hs & Hok & Hraise & Hcancel).
    assert (Hno : forall e, fst (gather outcomes s) <> Ended (Raise e)).
    { intros e. clear Hs Hok Hraise Hcancel.
      induction outcomes as [|o outcomes IH]; cbn [gather]; [done|].
      assert (Ho : o = Ended (Ok tt) \/ o = CancelledError).
      { destruct (H o) as (name & coro & s0 & ->); [left|]. apply monitored_ends. }
      destruct Ho as [->| ->]; [|done].
      apply IH. intros o' Hin. apply H. by right. }
    unfold _main_loop_join.
    destruct (gather outcomes s) as [[[[]|e]|] s1]; cbn in *; subst s1; try done.
    by destruct (Hno e).
Qed.

Lemma cycle_keeps_alive (l : Loop) (s : St) :
  l <> RiskMonitor -> alive l (bot (snd (cycle l s))) = alive l (bot s).
Proof.
  intros H. pose proof (cycle_keeps_event l s) as He.
  pose proof (cycle_keeps_state l H s) as Hs. unfold same in *.
  destruct l; cbn [alive]; by rewrite ?He, ?Hs.
Qed.

(** X3. Run on its own, a loop other than the risk monitor never returns
    once its condition holds: the market scanner goes on until the shutdown
    event is set by someone else, the strategy, performance and health
    loops until someone else moves the bot out of RUNNING. The risk
    monitor started in RUNNING is the one loop that can end by itself, and
    when it has ended the bot is PAUSED. *)
Theorem loops_end_by_pause_or_from_outside :
  (forall fuel l s,
     l <> RiskMonitor -> alive l (bot s) = true -> run_loop fuel l s = None) /\
  (forall fuel s r s',
     state (status (bot s)) = RUNNING ->
     run_loop fuel RiskMonitor s = Some (r, s') ->
     state (status (bot s')) = PAUSED).
Proof.
  split.
  - intros fuel l s Hl. revert s. induction fuel as [|fuel IH]; intros s Ha; [done|].
    cbn. unfold loop_step. rewrite Ha.
    pose proof (cycle_returns l s) as Hr. pose proof (cycle_keeps_alive l s Hl) as Hk.
    destruct (cycle l s) as [[[]|e] s1]; cbn in Hr, Hk; [|discriminate Hr].
    apply IH. by rewrite Hk.
  - intros fuel s r s' Hs H.
    destruct (run_loop_frame kept_or_paused RiskMonitor
                (cycle_kept_or_paused RiskMonitor) _ _ _ _ H) as (_ & [Hk|Hk] & Ha);
      [|done].
    cbn in Ha. rewrite Hk, Hs in Ha. discriminate Ha.
Qed.

(** ** Pacing *)

Lemma cycle_parts_quiet :
  keeps (silent pacing) trailing_stops /\
  keeps (silent pacing) _calculate_daily_pnl /\
  keeps (silent pacing) _save_state /\
  keeps (silent pacing) reconnect_check /\
  keeps (silent pacing) trim_errors /\
  keeps (silent pacing) _check_daily_reset /\
  (forall rm, keeps (silent pacing) (drawdown_check rm)) /\
  (forall rm, keeps (silent pacing) (daily_loss_check rm)).
Proof.
  split_and!;
    try (lazymatch goal with |- forall rm : RiskMetrics, _ => intros rm end);
    unfold_cycles; frame_all.
Qed.

(** A step of a cycle that neither sleeps nor logs a cycle error. *)
Lemma wp_quiet {A} (c : M A) (Q : Res A -> St -> Prop) (s : St) :
  keeps (silent pacing) c ->
  keeps (same config) c ->
  (forall r s',
     List.filter pacing (trace s') = List.filter pacing (trace s) ->
     config (bot s') = config (bot s) ->
     Q r s') ->
  wp c Q s.
Proof. intros H1 H2 H. apply H; [apply H1 | apply H2]. Qed.

Ltac quiet :=
  solve [ apply cycle_parts_quiet
        | unfold_cycles; frame_all; try (apply silent_now; done) ].

Ltac pace_step :=
  cbv beta;
  lazymatch goal with
  | |- wp (try_except _ _) _ _ => apply wp_try_except
  | |- wp (bind (log LError _) _) _ _ => apply wp_bind, wp_emit
  | |- wp (sleep _) _ _ => apply wp_emit
  | |- wp (bind get _) _ _ => apply wp_bind, wp_get
  | |- wp (bind ?c _) _ _ =>
      apply wp_bind; apply (wp_quiet c); [quiet | quiet | intros [?|?] ? ? ?]
  end;
  cbn [bot world trace fst snd] in *.

(** A cycle is its [try] block under its [except] block. *)
Lemma cycle_try (l : Loop) :
  cycle l = try_except (cycle_body l) (cycle_handler l).
Proof. by destruct l. Qed.

Lemma cycle_body_grows (l : Loop) : keeps grows (cycle_body l).
Proof. destruct l; unfold cycle_body; unfold_cycles; frame_all. Qed.

Lemma cycle_body_pacing (l : Loop) (s : St) :
  let tr := List.filter pacing (trace s) in
  let tr' := List.filter pacing (trace (snd (cycle_body l s))) in
  match fst (cycle_body l s) with
  | Ok _ =>
      tr' = tr ++ [Sleep (regular_interval l (bot s))] /\
      last (trace (snd (cycle_body l s))) = Some (Sleep (regular_interval l (bot s)))
  | Raise _ => tr' = tr
  end.
Proof.
  cbv zeta. wp_start (cycle_body l) s.
  destruct l; unfold cycle_body.
  all: repeat pace_step.
  all: rewrite ?last_snoc, ?List.filter_app; cbn [List.filter pacing is_cycle_error app].
  all: repeat match goal with
       | H : List.filter pacing (trace _) = _ |- _ => rewrite H; clear H
       | H : config (bot _) = _ |- _ => rewrite H; clear H
       end.
  all: rewrite ?app_nil_r, <- ?app_assoc; cbn [app regular_interval backoff cycle_error].
  all: try split; reflexivity.
Qed.

(** X4. Every cycle of every loop is paced. When its [try] block goes
    through, the cycle is that block: it sleeps once, for the loop's regular
    interval, as the last thing it does, and logs no cycle error. When the
    block raises, it has not slept; the cycle then logs one cycle error, of
    its own loop and with the message of that exception, sleeps for the
    loop's back-off and does nothing else. So every cycle sleeps exactly
    once, at its end, and a loop never spins, not even when every cycle
    fails. *)
Theorem every_cycle_sleeps_once (l : Loop) (s : St) :
  let d := events_of (cycle l) s in
  let work := events_of (cycle_body l) s in
  match fst (cycle_body l s) with
  | Ok _ =>
      cycle l s = cycle_body l s /\
      List.filter pacing d = [Sleep (regular_interval l (bot s))] /\
      last d = Some (Sleep (regular_interval l (bot s)))
  | Raise e =>
      d = work ++ [Log LError (cycle_error l e); Sleep (backoff l)] /\
      List.filter pacing work = [] /\
      bot (snd (cycle l s)) = bot (snd (cycle_body l s)) /\
      world (snd (cycle l s)) = world (snd (cycle_body l s))
  end.
Proof.
  cbv zeta. pose proof (cycle_body_pacing l s) as Hp. cbv zeta in Hp.
  pose proof (events_of_grows _ s (cycle_body_grows l)) as Hw.
  set (work := events_of (cycle_body l) s) in *. clearbody work.
  assert (Hc : cycle l s = try_except (cycle_body l) (cycle_handler l) s)
    by (by rewrite cycle_try).
  unfold events_of. rewrite Hc. unfold try_except.
  destruct (cycle_body l s) as [[[]|e] s1]; cbn [fst snd] in *.
  - destruct Hp as [Hp Hl]. split; [done|].
    rewrite Hw, drop_app_length.
    rewrite Hw, List.filter_app in Hp. apply app_inv_head in Hp.
    split; [done|]. rewrite Hw, last_app in Hl.
    destruct (last work) as [x|] eqn:El; [done|].
    apply last_None in El. rewrite El in Hp. done.
  - unfold cycle_handler, bind, log, sleep, emit. cbn [fst snd bot world trace].
    rewrite Hw, <- !app_assoc, drop_app_length. cbn [app].
    split; [done|]. split; [|done].
    rewrite Hw, List.filter_app in Hp.
    rewrite <- (app_nil_r (List.filter pacing (trace s))) in Hp at 2.
    by apply app_inv_head in Hp.
Qed.

(** ** Start-up *)

Lemma subscribed_app (tr1 tr2 : list Event) :
  subscribed (tr1 ++ tr2) = subscribed tr1 ++ subscribed tr2.
Proof. apply omap_app. Qed.

(** The subscription pass: the symbols are subscribed in order, up to the
    first one the feed rejects. *)
Lemma bind_eq {A B} (c : M A) (k : A -> M B) (s : St) :
  bind c k s = match c s with
               | (Ok a, s') => k a s'
               | (Raise e, s') => (Raise e, s')
               end.
Proof. reflexivity. Qed.

Lemma subscribe_each_paths (symbols : list string) (s : St) :
  let c := for_each symbols (fun sym =>
             call CFeed (FeedSubscribe sym) a_unit
               (feed_subscribe sym [TICKER; TRADES; ORDERBOOK])) in
  exists d, trace (snd (c s)) = trace s ++ d /\
    bot (snd (c s)) = bot s /\
    (forall e, e ∈ d -> exists sym r, e = Call (FeedSubscribe sym) r) /\
    (websocket_feed (bot s) = false -> d = []) /\
    match fst (c s) with
    | Ok _ => subscribed d = symbols
    | Raise _ => exists rest, symbols = subscribed d ++ rest /\ rest <> []
    end.
Proof.
  cbv zeta. revert s. induction symbols as [|sym symbols IH]; intros s; cbn [for_each].
  - exists []. cbn. rewrite app_nil_r. split_and!; try done. intros e He. inversion He.
  - rewrite bind_eq.
    destruct (call CFeed (FeedSubscribe sym) a_unit
                (feed_subscribe sym [TICKER; TRADES; ORDERBOOK]) s)
      as [[[]|e] s1] eqn:E; unfold call, sys_call in E; cbn [has] in E;
      destruct (websocket_feed (bot s)); try discriminate E;
      try destruct (feed_subscribe sym _ (world s)) as [[[]|e'] w'];
      simplify_eq.
    + match goal with |- context [for_each symbols ?f ?s1] =>
        destruct (IH s1) as (d & Hd & Hb & He & _ & Hr) end.
      cbn [trace bot] in Hd, Hb.
      exists (Call (FeedSubscribe sym) (Ok AUnit) :: d).
      rewrite Hd, Hb. split; [by rewrite <- app_assoc|]. split; [done|]. split.
      { intros e [->|Hin]%elem_of_cons; eauto. }
      split; [done|].
      match goal with |- match fst ?x with _ => _ end => destruct (fst x) end.
      * change (subscribed (Call (FeedSubscribe sym) (Ok AUnit) :: d))
          with (sym :: subscribed d). by rewrite Hr.
      * destruct Hr as (rest & -> & Hrest). exists rest. done.
    + exists [Call (FeedSubscribe sym) (Raise e)]. cbn.
      split_and!; try done.
      { intros x ->%list_elem_of_singleton. eauto. }
      exists (sym :: symbols). done.
    + exists []. cbn. rewrite app_nil_r. split_and!; try done.
      { intros e He. inversion He. }
      exists (sym :: symbols). done.
Qed.

(** X5. The subscription pass subscribes the symbols in the order given and
    stops at the first one the feed rejects: the symbols subscribed are
    always a prefix of the list, and they are the whole list exactly when
    the pass returns, which is also exactly when its summary line is
    logged. With no symbols it returns even without a feed; with symbols
    and no feed it raises before any call. The bot is never touched. *)
Theorem subscriptions_follow_the_list (symbols : list string) (s : St) :
  let c := _setup_websocket_subscriptions symbols in
  let d := events_of c s in
  bot (snd (c s)) = bot s /\
  subscribed d `prefix_of` symbols /\
  (fst (c s) = Ok tt <-> subscribed d = symbols) /\
  (fst (c s) = Ok tt <-> last d = Some (Log LInfo (MsgSubscribed (length symbols)))) /\
  (symbols = [] -> fst (c s) = Ok tt) /\
  (websocket_feed (bot s) = false -> symbols <> [] ->
     d = [] /\ is_raise (fst (c s)) = true).
Proof.
  cbv zeta. unfold _setup_websocket_subscriptions.
  destruct (subscribe_each_paths symbols s) as (d & Hd & Hb & He & Hnone & Hr).
  cbv zeta in Hd, Hb, Hr.
  assert (Hlast : forall x, last d = Some x -> exists sym r, x = Call (FeedSubscribe sym) r).
  { intros x Hx. apply He. apply last_Some in Hx as [d' ->]. set_solver. }
  unfold events_of. rewrite bind_eq.
  destruct (for_each symbols _ s) as [[[]|e] s1]; cbn [fst snd] in *.
  - unfold log, emit. cbn [fst snd bot trace]. rewrite Hd, <- app_assoc, drop_app_length.
    rewrite subscribed_app, last_snoc. cbn. rewrite app_nil_r, Hr.
    split_and!; try done.
    intros Hf Hs. exfalso. rewrite (Hnone Hf) in Hr. by subst symbols.
  - destruct Hr as (rest & Hs & Hrest). rewrite Hd, drop_app_length.
    split; [done|]. split; [by exists rest|].
    split.
    { split; [done|]. intros H. rewrite <- H in Hs.
      rewrite <- (app_nil_r (subscribed d)) in Hs at 1. by apply app_inv_head in Hs. }
    split.
    { split; [done|]. intros H. by destruct (Hlast _ H) as (? & ? & ?). }
    split; [intros ->; by destruct (subscribed d)|].
    intros Hf Hne. by rewrite (Hnone Hf).
Qed.

Lemma count_zero_Forall (p : Event -> bool) (d : list Event) :
  (forall e, e ∈ d -> p e = false) -> count p d = 0%nat.
Proof.
  intros H. unfold count. induction d as [|x d IH]; [done|]. cbn.
  rewrite (H x) by set_solver. apply IH. intros e He. apply H. set_solver.
Qed.

Lemma first_failure_app (d1 d2 : list Event) :
  first_failure (d1 ++ d2) =
  match first_failure d1 with
  | Some (msg, rest) => Some (msg, rest ++ d2)
  | None => first_failure d2
  end.
Proof.
  induction d1 as [|e d1 IH]; [done|]. cbn. by destruct (failure_of e).
Qed.

(** A subscription pass with a feed fails at the subscription that raises,
    with its exception, and does nothing after it. *)
Lemma subscribe_each_failure (symbols : list string) (s : St) :
  let c := for_each symbols (fun sym =>
             call CFeed (FeedSubscribe sym) a_unit
               (feed_subscribe sym [TICKER; TRADES; ORDERBOOK])) in
  websocket_feed (bot s) = true ->
  exists d, trace (snd (c s)) = trace s ++ d /\
    first_failure d = match fst (c s) with
                      | Ok _ => None
                      | Raise e => Some (e, [])
                      end.
Proof.
  cbv zeta. revert s. induction symbols as [|sym symbols IH]; intros s Hfeed;
    cbn [for_each].
  - exists []. cbn. by rewrite app_nil_r.
  - rewrite bind_eq.
    destruct (call CFeed (FeedSubscribe sym) a_unit
                (feed_subscribe sym [TICKER; TRADES; ORDERBOOK]) s)
      as [[[]|e] s1] eqn:E; unfold call, sys_call in E; cbn [has] in E;
      rewrite Hfeed in E;
      destruct (feed_subscribe sym _ (world s)) as [[[]|e'] w'];
      simplify_eq.
    + match goal with |- context [for_each symbols ?f ?s1] =>
        destruct (IH s1 Hfeed) as (d & Hd & Hf) end.
      cbn [trace] in Hd.
      exists (Call (FeedSubscribe sym) (Ok AUnit) :: d).
      rewrite Hd, <- app_assoc. split; [done|]. cbn. exact Hf.
    + exists [Call (FeedSubscribe sym) (Raise e)]. done.
Qed.

Lemma wp_subscriptions (symbols : list string) (Q : Res unit -> St -> Prop) (s : St) :
  (forall r s' d,
     bot s' = bot s -> trace s' = trace s ++ d ->
     subscribed d `prefix_of` symbols ->
     (r = Ok tt -> subscribed d = symbols) ->
     (forall p, (forall sym a, p (Call (FeedSubscribe sym) a) = false) ->
                (forall n, p (Log LInfo (MsgSubscribed n)) = false) ->
                count p d = 0%nat) ->
     (websocket_feed (bot s) = true ->
      first_failure d = match r with
                        | Ok _ => None
                        | Raise e => Some (e, [])
                        end) ->
     Q r s') ->
  wp (_setup_websocket_subscriptions symbols) Q s.
Proof.
  intros H. unfold wp, _setup_websocket_subscriptions.
  destruct (subscribe_each_paths symbols s) as (d & Hd & Hb & He & _ & Hr).
  pose proof (subscribe_each_failure symbols s) as Hfail.
  cbv zeta in Hd, Hb, Hr, Hfail. rewrite bind_eq.
  destruct (for_each symbols _ s) as [[[]|e] s1]; cbn [fst snd] in *.
  - apply (H _ _ (d ++ [Log LInfo (MsgSubscribed (length symbols))])); cbn.
    + done.
    + by rewrite Hd, app_assoc.
    + rewrite subscribed_app. cbn. by rewrite app_nil_r, Hr.
    + intros _. rewrite subscribed_app. cbn. by rewrite app_nil_r.
    + intros p Hp Hl. rewrite count_snoc, Hl, Nat.add_0_r. apply count_zero_Forall.
      intros x Hx. destruct (He x Hx) as (sym & a & ->). apply Hp.
    + intros Hfeed. destruct (Hfail Hfeed) as (d' & Hd' & Hf).
      rewrite Hd in Hd'. apply app_inv_head in Hd'. subst d'.
      by rewrite first_failure_app, Hf.
  - destruct Hr as (rest & Hs & Hrest). apply (H _ _ d); try done.
    + by exists rest.
    + intros p Hp Hl. apply count_zero_Forall.
      intros x Hx. destruct (He x Hx) as (sym & a & ->). apply Hp.
    + intros Hfeed. destruct (Hfail Hfeed) as (d' & Hd' & Hf).
      rewrite Hd in Hd'. apply app_inv_head in Hd'. by subst d'.
Qed.

Ltac prune :=
  try match goal with
      | H : _ = false |- _ => solve [cbn in H; discriminate H]
      end.

Ltac init_run :=
  repeat first
    [ apply wp_subscriptions; intros [[]|?] ? ? ? ? ? ? ? ?;
      cbn [bot world trace fst snd] in *
    | wp_step; prune ].

Lemma assign_frame (c : Component) (b : Bot) :
  config (assign c b) = config b /\
  status (assign c b) = status b /\
  _shutdown_event (assign c b) = _shutdown_event b /\
  forall c', has c' (assign c b) =
             has c' b || (construction_rank c' =? construction_rank c)%nat.
Proof.
  split_and!; try done.
  intros c'. destruct c, c'; cbn; by rewrite ?orb_true_r, ?orb_false_r.
Qed.

Lemma assign_config (c : Component) (b : Bot) : config (assign c b) = config b.
Proof. apply assign_frame. Qed.

Lemma assign_status (c : Component) (b : Bot) : status (assign c b) = status b.
Proof. apply assign_frame. Qed.

Lemma assign_event (c : Component) (b : Bot) :
  _shutdown_event (assign c b) = _shutdown_event b.
Proof. apply assign_frame. Qed.

Lemma assign_has (c c' : Component) (b : Bot) :
  has c' (assign c b) =
  has c' b || (construction_rank c' =? construction_rank c)%nat.
Proof. apply assign_frame. Qed.

Lemma set_state_has (c : Component) (st : BotState) (b : Bot) :
  has c (set_state st b) = has c b.
Proof. by destruct c. Qed.

Lemma append_error_has (c : Component) (e : string) (b : Bot) :
  has c (append_error e b) = has c b.
Proof. by destruct c. Qed.

Lemma set_state_frame (st : BotState) (b : Bot) :
  config (set_state st b) = config b /\
  _shutdown_event (set_state st b) = _shutdown_event b /\
  state (status (set_state st b)) = st /\
  errors (status (set_state st b)) = errors (status b).
Proof. done. Qed.

Lemma append_error_frame (e : string) (b : Bot) :
  config (append_error e b) = config b /\
  _shutdown_event (append_error e b) = _shutdown_event b /\
  state (status (append_error e b)) = state (status b) /\
  errors (status (append_error e b)) = errors (status b) ++ [e].
Proof. done. Qed.

Ltac init_frame :=
  repeat first
    [ rewrite (proj1 (append_error_frame _ _))
    | rewrite (proj1 (proj2 (append_error_frame _ _)))
    | rewrite (proj1 (proj2 (proj2 (append_error_frame _ _))))
    | rewrite (proj2 (proj2 (proj2 (append_error_frame _ _))))
    | rewrite (proj1 (set_state_frame _ _))
    | rewrite (proj1 (proj2 (set_state_frame _ _)))
    | rewrite (proj1 (proj2 (proj2 (set_state_frame _ _))))
    | rewrite (proj2 (proj2 (proj2 (set_state_frame _ _))))
    | rewrite assign_config
    | rewrite assign_status
    | rewrite assign_event ].

Lemma initialize_paths (s : St) :
  exists (d : list Event),
    let n := count (succeeded is_constructor) d in
    trace (snd (initialize s)) = trace s ++ d /\
    config (bot (snd (initialize s))) = config (bot s) /\
    _shutdown_event (bot (snd (initialize s))) = _shutdown_event (bot s) /\
    (forall c, has c (bot (snd (initialize s))) =
               has c (bot s) || (construction_rank c <? n)%nat) /\
    subscribed d `prefix_of` pairs (config (bot s)) /\
    match first_failure d with
    | None =>
        fst (initialize s) = Ok true /\
        state (status (bot (snd (initialize s)))) = STOPPED /\
        errors (status (bot (snd (initialize s)))) = errors (status (bot s)) /\
        n = 6%nat /\
        subscribed d = pairs (config (bot s)) /\
        count is_init_error d = 0%nat
    | Some (e, rest) =>
        fst (initialize s) = Ok false /\
        state (status (bot (snd (initialize s)))) = ERROR /\
        errors (status (bot (snd (initialize s)))) = errors (status (bot s)) ++ [e] /\
        rest = [Log LError (MsgInitError e)] /\
        last d = Some (Log LError (MsgInitError e)) /\
        count is_init_error d = 1%nat /\
        (n <= 6)%nat
    end /\
    (count exchange_refused d <> 0%nat ->
       n = 1%nat /\
       errors (status (bot (snd (initialize s)))) =
         errors (status (bot s)) ++ ["Échec de connexion à l'exchange"]) /\
    (count feed_refused d <> 0%nat ->
       n = 2%nat /\
       errors (status (bot (snd (initialize s)))) =
         errors (status (bot s)) ++ ["Échec de connexion WebSocket"]).
Proof.
  cbv zeta. wp_start initialize s.
  unfold initialize. cbv zeta. init_run.
  all: framed.
  all: eexists; split; [rewrite <- ?app_assoc; reflexivity|].
  all: init_frame.
  all: split; [reflexivity|]; split; [reflexivity|].
  all: repeat match goal with
              | H : websocket_feed ?b = true -> _ |- _ =>
                  let Hf := fresh in
                  assert (Hf : websocket_feed b = true)
                    by (change (has CFeed b = true); rewrite !assign_has; cbn;
                        by rewrite ?orb_true_r);
                  specialize (H Hf); clear Hf
              end.
  all: rewrite ?subscribed_app, ?count_app, ?last_app, ?first_failure_app.
  all: repeat match goal with
         | H : forall p : Event -> bool, _ |- context [count ?q ?d] =>
             rewrite (H q) by done
         | H : first_failure ?d = _ |- context [first_failure ?d] => rewrite H
         end.
  all: cbn.
  all: rewrite ?app_nil_r.
  all: split; [intros c; rewrite ?append_error_has, ?set_state_has, ?assign_has;
               destruct c; cbn [construction_rank Nat.eqb Nat.ltb Nat.leb orb];
               rewrite ?orb_true_r, ?orb_false_r; reflexivity|].
  all: split; [first [done | by apply prefix_nil]|].
  all: split_and!; try done; try lia; auto.
Qed.

(** X6. [initialize] never raises, and ends by the first step that fails, if
    any: a call that raises, or a [connect] that answers [False]. With no
    such step it answers [True]: the bot is STOPPED, all six collaborators
    are there, every configured pair is subscribed, in order, and nothing is
    added to the errors list or logged as an initialisation error. With one
    it answers [False]: the bot is in ERROR, the one entry added to the
    errors list is the message of the exception of that step (for a refused
    connection, of the exception [initialize] raises itself), and the error
    line with that message is all that follows the step. The configuration
    and the shutdown event are left alone either way, and the pairs
    subscribed are always a prefix of the configured ones. *)
Theorem initialize_succeeds_or_records (s : St) :
  let s' := snd (initialize s) in
  let d := events_of initialize s in
  config (bot s') = config (bot s) /\
  _shutdown_event (bot s') = _shutdown_event (bot s) /\
  subscribed d `prefix_of` pairs (config (bot s)) /\
  match first_failure d with
  | None =>
      fst (initialize s) = Ok true /\
      state (status (bot s')) = STOPPED /\
      errors (status (bot s')) = errors (status (bot s)) /\
      (forall c, has c (bot s') = true) /\
      subscribed d = pairs (config (bot s)) /\
      count is_init_error d = 0%nat
  | Some (e, rest) =>
      fst (initialize s) = Ok false /\
      state (status (bot s')) = ERROR /\
      errors (status (bot s')) = errors (status (bot s)) ++ [e] /\
      rest = [Log LError (MsgInitError e)] /\
      last d = Some (Log LError (MsgInitError e)) /\
      count is_init_error d = 1%nat
  end.
Proof.
  cbv zeta.
  destruct (initialize_paths s) as (d & Hd & Hc & He & Hn & Hp & Ho & _).
  rewrite (events_of_eq _ _ _ Hd).
  split; [done|]. split; [done|]. split; [done|].
  destruct (first_failure d) as [[e rest]|].
  - destruct Ho as (H1 & H2 & H3 & H4 & H5 & H6 & _). done.
  - destruct Ho as (H1 & H2 & H3 & H4 & H5 & H6). split_and!; try done.
    intros c. rewrite Hn, H4. destruct c; cbn; apply orb_true_r.
Qed.

(** X7. [initialize] builds the collaborators in a fixed order: exchange,
    feed, risk manager, market data, scanner, pair manager. A collaborator
    is assigned when its constructor has returned and at no other time: the
    collaborators assigned by a run are the first [n] of that order, [n]
    being the number of constructors that returned in the run, and the
    others are as they were. It answers [True] exactly when no step failed,
    and then all six are built; after the first step that fails no other
    call is made, so nothing further is built. A collaborator is assigned
    before it is connected: an exchange that refuses the connection is
    kept, as the only collaborator, with the refusal recorded as the error,
    and likewise a feed that refuses is kept next to the exchange. *)
Theorem initialize_builds_in_order (s : St) :
  let s' := snd (initialize s) in
  let d := events_of initialize s in
  let n := count (succeeded is_constructor) d in
  (forall c, has c (bot s') = has c (bot s) || (construction_rank c <? n)%nat) /\
  (n <= 6)%nat /\
  (fst (initialize s) = Ok true <-> first_failure d = None) /\
  (first_failure d = None -> n = 6%nat) /\
  (forall e rest,
     first_failure d = Some (e, rest) -> count (is_call any_method) rest = 0%nat) /\
  (count exchange_refused d <> 0%nat ->
     n = 1%nat /\
     errors (status (bot s')) =
       errors (status (bot s)) ++ ["Échec de connexion à l'exchange"]) /\
  (count feed_refused d <> 0%nat ->
     n = 2%nat /\
     errors (status (bot s')) =
       errors (status (bot s)) ++ ["Échec de connexion WebSocket"]).
Proof.
  cbv zeta.
  destruct (initialize_paths s) as (d & Hd & Hc & He & Hn & Hp & Ho & Hx & Hf).
  rewrite (events_of_eq _ _ _ Hd).
  split; [done|].
  destruct (first_failure d) as [[e rest]|].
  - destruct Ho as (H1 & H2 & H3 & H4 & H5 & H6 & H7).
    split_and!; try done.
    + split; [|done]. rewrite H1. done.
    + intros e' rest' H. injection H as <- <-. by rewrite H4.
  - destruct Ho as (H1 & H2 & H3 & H4 & H5 & H6).
    split_and!; try done. lia.
Qed.


Lemma start_paths (s : St) :
  state (status (bot s)) = STOPPED \/ state (status (bot s)) = ERROR ->
  bot (snd (start s)) =
    set_main_task true
      (set_start_time (fst (clock (world s))) (set_state RUNNING (bot s))).
Proof.
  intros H. wp_start start s. unfold start. wp_run;
    try (exfalso; destruct H as [H|H]; congruence).
  all: match goal with H : clock _ = _ |- _ => rewrite H end; reflexivity.
Qed.

(** X8. [start] does not look at what [initialize] answered: run after
    [initialize], it always moves the bot to RUNNING and creates the main
    task, also when the initialisation failed, and it builds nothing, so
    the bot then runs with exactly the collaborators the initialisation
    left. On a bot that was constructed but never initialised, whatever
    the two clock readings of its construction, [start] is refused and
    changes nothing. *)
Theorem start_runs_after_any_initialize :
  (forall s,
     let s1 := snd (initialize s) in
     let s2 := snd (start s1) in
     state (status (bot s2)) = RUNNING /\
     _main_task (bot s2) = true /\
     (forall c, has c (bot s2) = has c (bot s1)) /\
     errors (status (bot s2)) = errors (status (bot s1))) /\
  (forall cfg paper t1 t2 w tr,
     let s0 := mkSt (set_last_update t2 (init_bot cfg paper t1)) w tr in
     fst (start s0) = Ok tt /\
     bot (snd (start s0)) = bot s0 /\
     state (status (bot (snd (start s0)))) = INITIALIZING).
Proof.
  split.
  - intros s. cbv zeta.
    assert (H : state (status (bot (snd (initialize s)))) = STOPPED \/
                state (status (bot (snd (initialize s)))) = ERROR).
    { destruct (initialize_paths s) as (d & _ & _ & _ & _ & _ & Ho & _).
      destruct (first_failure d) as [[e rest]|];
        [destruct Ho as (_ & H & _) | destruct Ho as (_ & H & _)]; auto. }
    rewrite (start_paths _ H). split_and!; done.
  - intros cfg paper t1 t2 w tr. cbv zeta. done.
Qed.

(** ** The strategy cycle *)

Ltac trace_events :=
  unfold events_of; cbn [trace];
  rewrite <- ?app_assoc, ?drop_app_length; cbn [app].

(** X9. One strategy cycle. It asks the pair manager to execute at most
    once, and exactly when the data refresh returned and [check_signals]
    answered a non-empty list, which it then logs; an empty answer is
    neither logged nor executed. A call that raises ends the cycle: after a
    failed refresh nothing is checked or executed, after a failed check
    nothing is executed, and after each of them, as after a failed
    execution, the cycle only logs that exception as its error and backs
    off for ten seconds, leaving the bot exactly as it was. With no pair
    manager the cycle does nothing but log the attribute error and back
    off. When all its calls return, the open-positions counter is the
    number of positions the pair manager holds after the execution and the
    last update is the clock read then. *)
Theorem strategy_cycle_executes_found_signals (s : St) :
  let s' := snd (strategy_cycle s) in
  let d := events_of strategy_cycle s in
  (count (is_call is_execute) d <= 1)%nat /\
  (count (is_call is_execute) d <> 0%nat ->
     exists w1 sigs w2,
       pair_manager (bot s) = true /\
       update_market_data (world s) = (Ok tt, w1) /\
       check_signals w1 = (Ok sigs, w2) /\ sigs <> []) /\
  (count is_cycle_error d <> 0%nat -> bot s' = bot s) /\
  (pair_manager (bot s) = false ->
     d = [Log LError (MsgStrategyError
                        "'NoneType' object has no attribute 'update_market_data'");
          Sleep 10]) /\
  (forall e w1,
     pair_manager (bot s) = true ->
     update_market_data (world s) = (Raise e, w1) ->
     d = [Call UpdateMarketData (Raise e); Log LError (MsgStrategyError e); Sleep 10]) /\
  (forall w1 e w2,
     pair_manager (bot s) = true ->
     update_market_data (world s) = (Ok tt, w1) ->
     check_signals w1 = (Raise e, w2) ->
     d = [Call UpdateMarketData (Ok AUnit); Call CheckSignals (Raise e);
          Log LError (MsgStrategyError e); Sleep 10]) /\
  (forall w1 sigs w2 e w3,
     pair_manager (bot s) = true ->
     update_market_data (world s) = (Ok tt, w1) ->
     check_signals w1 = (Ok sigs, w2) ->
     sigs <> [] ->
     execute_signals sigs w2 = (Raise e, w3) ->
     d = [Call UpdateMarketData (Ok AUnit); Call CheckSignals (Ok AOpaque);
          Log LInfo (MsgSignals (length sigs)); Call ExecuteSignals (Raise e);
          Log LError (MsgStrategyError e); Sleep 10]) /\
  (forall w1 sigs w2,
     pair_manager (bot s) = true ->
     update_market_data (world s) = (Ok tt, w1) ->
     check_signals w1 = (Ok sigs, w2) ->
     count (is_call is_execute) d = (if sigs is [] then 0 else 1)%nat /\
     count is_signals_log d = (if sigs is [] then 0 else 1)%nat /\
     forall w3,
       (sigs = [] /\ w3 = w2) \/ (sigs <> [] /\ execute_signals sigs w2 = (Ok tt, w3)) ->
       bot s' = set_last_update (fst (clock w3))
                  (set_open_positions (Z.of_nat (length (positions w3))) (bot s)) /\
       count is_cycle_error d = 0%nat).
Proof.
  cbv zeta. unfold events_of. wp_start strategy_cycle s.
  unfold strategy_cycle. wp_run.
  all: rewrite <- ?app_assoc, ?drop_app_length; cbn [app].
  all: repeat first
         [ progress split_and!
         | progress intros
         | match goal with
           | H : _ /\ _ |- _ => destruct H
           | H : _ \/ _ |- _ => destruct H
           end ];
       path_facts; try congruence; try done.
  all: repeat match goal with
              | H : clock _ = _ |- _ => rewrite H; clear H
              end; cbn; try done; try lia.
  all: repeat match goal with a : unit |- _ => destruct a end.
  all: eexists _, _, _; split_and!; [done|eassumption|eassumption|done].
Qed.

(** ** The risk monitor without a snapshot, and its two drawdown limits *)

Lemma trailing_stops_quiet :
  keeps (silent is_high_drawdown_warning) trailing_stops /\
  keeps (silent is_critical_drawdown) trailing_stops /\
  keeps (silent is_pause_warning) trailing_stops.
Proof. split_and!; unfold trailing_stops; keeps_all. Qed.

Lemma wp_trailing_quiet (Q : Res unit -> St -> Prop) (s : St) :
  (forall r s' d,
     bot s' = bot s -> trace s' = trace s ++ d ->
     count is_high_drawdown_warning d = 0%nat ->
     count is_critical_drawdown d = 0%nat ->
     count is_pause_warning d = 0%nat ->
     count is_risk_monitor_error d = 0%nat ->
     Q r s') ->
  wp trailing_stops Q s.
Proof.
  intros H. destruct trailing_stops_frame as (Hg & Hb & _ & _ & _ & H4).
  destruct trailing_stops_quiet as (H1 & H2 & H3).
  apply (H _ _ (events_of trailing_stops s)).
  - apply Hb.
  - by apply events_of_grows.
  - by apply silent_count_zero.
  - by apply silent_count_zero.
  - by apply silent_count_zero.
  - by apply silent_count_zero.
Qed.

Ltac tiers_run :=
  repeat first
    [ wp_step
    | apply wp_trailing_quiet; intros [[]|?] ? ? ? ? ? ? ? ?; cbv beta iota;
      cbn [bot world trace] in * ].

Lemma risk_cycle_tiers (s : St) :
  let s' := snd (risk_monitor_cycle s) in
  let d := events_of risk_monitor_cycle s in
  (initial_balance (config (bot s)) = None \/ risk_manager (bot s) = false ->
     bot s' = bot s /\ world s' = world s /\
     exists e, d = [Log LError (MsgRiskMonitorError e); Sleep 60]) /\
  (forall capital e w1,
     initial_balance (config (bot s)) = Some capital ->
     risk_manager (bot s) = true ->
     get_risk_metrics capital (world s) = (Raise e, w1) ->
     bot s' = bot s /\
     d = [Call GetRiskMetrics (Raise e); Log LError (MsgRiskMonitorError e); Sleep 60]) /\
  (forall capital rm w1,
     initial_balance (config (bot s)) = Some capital ->
     risk_manager (bot s) = true ->
     get_risk_metrics capital (world s) = (Ok rm, w1) ->
     count is_high_drawdown_warning d =
       (if float_gt (current_drawdown rm) 0.15 then 1 else 0)%nat /\
     count is_critical_drawdown d =
       (if float_gt (current_drawdown rm) 0.20 then 1 else 0)%nat /\
     count is_pause_warning d =
       (if float_gt (current_drawdown rm) 0.20 then 1 else 0)%nat /\
     (float_gt (current_drawdown rm) 0.20 = false -> bot s' = bot s)).
Proof.
  cbv zeta. unfold events_of. wp_start risk_monitor_cycle s.
  unfold risk_monitor_cycle, drawdown_check, daily_loss_check, _pause_trading.
  tiers_run.
  all: framed; rewrite <- ?app_assoc, ?drop_app_length.
  all: repeat first
         [ progress split_and!
         | progress intros
         | match goal with
           | H : _ /\ _ |- _ => destruct H
           | H : _ \/ _ |- _ => destruct H
           end ];
       path_facts; try congruence; try done; eauto.
  all: try match goal with
       | |- context [float_gt (current_drawdown ?r) 0.20] =>
           destruct (float_gt (current_drawdown r) 0.20) eqn:Hcrit;
           [pose proof (critical_above_warning _ Hcrit)|]
       end; try congruence.
  all: rewrite ?count_app;
       repeat match goal with
       | H : count _ _ = 0%nat |- _ => rewrite H; clear H
       end; use_bools; cbn; try done.
Qed.

(** A NaN compares greater than nothing. *)
Lemma float_gt_nan (x y : float) : PrimFloat.is_nan x = true -> float_gt x y = false.
Proof.
  unfold PrimFloat.is_nan, float_gt.
  rewrite FloatAxioms.eqb_spec, FloatAxioms.ltb_spec.
  unfold SFeqb, SFltb.
  destruct (Prim2SF x) as [sg|sg| |sg m e]; cbn.
  - discriminate.
  - destruct sg; discriminate.
  - intros _. by destruct (Prim2SF y).
  - rewrite Z.compare_refl.
    change (PosDef.Pos.compare_cont Eq m m) with (Pos.compare m m).
    rewrite Pos.compare_refl. destruct sg; discriminate.
Qed.

(** X10. Without a risk snapshot the risk monitor does nothing. When the
    [initial_balance] entry is missing or there is no risk manager, the
    cycle calls no collaborator, leaves the bot and the world as they
    were, logs the risk monitor error and backs off for a minute. When the
    risk manager raises, the cycle likewise leaves the bot alone and does
    nothing after that call but log the error and back off: in neither
    case can it pause the bot. *)
Theorem risk_cycle_without_snapshot (s : St) :
  let s' := snd (risk_monitor_cycle s) in
  let d := events_of risk_monitor_cycle s in
  (initial_balance (config (bot s)) = None \/ risk_manager (bot s) = false ->
     bot s' = bot s /\ world s' = world s /\
     exists e, d = [Log LError (MsgRiskMonitorError e); Sleep 60]) /\
  (forall capital e w1,
     initial_balance (config (bot s)) = Some capital ->
     risk_manager (bot s) = true ->
     get_risk_metrics capital (world s) = (Raise e, w1) ->
     bot s' = bot s /\
     d = [Call GetRiskMetrics (Raise e); Log LError (MsgRiskMonitorError e); Sleep 60]).
Proof.
  cbv zeta. destruct (risk_cycle_tiers s) as (H1 & H2 & _). by split.
Qed.

(** X11. The two drawdown limits of the risk monitor. In a cycle that
    obtains its snapshot, the high-drawdown warning is logged exactly when
    the drawdown is above 0.15, and the critical line and the pause warning
    exactly when it is above 0.20; a drawdown above 0.20 is above 0.15, so
    the critical line never comes without the warning. A drawdown that is
    not above 0.20 leaves the bot as it was. A drawdown that is not a
    number is above neither limit: the cycle logs none of the three lines
    and leaves the bot as it was. *)
Theorem drawdown_limits_are_nested (s : St) (capital : float) (rm : RiskMetrics)
    (w1 : World) :
  initial_balance (config (bot s)) = Some capital ->
  risk_manager (bot s) = true ->
  get_risk_metrics capital (world s) = (Ok rm, w1) ->
  let s' := snd (risk_monitor_cycle s) in
  let d := events_of risk_monitor_cycle s in
  let dd := current_drawdown rm in
  count is_high_drawdown_warning d = (if float_gt dd 0.15 then 1 else 0)%nat /\
  count is_critical_drawdown d = (if float_gt dd 0.20 then 1 else 0)%nat /\
  count is_pause_warning d = (if float_gt dd 0.20 then 1 else 0)%nat /\
  (count is_critical_drawdown d <= count is_high_drawdown_warning d)%nat /\
  (float_gt dd 0.20 = false -> bot s' = bot s) /\
  (PrimFloat.is_nan dd = true ->
     count is_high_drawdown_warning d = 0%nat /\
     count is_critical_drawdown d = 0%nat /\
     count is_pause_warning d = 0%nat /\
     bot s' = bot s).
Proof.
  intros Hbal Hrisk Hget. cbv zeta.
  destruct (risk_cycle_tiers s) as (_ & _ & H).
  destruct (H _ _ _ Hbal Hrisk Hget) as (H1 & H2 & H3 & H4).
  rewrite H1, H2, H3. split_and!; try done.
  - destruct (float_gt (current_drawdown rm) 0.20) eqn:E; [|lia].
    by rewrite (critical_above_warning _ E).
  - intros Hnan. rewrite !(float_gt_nan _ _ Hnan). split_and!; try done.
    apply H4. by apply float_gt_nan.
Qed.

(** ** What a snapshot holds *)

Lemma state_value_inj (a b : BotState) : state_value a = state_value b -> a = b.
Proof. destruct a, b; cbn; intros H; try reflexivity; discriminate H. Qed.

(** X12. The snapshot [_save_state] writes. A call writes at most one
    snapshot, and only after the positions were obtained and the data
    directory was made; the line that reports the save is logged exactly
    when the write returned. The snapshot mirrors the status register of
    the moment: the state by its value, from which the state can be read
    back, the four counters, the clock read at the start of the call, the
    positions the pair manager handed over, and the last ten entries of the
    errors list, in order, or all of them when there are fewer. *)
Theorem snapshot_mirrors_status (s : St) :
  let d := events_of _save_state s in
  let st := status (bot s) in
  (count (is_call is_write) d <= 1)%nat /\
  (count (is_call is_write) d <= count (is_call is_mkdir) d)%nat /\
  (count (is_call is_mkdir) d <= count (is_call is_get_positions) d)%nat /\
  (count (is_call is_write) d = 1%nat ->
     count (raised is_mkdir) d = 0%nat /\ count (raised is_get_positions) d = 0%nat) /\
  (count is_state_saved d = 1%nat <->
     count (is_call is_write) d = 1%nat /\ count (raised is_write) d = 0%nat) /\
  (forall snap r,
     Call (WriteStateFile snap) r ∈ d ->
     snap_state snap = state_value (state st) /\
     snap_total_trades snap = total_trades st /\
     snap_open_positions snap = open_positions st /\
     snap_total_pnl snap = total_pnl st /\
     snap_daily_pnl snap = daily_pnl st /\
     snap_errors snap = slice_last 10 (errors st) /\
     snap_errors snap `suffix_of` errors st /\
     length (snap_errors snap) = Nat.min 10 (length (errors st)) /\
     snap_timestamp snap = fst (clock (world s)) /\
     exists w2, get_positions (snd (clock (world s))) = (Ok (snap_positions snap), w2)) /\
  (forall a b, state_value a = state_value b -> a = b).
Proof.
  cbv zeta. unfold events_of. wp_start _save_state s. unfold _save_state. cbv zeta.
  wp_run; bool_cases.
  all: rewrite <- ?app_assoc, ?drop_app_length; cbn [app].
  all: rewrite ?drop_all.
  all: split_and!; try apply state_value_inj; try (cbn; lia); try (cbn; done).
  all: intros snap r Hin; set_unfold in Hin; destruct_or?; simplify_eq.
  all: repeat match goal with
              | H : clock _ = _ |- _ => rewrite H; clear H
              end; cbn [fst snd].
  all: cbn [snap_state snap_total_trades snap_open_positions snap_total_pnl
            snap_daily_pnl snap_errors snap_timestamp snap_positions].
  all: split_and!; try done; eauto using slice_last_length.
  all: try apply suffix_drop.
Qed.

(** ** What a shutdown tears down *)

Lemma save_state_quiet :
  keeps (silent (is_call is_disconnect)) _save_state /\
  keeps (silent (is_call is_close)) _save_state /\
  keeps (silent (raised is_disconnect)) _save_state.
Proof. split_and!; unfold _save_state; cbv zeta; keeps_all. Qed.

Lemma wp_save_state (Q : Res unit -> St -> Prop) (s : St) :
  (forall s' d,
     bot s' = bot s -> trace s' = trace s ++ d ->
     count (is_call is_disconnect) d = 0%nat ->
     count (is_call is_close) d = 0%nat ->
     count (raised is_disconnect) d = 0%nat ->
     (pair_manager (bot s) = false -> d = []) ->
     Q (Ok tt) s') ->
  wp _save_state Q s.
Proof.
  intros H. unfold wp. rewrite save_state_returns.
  destruct save_state_quiet as (H1 & H2 & H3).
  apply (H _ (events_of _save_state s)).
  - apply save_state_keeps_bot.
  - apply events_of_grows, save_state_grows.
  - apply silent_count_zero; [apply save_state_grows | done].
  - apply silent_count_zero; [apply save_state_grows | done].
  - apply silent_count_zero; [apply save_state_grows | done].
  - apply save_state_failures.
Qed.

Ltac shutdown_run :=
  repeat first
    [ apply wp_save_state; intros ? ? ? ? ? ? ? ?; cbn [bot world trace] in *
    | wp_step ].

(** X13. What [shutdown] tears down. The feed is disconnected exactly when
    there is one; the exchange is closed exactly when there is one and the
    feed's disconnect did not raise: an exception in the disconnect skips
    the close and the connection to the exchange is left open. Shutdown
    changes nothing in the bot but the state and the event; in particular
    it records nothing in the errors list, not even when it ends in ERROR.
    On a bot without collaborators it calls nothing, logs its two lines
    and ends STOPPED. *)
Theorem shutdown_tears_down_what_is_there (s : St) :
  let s' := snd (shutdown s) in
  let d := events_of shutdown s in
  count (is_call is_disconnect) d = (if websocket_feed (bot s) then 1 else 0)%nat /\
  count (is_call is_close) d =
    (if exchange (bot s) && (count (raised is_disconnect) d =? 0)%nat
     then 1 else 0)%nat /\
  (count (raised is_disconnect) d <> 0%nat ->
     count (is_call is_close) d = 0%nat /\ state (status (bot s')) = ERROR) /\
  bot s' = set_shutdown_event true (set_state (state (status (bot s'))) (bot s)) /\
  errors (status (bot s')) = errors (status (bot s)) /\
  (websocket_feed (bot s) = false -> exchange (bot s) = false ->
   pair_manager (bot s) = false ->
     d = [Log LInfo MsgStopping; Log LInfo MsgStopped] /\
     state (status (bot s')) = STOPPED).
Proof.
  cbv zeta. unfold events_of. wp_start shutdown s. unfold shutdown.
  shutdown_run.
  all: framed; rewrite <- ?app_assoc, ?drop_app_length.
  all: repeat match goal with
              | H : bot ?s1 = _, H2 : context [bot ?s1] |- _ => rewrite H in H2
              end; setters; try congruence.
  all: rewrite ?count_app;
       repeat match goal with
              | H : count _ _ = 0%nat |- _ => rewrite H
              end; cbn; use_bools; cbn.
  all: split_and!; intros; try done; try congruence.
  all: try match goal with
       | H : pair_manager _ = false -> _ = [] |- _ => rewrite H by done
       end; try done.
  by rewrite andb_false_r.
Qed.

(** ** The shutdown event *)

Lemma keeps_event_start : keeps (same _shutdown_event) start.
Proof. unfold start. keeps_all. Qed.

Lemma keeps_event_handler (update : MarketUpdate Payload) :
  keeps (same _shutdown_event) (_handle_market_update update).
Proof. unfold _handle_market_update, cache_update. keeps_all. Qed.

Lemma keeps_event_pause : keeps (same _shutdown_event) _pause_trading.
Proof. unfold _pause_trading. keeps_all. Qed.

Lemma shutdown_sets_event (s : St) : _shutdown_event (bot (snd (shutdown s))) = true.
Proof. by destruct (shutdown_paths s) as (d & _ & _ & H & _). Qed.

(** X14. Nothing clears the shutdown event. Once it is set it is still set
    after [initialize], after [start], after another [shutdown], after a
    cycle of any loop, after a market update and after a pause: each of
    them leaves the event as it was, or sets it. A bot whose event is set
    therefore has a market scanner that returns at its first turn,
    whatever else has been called since. *)
Theorem shutdown_event_is_never_cleared (s : St) :
  _shutdown_event (bot s) = true ->
  _shutdown_event (bot (snd (initialize s))) = true /\
  _shutdown_event (bot (snd (start s))) = true /\
  _shutdown_event (bot (snd (shutdown s))) = true /\
  (forall l, _shutdown_event (bot (snd (cycle l s))) = true) /\
  (forall update, _shutdown_event (bot (snd (_handle_market_update update s))) = true) /\
  _shutdown_event (bot (snd (_pause_trading s))) = true /\
  loop_step Scanner s = None /\
  (forall fuel, run_task (S fuel) Scanner s = Some (Ended (Ok tt), s)).
Proof.
  intros H.
  destruct (initialize_paths s) as (d & _ & _ & Hi & _).
  assert (Hstep : loop_step Scanner s = None)
    by (unfold loop_step; cbn [alive]; by rewrite H).
  split_and!.
  - by rewrite Hi.
  - by rewrite (keeps_event_start s).
  - apply shutdown_sets_event.
  - intros l. by rewrite (cycle_keeps_event l s).
  - intros update. by rewrite (keeps_event_handler update s).
  - by rewrite (keeps_event_pause s).
  - done.
  - intros fuel. unfold run_task. cbn [run_loop]. by rewrite Hstep.
Qed.

Lemma shutdown_tears_down_frame (s : St) :
  bot (snd (shutdown s)) =
    set_shutdown_event true
      (set_state (state (status (bot (snd (shutdown s))))) (bot s)).
Proof.
  unfold events_of. wp_start shutdown s. unfold shutdown.
  shutdown_run.
  all: framed; done.
Qed.

(** X15. A bot that was shut down can be started again, but not as it
    was. [start] after [shutdown] is accepted, from STOPPED as from ERROR,
    and moves the bot to RUNNING; the shutdown event is still set, so the
    market scanner of the restarted bot returns at its first turn while the
    four other loops run; and [start] builds and reconnects nothing, so
    the collaborators are the ones that were just torn down. *)
Theorem restart_after_shutdown (s : St) :
  let s1 := snd (shutdown s) in
  let s2 := snd (start s1) in
  state (status (bot s2)) = RUNNING /\
  _shutdown_event (bot s2) = true /\
  loop_step Scanner s2 = None /\
  (forall fuel, run_task (S fuel) Scanner s2 = Some (Ended (Ok tt), s2)) /\
  (forall l, l <> Scanner -> alive l (bot s2) = true) /\
  (forall c, has c (bot s2) = has c (bot s)) /\
  count (is_call any_method) (events_of start s1) = 0%nat.
Proof.
  cbv zeta.
  destruct (shutdown_paths s) as (d & _ & _ & He & Hst & _).
  pose proof (shutdown_tears_down_frame s) as Hb.
  pose proof (start_paths _ Hst) as Hs.
  assert (Hev : _shutdown_event (bot (snd (start (snd (shutdown s))))) = true)
    by (by rewrite Hs).
  assert (Hrun : state (status (bot (snd (start (snd (shutdown s)))))) = RUNNING)
    by (by rewrite Hs).
  assert (Hstep : loop_step Scanner (snd (start (snd (shutdown s)))) = None)
    by (unfold loop_step; cbn [alive]; by rewrite Hev).
  split_and!; try done.
  - intros fuel. unfold run_task. cbn [run_loop]. by rewrite Hstep.
  - intros l Hl. destruct l; cbn [alive]; by rewrite ?Hrun.
  - intros c. rewrite Hs, Hb. by destruct c.
  - apply silent_count_zero.
    + unfold start. keeps_all.
    + unfold start. keeps_all.
Qed.

(** ** The performance tracker *)

Lemma daily_pnl_sum_returns perf acc (s : St) :
  is_raise (fst (daily_pnl_sum perf acc s)) = false.
Proof.
  revert acc s. induction perf as [|[sym entry] perf IH]; intros acc s; cbn; [done|].
  destruct (last_trade entry) as [t|]; [|apply IH].
  rewrite bind_eq. unfold now_. destruct (clock (world s)) as [now w'].
  destruct (now - t <? us_per_day); apply IH.
Qed.

Lemma daily_pnl_frame :
  keeps grows _calculate_daily_pnl /\
  keeps (same id) _calculate_daily_pnl /\
  keeps (silent is_performance_log) _calculate_daily_pnl /\
  keeps (silent is_cycle_error) _calculate_daily_pnl /\
  keeps (silent (is_call is_persistence)) _calculate_daily_pnl /\
  keeps (silent (is_call is_write)) _calculate_daily_pnl.
Proof. split_and!; unfold _calculate_daily_pnl; frame_all. Qed.

Lemma wp_daily_pnl (Q : Res float -> St -> Prop) (s : St) :
  (forall r s' d,
     bot s' = bot s -> trace s' = trace s ++ d ->
     count is_performance_log d = 0%nat ->
     count is_cycle_error d = 0%nat ->
     count (is_call is_persistence) d = 0%nat ->
     count (is_call is_write) d = 0%nat ->
     (pair_manager (bot s) = true -> is_raise r = false) ->
     Q r s') ->
  wp _calculate_daily_pnl Q s.
Proof.
  intros H. destruct daily_pnl_frame as (Hg & Hb & H1 & H2 & H3 & H4).
  apply (H _ _ (events_of _calculate_daily_pnl s)).
  - apply Hb.
  - by apply events_of_grows.
  - by apply silent_count_zero.
  - by apply silent_count_zero.
  - by apply silent_count_zero.
  - by apply silent_count_zero.
  - intros Hpm. unfold _calculate_daily_pnl. rewrite bind_eq.
    unfold call, sys_call. cbn [has]. rewrite Hpm. apply daily_pnl_sum_returns.
Qed.

Lemma save_state_frame2 :
  keeps (silent is_performance_log) _save_state /\
  keeps (silent is_cycle_error) _save_state.
Proof. split_and!; unfold _save_state; cbv zeta; keeps_all. Qed.

Lemma save_state_writes_once (s : St) :
  (count (is_call is_write) (events_of _save_state s) <= 1)%nat.
Proof.
  unfold events_of. wp_start _save_state s. unfold _save_state. cbv zeta.
  wp_run; bool_cases.
  all: rewrite <- ?app_assoc, ?drop_app_length, ?drop_all; cbn; lia.
Qed.

Lemma wp_save_state_tracker (Q : Res unit -> St -> Prop) (s : St) :
  (forall s' d,
     bot s' = bot s -> trace s' = trace s ++ d ->
     count is_performance_log d = 0%nat ->
     count is_cycle_error d = 0%nat ->
     (count (is_call is_write) d <= 1)%nat ->
     Q (Ok tt) s') ->
  wp _save_state Q s.
Proof.
  intros H. unfold wp. rewrite save_state_returns.
  destruct save_state_frame2 as (H1 & H2).
  apply (H _ (events_of _save_state s)).
  - apply save_state_keeps_bot.
  - apply events_of_grows, save_state_grows.
  - apply silent_count_zero; [apply save_state_grows | done].
  - apply silent_count_zero; [apply save_state_grows | done].
  - apply save_state_writes_once.
Qed.

Ltac tracker_run :=
  repeat first
    [ apply wp_daily_pnl; intros [?|?] ? ? ? ? ? ? ? ? ?; cbn [bot world trace] in *
    | apply wp_save_state_tracker; intros ? ? ? ? ? ? ?; cbn [bot world trace] in *
    | wp_step ].

(** X16. One cycle of the performance tracker. When the pair manager
    hands over its summary, the cycle goes through: the trade count and the
    total result of the status register are those of the summary, the
    performance line is logged exactly when the summary counts at least one
    trade, no cycle error is logged, and the state is saved at most once,
    and not at all when [save_state] is off. When the summary call raises,
    or there is no pair manager to ask, the cycle leaves the bot exactly as
    it was and does nothing more than log the cycle error and sleep. *)
Theorem performance_cycle_mirrors_summary (s : St) :
  let s' := snd (performance_tracker_cycle s) in
  let d := events_of performance_tracker_cycle s in
  (forall e w1,
     pair_manager (bot s) = true ->
     get_performance_summary (world s) = (Raise e, w1) ->
     bot s' = bot s /\
     d = [Call GetPerformanceSummary (Raise e); Log LError (MsgPerformanceError e);
          Sleep 300]) /\
  (pair_manager (bot s) = false ->
     bot s' = bot s /\
     exists e, d = [Log LError (MsgPerformanceError e); Sleep 300]) /\
  (count (is_call is_write) d <= 1)%nat /\
  (save_state (config (bot s)) = false -> count (is_call is_write) d = 0%nat) /\
  (forall perf w1,
     pair_manager (bot s) = true ->
     get_performance_summary (world s) = (Ok perf, w1) ->
     total_trades (status (bot s')) = ps_total_trades perf /\
     total_pnl (status (bot s')) = ps_total_pnl perf /\
     count is_performance_log d = (if (0 <? ps_total_trades perf)%Z then 1%nat else 0%nat) /\
     count is_cycle_error d = 0%nat).
Proof.
  cbv zeta. unfold events_of. wp_start performance_tracker_cycle s.
  unfold performance_tracker_cycle. tracker_run.
  all: framed; rewrite <- ?app_assoc, ?drop_app_length.
  all: repeat match goal with
              | H : bot ?s1 = _, H2 : context [bot ?s1] |- _ => rewrite H in H2
              end; setters.
  all: repeat match goal with
              | H : ?P -> is_raise _ = false, H' : ?P |- _ => specialize (H H')
              end;
       try match goal with
           | H : is_raise (Raise _) = false |- _ => discriminate H
           end.
  all: rewrite ?count_app;
       repeat match goal with
              | H : count _ _ = 0%nat |- _ => rewrite H
              end; cbn.
  all: repeat first [ progress split_and! | progress intros ];
       path_facts; use_bools; try congruence; try done; try lia.
  all: try (eexists; reflexivity).
Qed.

(** ** The daily result *)

Lemma daily_pnl_sum_spec perf acc (s : St) :
  exists d, trace (snd (daily_pnl_sum perf acc s)) = trace s ++ d /\
    count is_now d = length (List.filter has_last_trade perf) /\
    (List.filter has_last_trade perf = [] -> fst (daily_pnl_sum perf acc s) = Ok acc) /\
    (forall t, (forall w, clock w = (t, w)) ->
       fst (daily_pnl_sum perf acc s) = Ok (fold_left (daily_share t) perf acc)).
Proof.
  revert acc s. induction perf as [|[sym entry] perf IH]; intros acc s.
  - exists []. cbn. rewrite app_nil_r. done.
  - cbn [daily_pnl_sum fold_left]. unfold daily_share at 2.
    assert (Hfil : List.filter has_last_trade ((sym, entry) :: perf) =
                   (if last_trade entry is Some _ then [(sym, entry)] else []) ++
                   List.filter has_last_trade perf)
      by (cbn; unfold has_last_trade; cbn; by destruct (last_trade entry)).
    rewrite Hfil. clear Hfil. cbn [snd].
    destruct (last_trade entry) as [lt|].
    + rewrite bind_eq. unfold now_. destruct (clock (world s)) as [now w'] eqn:Hc.
      assert (Hnow : forall t, (forall w, clock w = (t, w)) -> now = t).
      { intros t Ht. rewrite Ht in Hc. congruence. }
      cbv beta iota.
      match goal with |- context [(if ?c then daily_pnl_sum perf ?a
                                   else daily_pnl_sum perf ?b) ?s1] =>
        assert (Hif : (if c then daily_pnl_sum perf a else daily_pnl_sum perf b) s1
                      = daily_pnl_sum perf (if c then a else b) s1)
          by (by destruct c);
        rewrite Hif; clear Hif;
        destruct (IH (if c then a else b) s1) as (d & Hd & Hn & _ & Hf)
      end.
      cbn [trace] in Hd. exists (Now now :: d). rewrite Hd, <- app_assoc.
      split; [done|].
      split; [change (Now now :: d) with ([Now now] ++ d);
              by rewrite count_app, Hn, length_app|].
      split; [done|].
      intros t Ht. rewrite (Hf t Ht). by rewrite <- (Hnow t Ht).
    + destruct (IH acc s) as (d & Hd & Hn & Hz & Hf). exists d. done.
Qed.

(** X17. The daily result. Without a pair manager [_calculate_daily_pnl]
    raises before it does anything. With one it returns, having left the
    bot as it was and having read the clock once for each pair that has a
    last trade: each pair's age is measured against its own reading. With
    no pair that has traded, the result is zero. With the clock standing at
    [t], the result is the sum, in the order of the pairs, of a tenth of
    the result of each pair whose last trade is less than a day before [t];
    a pair without a last trade, or with one a day old or older, adds
    nothing. *)
Theorem daily_pnl_counts_recent_trades (s : St) :
  let r := fst (_calculate_daily_pnl s) in
  let s' := snd (_calculate_daily_pnl s) in
  let d := events_of _calculate_daily_pnl s in
  let perf := performance (world s) in
  bot s' = bot s /\
  (pair_manager (bot s) = false -> is_raise r = true /\ d = []) /\
  (pair_manager (bot s) = true ->
     is_raise r = false /\
     count is_now d = length (List.filter has_last_trade perf) /\
     (List.filter has_last_trade perf = [] -> r = Ok 0%float) /\
     (forall t, (forall w, clock w = (t, w)) ->
        r = Ok (fold_left (daily_share t) perf 0%float))).
Proof.
  cbv zeta. split; [apply daily_pnl_frame|].
  unfold events_of, _calculate_daily_pnl. rewrite bind_eq.
  unfold call, sys_call. cbn [has].
  destruct (pair_manager (bot s)); split; try done.
  - intros _. cbn [fst snd].
    match goal with |- context [daily_pnl_sum ?p ?a ?s1] =>
      destruct (daily_pnl_sum_spec p a s1) as (d & Hd & Hn & Hz & Hf);
      pose proof (daily_pnl_sum_returns p a s1) as Hr end.
    cbn [trace] in Hd. rewrite Hd, <- app_assoc, drop_app_length.
    split; [done|]. split; [by rewrite count_app|]. done.
  - intros _. cbn. by rewrite drop_all.
Qed.

(** ** A stream of market updates *)

Lemma handler_paths (update : MarketUpdate Payload) (s : St) :
  fst (_handle_market_update update s) = Ok tt /\
  bot (snd (_handle_market_update update s)) =
    counted (if is_raise (fst (cache_update update s)) then 0 else 1) (bot s) /\
  (is_trades update = true -> is_raise (fst (cache_update update s)) = false) /\
  (market_data (bot s) = false ->
     is_raise (fst (cache_update update s)) = negb (is_trades update)).
Proof.
  destruct (cache_update_frame update) as (_ & Hb & _ & _).
  specialize (Hb s). unfold same, id in Hb.
  split; [apply try_except_returns; reflexivity|].
  split.
  - wp_start (_handle_market_update update) s. unfold _handle_market_update.
    apply wp_try_except, wp_bind. unfold wp at 1.
    destruct (cache_update update s) as [[[]|e] s1]; cbn [fst snd] in *.
    + wp_run; by rewrite Hb.
    + wp_run. by rewrite Hb.
  - unfold cache_update, is_trades, call. cbn [has].
    destruct (data_type update); split; try done.
    + intros ->. done.
    + intros ->. done.
Qed.

Lemma counted_counted (j k : nat) (b : Bot) :
  counted k (counted j b) = counted (j + k) b.
Proof.
  destruct j as [|j]; [done|]. destruct k as [|k]; [by rewrite Nat.add_0_r|].
  unfold counted, ws_updates. setters. cbn [Nat.add].
  rewrite lookup_insert_eq, insert_insert_eq. cbn [default].
  do 3 f_equal. unfold id. lia.
Qed.

Lemma counted_frame (k : nat) (b : Bot) :
  ws_updates (counted k b) = ws_updates b + Z.of_nat k /\
  market_data (counted k b) = market_data b /\
  state (status (counted k b)) = state (status b) /\
  errors (status (counted k b)) = errors (status b) /\
  (forall key, key <> "ws_updates" ->
     metrics (status (counted k b)) !! key = metrics (status b) !! key).
Proof.
  destruct k as [|k]; cbn [counted].
  - split_and!; try done. lia.
  - unfold ws_updates. setters. rewrite lookup_insert_eq. split_and!; try done.
    intros key Hk. by rewrite lookup_insert_ne.
Qed.

Lemma updates_paths (updates : list (MarketUpdate Payload)) (s : St) :
  let c := for_each updates _handle_market_update in
  exists k : nat,
    fst (c s) = Ok tt /\
    bot (snd (c s)) = counted k (bot s) /\
    (length (List.filter is_trades updates) <= k <= length updates)%nat /\
    (market_data (bot s) = false -> k = length (List.filter is_trades updates)).
Proof.
  cbv zeta. revert s. induction updates as [|u updates IH]; intros s.
  - exists 0%nat. cbn. split_and!; try done; lia.
  - cbn [for_each]. rewrite bind_eq.
    destruct (handler_paths u s) as (Hr & Hb & Ht & Hm).
    destruct (_handle_market_update u s) as [r s1]. cbn [fst snd] in Hr, Hb. subst r.
    destruct (IH s1) as (k & Hk1 & Hk2 & Hk3 & Hk4).
    exists ((if is_raise (fst (cache_update u s)) then 0 else 1) + k)%nat.
    split; [done|]. rewrite Hk2, Hb, counted_counted. split; [done|].
    cbn [List.filter length].
    destruct (is_trades u) eqn:Hu.
    + rewrite (Ht eq_refl). cbn [length]. split; [lia|].
      intros Hmd. rewrite Hk4; [done|].
      rewrite Hb. by rewrite (proj1 (proj2 (counted_frame _ _))).
    + split; [destruct (is_raise _); cbn; lia|].
      intros Hmd. rewrite (Hm Hmd). cbn. rewrite Hk4; [done|].
      rewrite Hb. by rewrite (proj1 (proj2 (counted_frame _ _))).
Qed.

(** X18. A stream of market updates handled one after the other. The
    handler never raises, and all it ever changes in the bot is the
    [ws_updates] counter: the state, the errors list and every other metric
    stay as they were. The counter goes up by one for each update counted,
    so by at least the number of trades updates, which are always counted,
    and at most the number of updates. On a bot without market data, where
    every ticker and order book update fails, it goes up by exactly the
    number of trades updates. *)
Theorem updates_are_counted_one_by_one (updates : list (MarketUpdate Payload)) (s : St) :
  let c := for_each updates _handle_market_update in
  let s' := snd (c s) in
  let trades := Z.of_nat (length (List.filter is_trades updates)) in
  fst (c s) = Ok tt /\
  ws_updates (bot s) + trades <= ws_updates (bot s') <=
    ws_updates (bot s) + Z.of_nat (length updates) /\
  (market_data (bot s) = false -> ws_updates (bot s') = ws_updates (bot s) + trades) /\
  state (status (bot s')) = state (status (bot s)) /\
  errors (status (bot s')) = errors (status (bot s)) /\
  (forall key, key <> "ws_updates" ->
     metrics (status (bot s')) !! key = metrics (status (bot s)) !! key) /\
  set_metrics (metrics (status (bot s))) (bot s') = bot s.
Proof.
  cbv zeta. destruct (updates_paths updates s) as (k & Hr & Hb & Hk & Hm).
  cbv zeta in Hr, Hb. rewrite Hb.
  destruct (counted_frame k (bot s)) as (Hw & _ & Hs & He & Hkeys).
  rewrite Hw, Hs, He. split_and!; try done; try lia.
  - intros Hmd. rewrite (Hm Hmd). done.
  - destruct k; cbn [counted]; setters; by destruct (bot s) as [? ? []].
Qed.

(** ** The date of the last daily reset *)

Lemma check_daily_reset_bot (s : St) :
  bot (snd (_check_daily_reset s)) = bot s \/
  exists t, bot (snd (_check_daily_reset s)) = set_last_daily_reset t (bot s).
Proof.
  wp_start _check_daily_reset s. unfold _check_daily_reset. wp_run; eauto.
Qed.

(** X19. The date of the last daily reset. The first check, made while the
    date is not yet recorded, only records the clock and resets nothing.
    From then on a date is always recorded, and a check either keeps it or
    replaces it by the clock it has just read, which it does only for a
    later calendar date: the recorded date never goes back, and a clock
    that stands on the recorded day or before it makes the check do
    nothing, whatever the time of day. The check touches nothing else in
    the bot. *)
Theorem daily_reset_date_only_advances (s : St) :
  let s' := snd (_check_daily_reset s) in
  let d := events_of _check_daily_reset s in
  let now := fst (clock (world s)) in
  let last := _last_daily_reset (bot s) in
  let last' := _last_daily_reset (bot s') in
  (last = None -> last' = Some now /\ count (is_call is_reset) d = 0%nat) /\
  (forall l, last = Some l ->
     (last' = Some l \/ last' = Some now /\ date l < date now) /\
     (date now <= date l -> last' = Some l /\ count (is_call is_reset) d = 0%nat)) /\
  last' <> None /\
  (count (is_call is_reset) d <= 1)%nat /\
  (bot s' = bot s \/ exists t, bot s' = set_last_daily_reset t (bot s)).
Proof.
  cbv zeta. split_and!; [| | | |apply check_daily_reset_bot].
  all: destruct (check_daily_reset_paths s) as (d & Hd & H); cbv zeta in H.
  all: rewrite ?(events_of_eq _ _ _ Hd).
  all: try rewrite <- (count_filter_sub _ _ d count_is_reset_sub).
  - intros Hl. rewrite Hl in H. destruct H as [-> ->]. done.
  - intros l Hl. rewrite Hl in H.
    destruct ((date l <? date (fst (clock (world s)))) && risk_manager (bot s)) eqn:E.
    + destruct H as (r & -> & ->). apply andb_true_iff in E as [E _].
      apply Z.ltb_lt in E. split; [destruct r; auto|]. lia.
    + destruct H as [-> ->]. split; [by left|]. done.
  - destruct (_last_daily_reset (bot s)) as [l|].
    + destruct ((date l <? date (fst (clock (world s)))) && risk_manager (bot s)).
      * destruct H as (r & _ & ->). by destruct r.
      * destruct H as [_ ->]. done.
    + destruct H as [_ ->]. done.
  - destruct (_last_daily_reset (bot s)) as [l|].
    + destruct ((date l <? date (fst (clock (world s)))) && risk_manager (bot s)).
      * destruct H as (r & -> & _). cbn. lia.
      * destruct H as [-> _]. cbn. lia.
    + destruct H as [-> _]. cbn. lia.
Qed.

(** ** The trailing-stop pass *)

(** The pass is the body [trailing_stop_for] run over the positions. *)
Lemma trailing_stops_eq :
  trailing_stops =
  bind (call CPairManager Positions (fun _ => AOpaque)
          (fun w => (Ok (positions w), w)))
    (fun syms => for_each syms trailing_stop_for).
Proof. reflexivity. Qed.

Lemma trailing_stop_for_paths (sym : string) (s : St) :
  let c := trailing_stop_for sym in
  exists d, trace (snd (c s)) = trace s ++ d /\
    bot (snd (c s)) = bot s /\
    tickers_asked d = (if websocket_feed (bot s) then [sym] else []) /\
    (fst (c s) = Ok tt -> websocket_feed (bot s) = true) /\
    (websocket_feed (bot s) = false -> d = []) /\
    stops_asked d `sublist_of` tickers_asked d /\
    stops_set d `sublist_of` stops_asked d /\
    (stops_logged d).*1 = stops_set d /\
    Forall (fun x => float_truthy x.2 = true) (stops_logged d).
Proof.
  cbv zeta. wp_start (trailing_stop_for sym) s.
  unfold trailing_stop_for. wp_run; path_events.
  all: cbn; use_bools; cbn.
  all: split_and!; try done; try (by repeat constructor).
Qed.

Lemma trailing_each_paths (syms : list string) (s : St) :
  let c := for_each syms trailing_stop_for in
  exists d, trace (snd (c s)) = trace s ++ d /\
    bot (snd (c s)) = bot s /\
    tickers_asked d `prefix_of` syms /\
    (fst (c s) = Ok tt -> tickers_asked d = syms) /\
    (websocket_feed (bot s) = false -> d = []) /\
    (websocket_feed (bot s) = false -> syms <> [] -> is_raise (fst (c s)) = true) /\
    stops_asked d `sublist_of` tickers_asked d /\
    stops_set d `sublist_of` stops_asked d /\
    (stops_logged d).*1 = stops_set d /\
    Forall (fun x => float_truthy x.2 = true) (stops_logged d).
Proof.
  cbv zeta. revert s. induction syms as [|sym syms IH]; intros s; cbn [for_each].
  - exists []. rewrite app_nil_r. split_and!; try done; constructor.
  - rewrite bind_eq.
    destruct (trailing_stop_for_paths sym s)
      as (d1 & Hd1 & Hb1 & Ht1 & Hok1 & Hn1 & Ha1 & Hs1 & Hl1 & Hf1).
    cbv zeta in *.
    destruct (trailing_stop_for sym s) as [[[]|e] s1]; cbn [fst snd] in *.
    + destruct (IH s1) as (d2 & Hd2 & Hb2 & Ht2 & Hok2 & Hn2 & Hr2 & Ha2 & Hs2 & Hl2 & Hf2).
      exists (d1 ++ d2). rewrite Hd2, Hd1, Hb2, Hb1, app_assoc.
      rewrite Hok1 in Ht1 by done.
      unfold tickers_asked, stops_asked, stops_set, stops_logged in *.
      rewrite !omap_app, fmap_app.
      split_and!; try done.
      * rewrite Ht1. by apply prefix_cons.
      * intros H. rewrite Ht1, (Hok2 H). done.
      * intros Hf. rewrite Hok1 in Hf; done.
      * intros Hf. rewrite Hok1 in Hf; done.
      * by apply sublist_app.
      * by apply sublist_app.
      * congruence.
      * by apply Forall_app_2.
    + exists d1. split_and!; try done.
      * rewrite Ht1. destruct (websocket_feed (bot s)); [apply prefix_cons|]; apply prefix_nil.
Qed.

Lemma trailing_stops_paths (s : St) :
  let c := trailing_stops in
  exists d, trace (snd (c s)) = trace s ++ d /\
    bot (snd (c s)) = bot s /\
    (pair_manager (bot s) = false -> d = [] /\ is_raise (fst (c s)) = true) /\
    tickers_asked d `prefix_of` positions (world s) /\
    (fst (c s) = Ok tt -> tickers_asked d = positions (world s)) /\
    (websocket_feed (bot s) = false ->
       tickers_asked d = [] /\
       (pair_manager (bot s) = true -> positions (world s) <> [] ->
          is_raise (fst (c s)) = true)) /\
    stops_asked d `sublist_of` tickers_asked d /\
    stops_set d `sublist_of` stops_asked d /\
    (stops_logged d).*1 = stops_set d /\
    Forall (fun x => float_truthy x.2 = true) (stops_logged d).
Proof.
  cbv zeta. rewrite trailing_stops_eq, bind_eq. unfold call, sys_call. cbn [has].
  destruct (pair_manager (bot s)) eqn:Hpm.
  - match goal with |- context [for_each _ _ ?s1] =>
      destruct (trailing_each_paths (positions (world s)) s1)
        as (d & Hd & Hb & Ht & Hok & Hn & Hr & Ha & Hs & Hl & Hf) end.
    cbv zeta in *. cbn [bot trace] in *.
    exists (Call Positions (Ok AOpaque) :: d).
    rewrite Hd, Hb, <- app_assoc. split_and!; try done.
    intros Hfeed. rewrite (Hn Hfeed). split; [done|]. intros _. by apply Hr.
  - exists []. cbn. rewrite app_nil_r. split_and!; try done.
    apply prefix_nil.
Qed.

(** X20. The trailing-stop pass of the risk monitor follows the positions
    of the pair manager. The tickers it asks of the feed are those of a
    prefix of the positions, in order, and of all of them when the pass
    returns: the first step that raises ends the pass, and the positions
    after it are not looked at. A new stop is asked of the risk manager only
    for a position whose ticker was asked, a stop-loss is overwritten only
    for a position whose new stop was asked, and every overwritten
    stop-loss is reported, with a stop that is not zero: a stop of zero is
    dropped. The bot itself is never touched; without a pair manager the
    pass raises before any call, and without a feed no ticker is asked and
    no stop is moved. *)
Theorem trailing_stops_follow_positions (s : St) :
  let r := fst (trailing_stops s) in
  let d := events_of trailing_stops s in
  bot (snd (trailing_stops s)) = bot s /\
  (pair_manager (bot s) = false -> d = [] /\ is_raise r = true) /\
  tickers_asked d `prefix_of` positions (world s) /\
  (r = Ok tt -> tickers_asked d = positions (world s)) /\
  (websocket_feed (bot s) = false ->
     tickers_asked d = [] /\ stops_set d = [] /\
     (pair_manager (bot s) = true -> positions (world s) <> [] -> is_raise r = true)) /\
  stops_asked d `sublist_of` tickers_asked d /\
  stops_set d `sublist_of` stops_asked d /\
  (stops_logged d).*1 = stops_set d /\
  Forall (fun x => float_truthy x.2 = true) (stops_logged d).
Proof.
  cbv zeta.
  destruct (trailing_stops_paths s)
    as (d & Hd & Hb & Hpm & Ht & Hok & Hfeed & Ha & Hs & Hl & Hf).
  cbv zeta in *. rewrite (events_of_eq _ _ _ Hd).
  split_and!; try done.
  intros Hw. destruct (Hfeed Hw) as [Hno Hr]. split; [done|]. split; [|done].
  rewrite Hno in Ha. apply sublist_nil_r in Ha. rewrite Ha in Hs.
  by apply sublist_nil_r in Hs.
Qed.

(** ** The status report *)

Lemma snapshot_of_status (s : St) (snap : PersistedSnapshot PositionsDump)
    (r : Res Answer) :
  Call (WriteStateFile snap) r ∈ events_of _save_state s ->
  snap_state snap = state_value (state (status (bot s))) /\
  snap_total_trades snap = total_trades (status (bot s)) /\
  snap_open_positions snap = open_positions (status (bot s)) /\
  snap_total_pnl snap = total_pnl (status (bot s)) /\
  snap_daily_pnl snap = daily_pnl (status (bot s)) /\
  snap_errors snap = slice_last 10 (errors (status (bot s))).
Proof.
  revert snap r. unfold events_of. wp_start _save_state s. unfold _save_state. cbv zeta.
  wp_run; bool_cases.
  all: rewrite <- ?app_assoc, ?drop_app_length; cbn [app].
  all: rewrite ?drop_all.
  all: intros snap r Hin; set_unfold in Hin; destruct_or?; simplify_eq.
  all: done.
Qed.

Lemma wp_attribute {A} (f : World -> A) Q s :
  Q (Ok (f (world s))) s -> wp (attribute f) Q s.
Proof. exact (fun H => H). Qed.

Lemma get_status_paths (strategies : World -> list string)
    (strategy_name : option string) (s : St) :
  let c := get_status strategies strategy_name in
  let st := status (bot s) in
  exists d, trace (snd (c s)) = trace s ++ d /\
    bot (snd (c s)) = bot s /\
    count (is_call is_feed_metrics) d = (if websocket_feed (bot s) then 1 else 0)%nat /\
    (count (is_call is_summary) d <= 1)%nat /\
    (pair_manager (bot s) = false -> count (is_call is_summary) d = 0%nat) /\
    count is_any_log d = 0%nat /\
    (count (raised any_method) d <> 0%nat -> is_raise (fst (c s)) = true) /\
    (strategy_name = None -> is_raise (fst (c s)) = true) /\
    (forall rep, fst (c s) = Ok rep ->
       rep_state rep = state_value (state st) /\
       rep_uptime rep = fst (clock (world s)) - start_time st /\
       rep_start_time rep = start_time st /\
       rep_last_update rep = last_update st /\
       rep_paper_trading rep = paper_trading (bot s) /\
       rep_total_trades rep = total_trades st /\
       rep_open_positions rep = open_positions st /\
       rep_total_pnl rep = total_pnl st /\
       rep_daily_pnl rep = daily_pnl st /\
       rep_errors rep = slice_last 10 (errors st) /\
       (rep_websocket rep = None <-> websocket_feed (bot s) = false) /\
       (rep_performance rep = None <-> pair_manager (bot s) = false) /\
       (pair_manager (bot s) = false -> rep_pairs rep = 0%nat) /\
       Some (rep_strategy rep) = strategy_name).
Proof.
  cbv zeta. wp_start (get_status strategies strategy_name) s.
  unfold get_status. cbv zeta.
  repeat first [wp_step | apply wp_attribute]; path_events.
  all: try congruence.
  all: repeat match goal with
              | H : clock _ = _ |- _ => rewrite H; clear H
              end; cbn; use_bools.
  all: split_and!; try done; try lia.
  all: intros rep Hrep; simplify_eq; cbn; split_and!; try done.
  all: try (by destruct (errors (status (bot s)))).
Qed.

(** X21. The status report. [get_status] only reads: it leaves the bot as
    it was and logs nothing. It asks the feed for its metrics exactly when
    there is a feed and the pair manager for its summary only when there is
    one, and it has no exception handler: a call that raises, or a
    configuration without a strategy name, makes the report itself raise.
    A report that is returned shows the status register of the moment, the
    uptime against the clock it read, the last ten errors, and empty
    metrics, an empty summary and no pairs for the collaborators that are
    missing. It agrees with the snapshot [_save_state] would write from the
    same bot on the state, the four counters and the errors. *)
Theorem status_report_only_reads (strategies : World -> list string)
    (strategy_name : option string) (s : St) :
  let c := get_status strategies strategy_name in
  let r := fst (c s) in
  let d := events_of c s in
  let st := status (bot s) in
  bot (snd (c s)) = bot s /\
  count is_any_log d = 0%nat /\
  count (is_call is_feed_metrics) d = (if websocket_feed (bot s) then 1 else 0)%nat /\
  (count (is_call is_summary) d <= 1)%nat /\
  (pair_manager (bot s) = false -> count (is_call is_summary) d = 0%nat) /\
  (count (raised any_method) d <> 0%nat -> is_raise r = true) /\
  (strategy_name = None -> is_raise r = true) /\
  (forall rep, r = Ok rep ->
     rep_state rep = state_value (state st) /\
     rep_uptime rep = fst (clock (world s)) - start_time st /\
     rep_start_time rep = start_time st /\
     rep_last_update rep = last_update st /\
     rep_paper_trading rep = paper_trading (bot s) /\
     rep_errors rep = slice_last 10 (errors st) /\
     (rep_websocket rep = None <-> websocket_feed (bot s) = false) /\
     (rep_performance rep = None <-> pair_manager (bot s) = false) /\
     (pair_manager (bot s) = false -> rep_pairs rep = 0%nat) /\
     Some (rep_strategy rep) = strategy_name /\
     forall snap r',
       Call (WriteStateFile snap) r' ∈ events_of _save_state s ->
       snap_state snap = rep_state rep /\
       snap_total_trades snap = rep_total_trades rep /\
       snap_open_positions snap = rep_open_positions rep /\
       snap_total_pnl snap = rep_total_pnl rep /\
       snap_daily_pnl snap = rep_daily_pnl rep /\
       snap_errors snap = rep_errors rep).
Proof.
  cbv zeta.
  destruct (get_status_paths strategies strategy_name s)
    as (d & Hd & Hb & Hm & Hs & Hs0 & Hl & Hr & Hn & Hrep).
  cbv zeta in *. rewrite (events_of_eq _ _ _ Hd).
  split_and!; try done.
  intros rep Hok.
  destruct (Hrep rep Hok)
    as (E1 & E2 & E3 & E4 & E5 & E6 & E7 & E8 & E9 & E10 & E11 & E12 & E13 & E14).
  split_and!; try done.
  intros snap r' Hin.
  destruct (snapshot_of_status s snap r' Hin) as (F1 & F2 & F3 & F4 & F5 & F6).
  split_and!; congruence.
Qed.

End Properties.

(** * Properties of the configuration loader *)

Section ConfigurationProperties.

Context {S : Settings}.

Lemma env_default_spec (key env_var : string) (config : Json) :
  match section_of "exchange" config with
  | Some (JDict section) =>
      exists config',
        env_default key env_var config = Ok config' /\
        section_of "exchange" config' =
          Some (JDict (if from_option truthy false (section !! key) then section
                       else <[key := JStr (default "" (getenv env_var))]> section)) /\
        (forall k, k <> "exchange" -> section_of k config' = section_of k config)
  | _ => exists e, env_default key env_var config = Raise e
  end.
Proof.
  unfold env_default, section_of, getitem.
  destruct config as [| | | | | |d]; cbn; eauto.
  destruct (d !! "exchange") as [section|] eqn:E; cbn; [|eauto].
  destruct section as [| | | | | |section]; cbn; eauto.
  destruct (from_option truthy false (section !! key)); cbn.
  - eexists. split; [done|]. cbn. rewrite E. done.
  - eexists. split; [done|]. cbn. rewrite lookup_insert_eq. split; [done|].
    intros k Hk. by rewrite lookup_insert_ne.
Qed.

Lemma credential_section (key : string) (config : Json) :
  credential key config =
  match section_of "exchange" config with
  | Some (JDict section) => section !! key
  | _ => None
  end.
Proof. by destruct config. Qed.

Lemma env_default_fails (key env_var : string) (config : Json) :
  (forall section, section_of "exchange" config <> Some (JDict section)) ->
  exists e,
    env_default key env_var config = Raise e /\
    (getitem "exchange" config = Raise e \/
     exists v, getitem "exchange" config = Ok v /\ dict_get key v = Raise e).
Proof.
  intros Hno. unfold env_default, section_of, getitem in *.
  destruct config as [| | | | | |d]; cbn;
    try (eexists; split; [reflexivity|]; left; reflexivity).
  destruct (d !! "exchange") as [section|] eqn:E; cbn;
    [|eexists; split; [reflexivity|]; left; reflexivity].
  destruct section as [| | | | | |section]; cbn;
    try (eexists; split; [reflexivity|]; right; eexists; split; reflexivity).
  by destruct (Hno section).
Qed.

(** X22. What [_load_and_validate_config] does with the credentials. A
    failure of any step is logged once, with the message of the exception,
    and raised again; a success logs nothing. A configuration that cannot be
    loaded raises the loader's exception, and one that has no exchange
    section that is a dict raises the exception of that lookup, of the
    subscript or of the [get]: in both cases the validator is not consulted,
    and the outcome is the same whatever the validator is. Otherwise the
    validator is handed the loaded
    configuration in which the two credentials are resolved: a value of the
    file that is true is kept whatever the environment holds, and a value
    that is missing or false (empty, null, zero) is replaced by the
    environment variable, or by the empty string when that is not set;
    every other key of the exchange section and every other section is as
    loaded. The result is the validator's: the configuration when it
    answers true, an exception otherwise. *)
Theorem credentials_from_file_then_environment (path : string) :
  let r := fst (_load_and_validate_config path) in
  let logged := snd (_load_and_validate_config path) in
  logged = match r with Ok _ => [] | Raise e => [(LError, config_error e)] end /\
  (forall e, load_config path = Raise e -> r = Raise e) /\
  (forall config, load_config path = Ok config ->
     (forall section, section_of "exchange" config <> Some (JDict section)) ->
     is_raise r = true /\
     exists e,
       r = Raise e /\
       (getitem "exchange" config = Raise e \/
        exists v, getitem "exchange" config = Ok v /\ dict_get "api_key" v = Raise e)) /\
  (forall validator : Json -> Res bool * Json,
     (is_raise (load_config path) = true \/
      exists config, load_config path = Ok config /\
        forall section, section_of "exchange" config <> Some (JDict section)) ->
     @_load_and_validate_config
       {| load_config := load_config; getenv := getenv;
          validate_config := validator |} path =
     _load_and_validate_config path) /\
  (forall config section, load_config path = Ok config ->
     section_of "exchange" config = Some (JDict section) ->
     exists checked,
       credential "api_key" checked =
         Some (resolved (section !! "api_key") "BINANCE_API_KEY") /\
       credential "api_secret" checked =
         Some (resolved (section !! "api_secret") "BINANCE_API_SECRET") /\
       (forall k, k <> "api_key" -> k <> "api_secret" ->
          credential k checked = section !! k) /\
       (forall k, k <> "exchange" -> section_of k checked = section_of k config) /\
       r = match validate_config checked with
           | (Ok true, config') => Ok config'
           | (Ok false, _) => Raise "Configuration invalide"
           | (Raise e, _) => Raise e
           end).
Proof.
  cbv zeta. unfold _load_and_validate_config. split_and!.
  - match goal with |- context [match ?b with Ok _ => _ | Raise _ => _ end] =>
      destruct b end; done.
  - intros e ->. done.
  - intros config -> Hno. cbn [res_bind].
    destruct (env_default_fails "api_key" "BINANCE_API_KEY" config Hno) as (e & -> & He).
    cbn. split; [done|]. by exists e.
  - intros validator [Hl|(config & Hl & Hno)]; cbn [load_config].
    + destruct (load_config path); [discriminate Hl | done].
    + rewrite Hl. cbn [res_bind].
      pose proof (env_default_fails "api_key" "BINANCE_API_KEY" config Hno) as (e & He & _).
      change (@env_default {| load_config := load_config; getenv := getenv;
                              validate_config := validator |}
                "api_key" "BINANCE_API_KEY" config)
        with (env_default "api_key" "BINANCE_API_KEY" config).
      by rewrite He.
  - intros config section -> Hsec. cbn [res_bind].
    pose proof (env_default_spec "api_key" "BINANCE_API_KEY" config) as H1.
    rewrite Hsec in H1. destruct H1 as (c1 & -> & Hs1 & Ho1). cbn [res_bind].
    pose proof (env_default_spec "api_secret" "BINANCE_API_SECRET" c1) as H2.
    rewrite Hs1 in H2. destruct H2 as (c2 & -> & Hs2 & Ho2). cbn [res_bind].
    destruct (section !! "api_key") as [key|] eqn:Ekey;
      destruct (section !! "api_secret") as [secret|] eqn:Esecret;
      cbn [from_option] in *;
      try destruct (truthy key) eqn:Tkey;
      rewrite ?lookup_insert_ne, ?Esecret in Hs2 by done; cbn [from_option] in Hs2;
      try destruct (truthy secret) eqn:Tsecret.
    all: exists c2; unfold resolved; rewrite ?Tkey, ?Tsecret; split_and!.
    all: try (intros k Hk; rewrite Ho2, Ho1; done).
    all: try (destruct (validate_config c2) as [[[]|e] c']; done).
    all: try intros k Hk1 Hk2.
    all: rewrite credential_section, Hs2; cbn [negb].
    all: rewrite ?lookup_insert_eq, ?lookup_insert_ne, ?lookup_insert_eq by done; done.
Qed.

End ConfigurationProperties.

(** * Concrete runs *)

(** C1. After the risk monitor has paused the bot, with no shutdown
    requested, the next liveness check of the risk monitor, of the
    performance tracker and of the health check fails and each of these
    loops returns, as does the strategy loop; only the market scanner goes
    on. *)
Theorem monitoring_loops_return_when_paused :
  state (status (bot breach_example)) = RUNNING /\
  state (status (bot paused_example)) = PAUSED /\
  _shutdown_event (bot paused_example) = false /\
  loop_step RiskMonitor paused_example = None /\
  loop_step Performance paused_example = None /\
  loop_step HealthCheck paused_example = None /\
  loop_step Strategy paused_example = None /\
  loop_step Scanner paused_example = Some (market_scanner_cycle paused_example) /\
  (forall fuel l,
     l <> Scanner ->
     run_task (S fuel) l paused_example = Some (Ended (Ok tt), paused_example)).
Proof.
  assert (Hp : state (status (bot paused_example)) = PAUSED)
    by (vm_compute; reflexivity).
  assert (He : _shutdown_event (bot paused_example) = false)
    by (vm_compute; reflexivity).
  destruct (paused_loops paused_example Hp) as (Hs & Hr & Hperf & Hh & Hscan).
  split; [vm_compute; reflexivity|].
  split; [exact Hp|]. split; [exact He|]. split; [exact Hr|].
  split; [exact Hperf|]. split; [exact Hh|]. split; [exact Hs|].
  split; [exact (Hscan He)|].
  intros fuel l Hl. exact (paused_tasks_return paused_example fuel l Hp Hl).
Qed.

(** C2, counterexample. With a drawdown of 21% and close-on-pause set, the
    cycle closes the positions once, but not with the reason
    [drawdown protection]: the reason it passes is [Protection drawdown]. *)
Lemma liquidation_reason_differs :
  state (status (bot breach_example)) = RUNNING /\
  close_on_pause (config (bot breach_example)) = true /\
  float_gt (current_drawdown (tw_risk (world breach_example))) 0.20 = true /\
  count (is_call is_close_all) (events_of risk_monitor_cycle breach_example) = 1%nat /\
  count (is_call (is_close_all_for "drawdown protection"))
    (events_of risk_monitor_cycle breach_example) = 0%nat.
Proof. repeat apply conj; vm_compute; reflexivity. Qed.

Lemma drawdown_breach_pauses_witness :
  state (status (bot paused_example)) = PAUSED /\
  tw_open (world paused_example) = [] /\
  count (is_call (is_close_all_for "Protection drawdown"))
    (events_of risk_monitor_cycle breach_example) = 1%nat.
Proof.
  assert (Hbal : initial_balance (config (bot breach_example)) = Some 10000%float)
    by (vm_compute; reflexivity).
  assert (Hrisk : risk_manager (bot breach_example) = true)
    by (vm_compute; reflexivity).
  assert (Hget : get_risk_metrics 10000%float (world breach_example)
                 = (Ok (mkRisk 0.21 0.06), world breach_example))
    by (vm_compute; reflexivity).
  assert (Hcrit : float_gt (current_drawdown (mkRisk 0.21 0.06)) 0.20 = true)
    by (vm_compute; reflexivity).
  destruct (drawdown_breach_pauses breach_example _ _ _ Hbal Hrisk Hget Hcrit)
    as (_ & Hst & Hall & Hfor & _).
  split; [exact Hst|]. split; [vm_compute; reflexivity|].
  etrans; [exact Hfor|]. etrans; [exact Hall|]. vm_compute. reflexivity.
Defined.

(** C3, counterexample. The snapshot cannot be written at shutdown: a step
    of the sequence fails, and the bot still ends STOPPED, not in ERROR. *)
Lemma snapshot_failure_still_stopped :
  count (raised is_persistence) (events_of shutdown full_disk) = 1%nat /\
  state (status (bot (snd (shutdown full_disk)))) = STOPPED.
Proof. apply conj; vm_compute; reflexivity. Qed.

(** C4, counterexample. One more failed task on top of a hundred recorded
    errors: right after the append the list has 101 entries. *)
Lemma append_exceeds_cap :
  length (errors (status (bot crowded))) = 100%nat /\
  length (errors (status (bot (snd (monitored "Scanner" (uncancelled (raise "timeout"))
                                      crowded)))))
    = 101%nat.
Proof. apply conj; vm_compute; reflexivity. Qed.

Lemma daily_loss_only_warns_witness :
  bot (snd (risk_monitor_cycle warning_example)) = bot warning_example /\
  count is_daily_loss_warning (events_of risk_monitor_cycle warning_example) = 1%nat.
Proof.
  assert (Hbal : initial_balance (config (bot warning_example)) = Some 10000%float)
    by (vm_compute; reflexivity).
  assert (Hrisk : risk_manager (bot warning_example) = true)
    by (vm_compute; reflexivity).
  assert (Hget : get_risk_metrics 10000%float (world warning_example)
                 = (Ok (mkRisk 0.16 0.06), world warning_example))
    by (vm_compute; reflexivity).
  assert (Hcalm : float_gt (current_drawdown (mkRisk 0.16 0.06)) 0.20 = false)
    by (vm_compute; reflexivity).
  assert (Hloss : float_gt (rm_daily_pnl (mkRisk 0.16 0.06)) 0.05 = true)
    by (vm_compute; reflexivity).
  destruct (daily_loss_only_warns warning_example _ _ _ Hbal Hrisk Hget)
    as (_ & Hbot & _ & _ & Hwarn & _).
  rewrite Hcalm in Hbot, Hwarn. rewrite Hloss in Hwarn.
  split; [exact Hbot|]. apply Hwarn. intros H. discriminate H.
Defined.

(** C6, counterexample. A daily ratio of 6% comes with a drawdown of 21%
    and a liquidation that raises: the cycle leaves the [try] block at the
    pause step, the daily-loss check is not reached and no warning is
    logged. *)
Lemma warning_lost_when_liquidation_fails :
  float_gt (rm_daily_pnl (tw_risk (world liquidation_fails))) 0.05 = true /\
  count (raised is_close_all) (events_of risk_monitor_cycle liquidation_fails) = 1%nat /\
  count is_daily_loss_warning (events_of risk_monitor_cycle liquidation_fails) = 0%nat /\
  state (status (bot (snd (risk_monitor_cycle liquidation_fails)))) = PAUSED.
Proof. repeat apply conj; vm_compute; reflexivity. Qed.

(** C7, counterexample. With the network down the feed's connect raises,
    and the cycle ends there: the exchange, disconnected as well, is neither
    asked nor reconnected in this cycle. *)
Lemma exchange_skipped_when_feed_raises :
  exchange (bot network_down) = true /\
  exchange_connected (world network_down) = false /\
  count (is_call is_feed_connect) (events_of health_check_cycle network_down) = 1%nat /\
  count (is_call is_exchange_connected) (events_of health_check_cycle network_down) = 0%nat /\
  count (is_call is_exchange_connect) (events_of health_check_cycle network_down) = 0%nat.
Proof. repeat apply conj; vm_compute; reflexivity. Qed.

(** C8, counterexample. On day 1 the first reset raises: the next cycle of
    the same day invokes the reset again. And when the feed's connect raises
    in the first cycle of day 1, that cycle invokes no reset at all. *)
Lemma reset_repeated_or_missed :
  reset_dates (trace (two_checks_next_day [FailReset])) = [1; 1] /\
  count (is_call is_reset)
    (events_of health_check_cycle
       (in_world (tw_set_feed false (next_day [FailFeedConnect])) first_check)) = 0%nat.
Proof. apply conj; vm_compute; reflexivity. Qed.

Lemma daily_reset_once_per_date_witness :
  reset_dates (trace (two_checks_next_day [])) = [1] /\
  NoDup (reset_dates (trace (two_checks_next_day []))).
Proof.
  split; [vm_compute; reflexivity|].
  refine (proj1 (proj2 (proj2
    (daily_reset_once_per_date (started false calm_world) (two_checks_next_day []) _ _ _)))).
  - unfold two_checks_next_day. apply run_cycle, run_cycle.
    unfold in_world, first_check. apply run_env; [|reflexivity].
    apply run_cycle, run_start.
  - vm_compute. reflexivity.
  - vm_compute. reflexivity.
Defined.

(** C9, counterexample. The market data manager rejects an order book
    update that came 250 ms late: the handler logs the error, no high-latency
    warning is logged and the counter is not incremented. *)
Lemma rejected_update_not_counted :
  float_gt (latency_ms late_orderbook) 200 = true /\
  count is_high_latency_warning
    (events_of (_handle_market_update late_orderbook) orderbook_rejected) = 0%nat /\
  metrics (status (bot (snd (_handle_market_update late_orderbook orderbook_rejected))))
    !! "ws_updates" = None.
Proof. repeat apply conj; vm_compute; reflexivity. Qed.

(** * Further concrete runs *)

(** A drawdown of 16% is above the first limit only: the warning is
    logged, the critical line is not, and the bot is left as it was. *)
Lemma drawdown_limits_are_nested_witness :
  count is_high_drawdown_warning (events_of risk_monitor_cycle warning_example) = 1%nat /\
  count is_critical_drawdown (events_of risk_monitor_cycle warning_example) = 0%nat /\
  bot (snd (risk_monitor_cycle warning_example)) = bot warning_example.
Proof.
  assert (Hbal : initial_balance (config (bot warning_example)) = Some 10000%float)
    by (vm_compute; reflexivity).
  assert (Hrisk : risk_manager (bot warning_example) = true)
    by (vm_compute; reflexivity).
  assert (Hget : get_risk_metrics 10000%float (world warning_example)
                 = (Ok (mkRisk 0.16 0.06), world warning_example))
    by (vm_compute; reflexivity).
  assert (Hhigh : float_gt (current_drawdown (mkRisk 0.16 0.06)) 0.15 = true)
    by (vm_compute; reflexivity).
  assert (Hcalm : float_gt (current_drawdown (mkRisk 0.16 0.06)) 0.20 = false)
    by (vm_compute; reflexivity).
  destruct (drawdown_limits_are_nested warning_example _ _ _ Hbal Hrisk Hget)
    as (Hw & Hc & _ & _ & Hbot & _).
  rewrite Hhigh in Hw. rewrite Hcalm in Hc.
  split; [exact Hw|]. split; [exact Hc|]. exact (Hbot Hcalm).
Defined.

(** After a shutdown the event is set, and a later [start] leaves it set:
    the market scanner of the restarted bot has nothing to do. *)
Lemma shutdown_event_is_never_cleared_witness :
  _shutdown_event (bot (snd (shutdown (started false calm_world)))) = true /\
  _shutdown_event
    (bot (snd (start (snd (shutdown (started false calm_world)))))) = true /\
  loop_step Scanner (snd (shutdown (started false calm_world))) = None.
Proof.
  assert (H : _shutdown_event (bot (snd (shutdown (started false calm_world)))) = true)
    by (vm_compute; reflexivity).
  destruct (shutdown_event_is_never_cleared _ H) as (_ & Hs & _ & _ & _ & _ & Hl & _).
  split; [exact H|]. split; [exact Hs|]. exact Hl.
Defined.
